(** * Whisper / OpenVINO key-value cache adapter

    A shallow embedding of the cache logic of the two notebooks:

    - the export notebook: [save_to_cache], [attention_forward],
      [block_forward], [decoder_forward], the names and dynamic axes
      given to the inputs and outputs of the exported graph, and the
      bounds handed to the model optimizer;
    - the transcription notebook: [OpenVINOTextDecoder]
      ([init_past_inputs], [preprocess_kv_cache_inputs],
      [postprocess_outputs], [forward]), [OpenVINOInference]
      ([logits], [cleanup_caching], [rearrange_kv_cache]), [resample],
      the loop of [split_video], [format_timestamp] and [prepare_srt].

    Python dictionaries are association lists in insertion order (the code
    reads [next(iter(kv_cache.values()))] and iterates over [items()]),
    exceptions are an error monad, tensors carry their shape next to their
    rows.  The neural layers of the Whisper model and the compiled OpenVINO
    graph are not part of the notebooks: they are fields of records and
    are never unfolded. *)

From Stdlib Require Import ZArith List String Ascii Bool Arith Lia.
From Stdlib Require Import Floats Uint63 DecimalString DecimalNat.
Import ListNotations.
Local Open Scope list_scope.
Local Open Scope nat_scope.

Set Implicit Arguments.

(* ================================================================== *)
(** * Python: exceptions and dictionaries *)
(* ================================================================== *)

Module Py.

(** The exceptions the modelled code can raise. *)
Inductive exn : Type :=
| AttributeError    (* attribute access on [None] *)
| RuntimeError      (* torch: sizes of tensors must match *)
| IndexError        (* index out of range *)
| KeyError          (* missing dictionary key *)
| ValueError        (* numpy: bad argument; [int] of a NaN *)
| ZeroDivisionError
| OverflowError     (* a number beyond the range of its target *)
| AssertionError.   (* a failed [assert] *)

Inductive result (A : Type) : Type :=
| Ok (a : A)
| Raise (e : exn).

Arguments Ok {A} a.
Arguments Raise {A} e.

Definition bind {A B : Type} (c : result A) (k : A -> result B) : result B :=
  match c with
  | Ok a => k a
  | Raise e => Raise e
  end.

(** [dict V]: a Python [dict] with string keys, in insertion order. *)
Definition dict (V : Type) : Type := list (string * V).

Section Dict.
Variable V : Type.

(** [d.get(k)] *)
Fixpoint dict_get (k : string) (d : dict V) : option V :=
  match d with
  | [] => None
  | (k', v) :: d' => if String.eqb k k' then Some v else dict_get k d'
  end.

(** [k in d] *)
Definition dict_mem (k : string) (d : dict V) : bool :=
  match dict_get k d with Some _ => true | None => false end.

(** [d.get(k, default)], the default being already evaluated. *)
Definition dict_get_default (k : string) (default : V) (d : dict V) : V :=
  match dict_get k d with Some v => v | None => default end.

(** [d[k]] *)
Definition dict_getitem (k : string) (d : dict V) : result V :=
  match dict_get k d with Some v => Ok v | None => Raise KeyError end.

(** [d[k] = v]: an existing key keeps its place, a new key goes last. *)
Fixpoint dict_set (k : string) (v : V) (d : dict V) : dict V :=
  match d with
  | [] => [(k, v)]
  | (k', v') :: d' =>
      if String.eqb k k' then (k, v) :: d' else (k', v') :: dict_set k v d'
  end.

Definition dict_keys (d : dict V) : list string := map fst d.
End Dict.

End Py.

Import Py.

Declare Scope py_scope.
Delimit Scope py_scope with py.
Notation "x <- c ;; k" := (bind c (fun x => k))
  (at level 61, c at next level, right associativity) : py_scope.
Notation "' pat <- c ;; k" := (bind c (fun x => match x with pat => k end))
  (at level 61, pat pattern, c at next level, right associativity) : py_scope.
Local Open Scope py_scope.

(* ================================================================== *)
(** * Tensors *)
(* ================================================================== *)

(** A rank-3 float tensor [(batch, sequence position, feature)]: its shape
    and its rows, one list of feature vectors per batch entry.  The shape
    is kept explicitly, so that a tensor with zero positions still has a
    feature size, as [np.zeros((b, 0, d))] has. *)
Record Tensor : Type := mkTensor {
  t_batch : nat;
  t_seq : nat;
  t_feat : nat;
  t_rows : list (list (list float))
}.

(** [t.shape] *)
Definition shape (t : Tensor) : list nat := [t_batch t; t_seq t; t_feat t].

(** The rows agree with the declared shape. *)
Definition wf_tensor (t : Tensor) : Prop :=
  List.length (t_rows t) = t_batch t /\
  Forall (fun r => List.length r = t_seq t /\
                   Forall (fun v => List.length v = t_feat t) r) (t_rows t).

(** Row-wise concatenation of two batches. *)
Fixpoint cat_rows (a b : list (list (list float))) : list (list (list float)) :=
  match a, b with
  | ra :: a', rb :: b' => (ra ++ rb) :: cat_rows a' b'
  | _, _ => []
  end.

(** [torch.cat([a, b], dim=1)]: every size but that of dimension 1 must
    agree. *)
Definition torch_cat_dim1 (a b : Tensor) : result Tensor :=
  if (t_batch a =? t_batch b) && (t_feat a =? t_feat b) then
    Ok (mkTensor (t_batch a) (t_seq a + t_seq b) (t_feat a)
                 (cat_rows (t_rows a) (t_rows b)))
  else Raise RuntimeError.

(** [np.zeros((b, s, d), dtype=np.float32)] *)
Definition np_zeros (b s d : nat) : Tensor :=
  mkTensor b s d (repeat (repeat (repeat 0%float d) s) b).

(* ================================================================== *)
(** * The export notebook: the cache of the patched decoder *)
(* ================================================================== *)

(** [save_to_cache(cache, module, output)], with the global
    [positional_embeddings_size] as first argument.  Returns the mutated
    dictionary and [cache[module]]. *)
Definition save_to_cache (positional_embeddings_size : nat)
    (cache : dict Tensor) (module : string) (output : Tensor)
  : result (dict Tensor * Tensor) :=
  if negb (dict_mem module cache)
     || (positional_embeddings_size <? t_seq output) then
    (* save as-is, for the first token or cross attention *)
    Ok (dict_set module output cache, output)
  else
    old <- dict_getitem module cache ;;
    new <- torch_cat_dim1 old output ;;
    Ok (dict_set module new cache, new).

(** ** The Whisper text decoder, as far as the notebook uses it *)

(** Token ids, [(batch, length)]. *)
Record Tokens : Type := mkTokens {
  tok_batch : nat;
  tok_len : nat;
  tok_ids : list (list Z)
}.

Definition Mask : Type := list (list float).

(** [whisper.model.MultiHeadAttention]: four linear layers and the
    attention product, which returns [(wv, qk)].  The layers are total
    functions: what torch raises inside a layer, on shapes the layer does
    not accept, is not modelled. *)
Record MultiHeadAttention : Type := mkAttention {
  query : Tensor -> Tensor;
  key : Tensor -> Tensor;
  value : Tensor -> Tensor;
  out : Tensor -> Tensor;
  qkv_attention : Tensor -> Tensor -> Tensor -> option Mask -> Tensor * Tensor
}.

(** [whisper.model.ResidualAttentionBlock] *)
Record ResidualAttentionBlock : Type := mkBlock {
  attn : MultiHeadAttention;
  attn_ln : Tensor -> Tensor;
  cross_attn : option MultiHeadAttention;
  cross_attn_ln : Tensor -> Tensor;
  mlp : Tensor -> Tensor;
  mlp_ln : Tensor -> Tensor
}.

(** [whisper.model.TextDecoder]; [unembed] is the product with the
    transposed token embedding that yields the logits. *)
Record TextDecoder : Type := mkDecoder {
  token_embedding : Tokens -> Tensor;
  positional_embedding : list (list float);
  blocks : list ResidualAttentionBlock;
  ln : Tensor -> Tensor;
  mask : Mask;
  unembed : Tensor -> Tensor
}.

(** [positional_embeddings_size = model.decoder.positional_embedding.shape[0]] *)
Definition positional_embeddings_size (decoder : TextDecoder) : nat :=
  List.length (positional_embedding decoder).

Definition vec_add (u v : list float) : list float :=
  map (fun p => (fst p + snd p)%float) (combine u v).

Definition row_add (r s : list (list float)) : list (list float) :=
  map (fun p => vec_add (fst p) (snd p)) (combine r s).

(** [a + b] for two tensors of one shape.  Operands of different shapes,
    which torch would try to broadcast, are rejected. *)
Definition tensor_add (a b : Tensor) : result Tensor :=
  if (t_batch a =? t_batch b) && (t_seq a =? t_seq b) && (t_feat a =? t_feat b)
  then Ok (mkTensor (t_batch a) (t_seq a) (t_feat a)
             (map (fun p => row_add (fst p) (snd p))
                  (combine (t_rows a) (t_rows b))))
  else Raise RuntimeError.

(** [t + pe] for [t] of shape [(b, n, d)] and a slice [pe] of [m] rows of
    the positional table: the position axes are broadcast as torch does
    ([m = n], or one of them is 1). *)
Definition add_positional (t : Tensor) (pe : list (list float)) : result Tensor :=
  let m := List.length pe in
  if m =? t_seq t then
    Ok (mkTensor (t_batch t) (t_seq t) (t_feat t)
          (map (fun r => row_add r pe) (t_rows t)))
  else if m =? 1 then
    Ok (mkTensor (t_batch t) (t_seq t) (t_feat t)
          (map (fun r => map (fun v => vec_add v (hd [] pe)) r) (t_rows t)))
  else if t_seq t =? 1 then
    Ok (mkTensor (t_batch t) m (t_feat t)
          (map (fun r => map (fun p => vec_add (hd [] r) p) pe) (t_rows t)))
  else Raise RuntimeError.

(** [l[i:j]] *)
Definition py_slice {A : Type} (i j : nat) (l : list A) : list A :=
  firstn (j - i) (skipn i l).

(** [f'{n}'] for a non-negative [int]. *)
Definition str_of_nat (n : nat) : string :=
  NilEmpty.string_of_uint (Nat.to_uint n).

(** The cache keys [f'k_{idx}'] and [f'v_{idx}']. *)
Definition k_name (idx : string) : string := String.append "k_" idx.
Definition v_name (idx : string) : string := String.append "v_" idx.

(** The indices [f'{idx}a'] and [f'{idx}c'] that [block_forward] passes. *)
Definition self_idx (idx : nat) : string := String.append (str_of_nat idx) "a".
Definition cross_idx (idx : nat) : string := String.append (str_of_nat idx) "c".

(** [attention_forward(attention_module, x, xa, mask, kv_cache, idx)].
    In the cross-attention branch the default argument of [kv_cache.get]
    is evaluated first, as Python does: [save_to_cache] runs on every
    call, and the lookup reads the dictionary it has just written. *)
Definition attention_forward (pes : nat) (attention_module : MultiHeadAttention)
    (x : Tensor) (xa : option Tensor) (mask : option Mask)
    (kv_cache : option (dict Tensor)) (idx : string)
  : result (Tensor * option (dict Tensor)) :=
  let q := query attention_module x in
  '(k, v, kv_cache) <-
    match kv_cache, xa with
    | Some cache, Some xa' =>
        (* for cross-attention, calculate keys and values once and reuse
           in subsequent calls. *)
        '(cache, dk) <- save_to_cache pes cache (k_name idx)
                          (key attention_module xa') ;;
        let k := dict_get_default (k_name idx) dk cache in
        '(cache, dv) <- save_to_cache pes cache (v_name idx)
                          (value attention_module xa') ;;
        let v := dict_get_default (v_name idx) dv cache in
        Ok (k, v, Some cache)
    | _, _ =>
        let src := match xa with None => x | Some xa' => xa' end in
        let k := key attention_module src in
        let v := value attention_module src in
        match kv_cache with
        | Some cache =>
            '(cache, k) <- save_to_cache pes cache (k_name idx) k ;;
            '(cache, v) <- save_to_cache pes cache (v_name idx) v ;;
            Ok (k, v, Some cache)
        | None => Ok (k, v, None)
        end
    end ;;
  let (wv, qk) := qkv_attention attention_module q k v mask in
  Ok (out attention_module wv, kv_cache).

(** [block_forward(residual_block, x, xa, mask, kv_cache, idx)] *)
Definition block_forward (pes : nat) (residual_block : ResidualAttentionBlock)
    (x : Tensor) (xa : option Tensor) (mask : option Mask)
    (kv_cache : option (dict Tensor)) (idx : nat)
  : result (Tensor * option (dict Tensor)) :=
  '(x0, kv_cache) <- attention_forward pes (attn residual_block)
                       (attn_ln residual_block x) None mask kv_cache
                       (self_idx idx) ;;
  x <- tensor_add x x0 ;;
  '(x, kv_cache) <-
    match cross_attn residual_block with
    | Some ca =>
        '(x1, kv_cache) <- attention_forward pes ca
                             (cross_attn_ln residual_block x) xa None kv_cache
                             (cross_idx idx) ;;
        x <- tensor_add x x1 ;;
        Ok (x, kv_cache)
    | None => Ok (x, kv_cache)
    end ;;
  x <- tensor_add x (mlp residual_block (mlp_ln residual_block x)) ;;
  Ok (x, kv_cache).

(** The loop [for block in decoder.blocks], each block called with the
    index [enumerate] gave it when its [forward] was patched. *)
Fixpoint blocks_forward (pes : nat) (bs : list ResidualAttentionBlock)
    (idx : nat) (x : Tensor) (xa : option Tensor) (mask : option Mask)
    (kv_cache : option (dict Tensor))
  : result (Tensor * option (dict Tensor)) :=
  match bs with
  | [] => Ok (x, kv_cache)
  | block :: bs' =>
      '(x, kv_cache) <- block_forward pes block x xa mask kv_cache idx ;;
      blocks_forward pes bs' (S idx) x xa mask kv_cache
  end.

(** [xa.dtype]: an attribute of [None] does not exist. *)
Definition dtype_of (xa : option Tensor) : result unit :=
  match xa with
  | Some _ => Ok tt
  | None => Raise AttributeError
  end.

(** [decoder_forward(decoder, x, xa, kv_cache)] *)
Definition decoder_forward (decoder : TextDecoder) (x : Tokens)
    (xa : option Tensor) (kv_cache : option (dict Tensor))
  : result (Tensor * option (dict Tensor)) :=
  let offset :=
    match kv_cache with
    | Some ((_, t) :: _) => t_seq t
    | _ => 0
    end in
  x' <- add_positional (token_embedding decoder x)
          (py_slice offset (offset + tok_len x) (positional_embedding decoder)) ;;
  _ <- dtype_of xa ;;
  '(x', kv_cache) <- blocks_forward (positional_embeddings_size decoder)
                       (blocks decoder) 0 x' xa (Some (mask decoder)) kv_cache ;;
  let logits := unembed decoder (ln decoder x') in
  Ok (logits, kv_cache).

(** A decoding run: the decoder is called once per element of [steps],
    every call receiving the cache the previous one returned. *)
Fixpoint run_steps (decoder : TextDecoder) (xa : option Tensor)
    (steps : list Tokens) (kv_cache : option (dict Tensor))
  : result (option (dict Tensor)) :=
  match steps with
  | [] => Ok kv_cache
  | x :: steps' =>
      '(_, kv_cache) <- decoder_forward decoder x xa kv_cache ;;
      run_steps decoder xa steps' kv_cache
  end.

(** ** The names of the exported graph *)

(** [inputs = [f"in_{k}" for k in kv_cache.keys()]] and
    [input_names = ["tokens", "audio_features"] + inputs]. *)
Definition export_input_names (kv_cache : dict Tensor) : list string :=
  ["tokens"%string; "audio_features"%string]
    ++ map (String.append "in_") (dict_keys kv_cache).

(** [output_names = ["logits"] + outputs] *)
Definition export_output_names (kv_cache : dict Tensor) : list string :=
  ["logits"%string] ++ map (String.append "out_") (dict_keys kv_cache).

(* ================================================================== *)
(** * The transcription notebook: the OpenVINO decoder *)
(* ================================================================== *)

(** [name in names] for a list of strings. *)
Definition str_in (name : string) (names : list string) : bool :=
  existsb (String.eqb name) names.

(** [s.replace(old, new)]: every occurrence of [old], from the left and
    without overlap.  [skip] counts the characters of an occurrence that
    is being dropped. *)
Fixpoint replace_from (old new : string) (skip : nat) (s : string) : string :=
  match s with
  | EmptyString => EmptyString
  | String c s' =>
      match skip with
      | S skip' => replace_from old new skip' s'
      | O =>
          if String.prefix old s
          then String.append new
                 (replace_from old new (String.length old - 1) s')
          else String c (replace_from old new 0 s')
      end
  end.

Fixpoint intersperse (new s : string) : string :=
  match s with
  | EmptyString => new
  | String c s' => String.append new (String c (intersperse new s'))
  end.

Definition str_replace (old new s : string) : string :=
  match old with
  | EmptyString => intersperse new s
  | _ => replace_from old new 0 s
  end.

(** [openvino.runtime.Tensor(array)]: the token ids or a float array. *)
Inductive ov_tensor : Type :=
| OVTokens (x : Tokens)
| OVFloat (t : Tensor).

Definition ov_shape (t : ov_tensor) : list nat :=
  match t with
  | OVTokens x => [tok_batch x; tok_len x]
  | OVFloat t => shape t
  end.

(** [t.shape[i]] *)
Definition shape_at (t : ov_tensor) (i : nat) : result nat :=
  match nth_error (ov_shape t) i with
  | Some n => Ok n
  | None => Raise IndexError
  end.

(** An output of the compiled model: [any_name] and [get_names()]. *)
Record OutputPort : Type := mkPort {
  any_name : string;
  get_names : list string
}.

(** [OpenVINOTextDecoder]: the names of the inputs of the model that was
    read, and the compiled model, whose run is not part of the notebook. *)
Record OpenVINOTextDecoder : Type := mkOVDecoder {
  _input_names : list string;
  compiled_model : dict ov_tensor -> result (list (OutputPort * Tensor))
}.

(** The body of the loop of [init_past_inputs]: [tokens] and
    [audio_features] are skipped, any other input receives the
    placeholder. *)
Definition init_past_step (placeholder : ov_tensor)
    (feed_dict : dict ov_tensor) (name : string) : dict ov_tensor :=
  if str_in name ["tokens"%string; "audio_features"%string] then feed_dict
  else dict_set name placeholder feed_dict.

(** [init_past_inputs(self, feed_dict)] *)
Definition init_past_inputs (self : OpenVINOTextDecoder)
    (feed_dict : dict ov_tensor) : result (dict ov_tensor) :=
  tokens <- dict_getitem "tokens" feed_dict ;;
  beam_size <- shape_at tokens 0 ;;
  audio_features <- dict_getitem "audio_features" feed_dict ;;
  audio_len <- shape_at audio_features 2 ;;
  let previous_seq_len := 0 in
  Ok (fold_left
        (init_past_step
           (OVFloat (np_zeros beam_size previous_seq_len audio_len)))
        (_input_names self) feed_dict).

(** [not kv_cache]: [None] and the empty dictionary are both false. *)
Definition py_not_dict {V : Type} (kv_cache : option (dict V)) : bool :=
  match kv_cache with
  | None | Some [] => true
  | Some (_ :: _) => false
  end.

(** The body of the loop of [preprocess_kv_cache_inputs] over
    [kv_cache.items()]. *)
Definition feed_slot (input_names : list string)
    (feed_dict : dict ov_tensor) (kv : string * Tensor) : dict ov_tensor :=
  let new_k := String.append "in_" (fst kv) in
  if str_in new_k input_names
  then dict_set new_k (OVFloat (snd kv)) feed_dict
  else feed_dict.

(** [preprocess_kv_cache_inputs(self, feed_dict, kv_cache)] *)
Definition preprocess_kv_cache_inputs (self : OpenVINOTextDecoder)
    (feed_dict : dict ov_tensor) (kv_cache : option (dict Tensor))
  : result (dict ov_tensor) :=
  if py_not_dict kv_cache then init_past_inputs self feed_dict
  else
    Ok (fold_left (feed_slot (_input_names self))
          (match kv_cache with Some c => c | None => [] end) feed_dict).

(** The body of the loop of [postprocess_outputs] over [outputs.items()],
    on the pair [(logits, kv_cache)]. *)
Definition demap_output (acc : option Tensor * dict Tensor)
    (o : OutputPort * Tensor) : option Tensor * dict Tensor :=
  let output_t := fst o in
  if str_in "logits" (get_names output_t)
  then (Some (snd o), snd acc)
  else
    let tensor_name := any_name output_t in
    (fst acc, dict_set (str_replace "out_" "" tensor_name) (snd o) (snd acc)).

(** [postprocess_outputs(self, outputs)]: [logits] stays [None] when no
    output carries that name. *)
Definition postprocess_outputs (outputs : list (OutputPort * Tensor))
  : option Tensor * dict Tensor :=
  fold_left demap_output outputs (None, []).

(** [x.numpy()] on an optional tensor. *)
Definition numpy_of (xa : option Tensor) : result Tensor :=
  match xa with
  | Some t => Ok t
  | None => Raise AttributeError
  end.

(** The feed dictionary [forward] hands to the compiled model. *)
Definition forward_feed (self : OpenVINOTextDecoder) (x : Tokens)
    (xa : option Tensor) (kv_cache : option (dict Tensor))
  : result (dict ov_tensor) :=
  xa' <- numpy_of xa ;;
  let feed_dict := [("tokens"%string, OVTokens x);
                    ("audio_features"%string, OVFloat xa')] in
  preprocess_kv_cache_inputs self feed_dict kv_cache.

(** [forward(self, x, xa, kv_cache)] *)
Definition forward (self : OpenVINOTextDecoder) (x : Tokens)
    (xa : option Tensor) (kv_cache : option (dict Tensor))
  : result (option Tensor * dict Tensor) :=
  feed_dict <- forward_feed self x xa kv_cache ;;
  res <- compiled_model self feed_dict ;;
  Ok (postprocess_outputs res).

(* ================================================================== *)
(** * The transcription notebook: [OpenVINOInference] *)
(* ================================================================== *)

(** Dictionaries are objects: [self.kv_cache] holds a reference, and the
    heap maps references to the dictionaries they denote.  [{}] allocates. *)
Definition loc : Type := nat.
Definition Heap : Type := list (dict Tensor).

Definition heap_new (d : dict Tensor) (h : Heap) : Heap * loc :=
  (h ++ [d], List.length h).

Definition heap_get (l : loc) (h : Heap) : option (dict Tensor) :=
  nth_error h l.

Fixpoint heap_set (l : loc) (d : dict Tensor) (h : Heap) : Heap :=
  match h, l with
  | [], _ => []
  | _ :: h', O => d :: h'
  | d0 :: h', S l' => d0 :: heap_set l' d h'
  end.

(** [self.model.decoder]: the patched torch decoder of the export
    notebook, or the OpenVINO decoder. *)
Inductive DecoderModule : Type :=
| TorchDecoder (decoder : TextDecoder)
| OVDecoder (decoder : OpenVINOTextDecoder).

Record OpenVINOInference : Type := mkInference {
  model_decoder : DecoderModule;
  initial_token_length : nat;
  self_kv_cache : loc
}.

(** [__init__]: [self.kv_cache = {}] *)
Definition Inference_init (model : DecoderModule) (initial_token_length : nat)
    (h : Heap) : OpenVINOInference * Heap :=
  let (h', l) := heap_new [] h in
  (mkInference model initial_token_length l, h').

(** [cleanup_caching(self)]: [self.kv_cache = {}] *)
Definition cleanup_caching (self : OpenVINOInference) (h : Heap)
  : OpenVINOInference * Heap :=
  let (h', l) := heap_new [] h in
  (mkInference (model_decoder self) (initial_token_length self) l, h').

(** [tokens[:, -1:]] *)
Definition last_token (tokens : Tokens) : Tokens :=
  mkTokens (tok_batch tokens) (Nat.min 1 (tok_len tokens))
           (map (fun r => skipn (List.length r - 1) r) (tok_ids tokens)).

(** [self.model.decoder(tokens, audio_features, kv_cache=...)] on the
    dictionary at [l].  The torch decoder writes into that dictionary and
    returns it; the OpenVINO decoder returns a new one.  What a call that
    raises has already written is not kept. *)
Definition call_decoder (model : DecoderModule) (tokens : Tokens)
    (audio_features : option Tensor) (l : loc) (h : Heap)
  : result (option Tensor * loc * Heap) :=
  match heap_get l h with
  | None => Raise AttributeError
  | Some cache =>
      match model with
      | TorchDecoder decoder =>
          '(logits, kv) <- decoder_forward decoder tokens audio_features
                             (Some cache) ;;
          match kv with
          | Some cache' => Ok (Some logits, l, heap_set l cache' h)
          | None => Raise AttributeError
          end
      | OVDecoder decoder =>
          '(logits, cache') <- forward decoder tokens audio_features
                                 (Some cache) ;;
          let (h', l') := heap_new cache' h in
          Ok (logits, l', h')
      end
  end.

(** The tokens [logits] passes on: only the last one, except in the first
    forward pass. *)
Definition supplied_tokens (self : OpenVINOInference) (tokens : Tokens)
  : Tokens :=
  if initial_token_length self <? tok_len tokens
  then last_token tokens
  else tokens.

(** [logits(self, tokens, audio_features)] *)
Definition logits (self : OpenVINOInference) (tokens : Tokens)
    (audio_features : option Tensor) (h : Heap)
  : result (option Tensor * OpenVINOInference * Heap) :=
  let tokens := supplied_tokens self tokens in
  '(logits, l, h) <- call_decoder (model_decoder self) tokens audio_features
                       (self_kv_cache self) h ;;
  Ok (logits, mkInference (model_decoder self) (initial_token_length self) l, h).

(** The calls the decoding loop makes on one inference object: every call
    receives all the tokens decoded so far. *)
Fixpoint logits_run (self : OpenVINOInference) (audio_features : option Tensor)
    (calls : list Tokens) (h : Heap) : result (OpenVINOInference * Heap) :=
  match calls with
  | [] => Ok (self, h)
  | tokens :: calls' =>
      '(_, self, h) <- logits self tokens audio_features h ;;
      logits_run self audio_features calls' h
  end.

(** An index into an axis of size [n]; negative indices count from the
    end. *)
Definition py_index (n : nat) (i : Z) : result nat :=
  if (0 <=? i)%Z && (i <? Z.of_nat n)%Z then Ok (Z.to_nat i)
  else if (- Z.of_nat n <=? i)%Z && (i <? 0)%Z then Ok (Z.to_nat (i + Z.of_nat n))
  else Raise IndexError.

Fixpoint gather_rows (n : nat) (rows : list (list (list float)))
    (source_indices : list Z) : result (list (list (list float))) :=
  match source_indices with
  | [] => Ok []
  | i :: rest =>
      j <- py_index n i ;;
      rs <- gather_rows n rows rest ;;
      Ok (nth j rows [] :: rs)
  end.

(** [tensor[source_indices]]: the batch entries at the given indices. *)
Definition tensor_index (tensor : Tensor) (source_indices : list Z)
  : result Tensor :=
  rows <- gather_rows (t_batch tensor) (t_rows tensor) source_indices ;;
  Ok (mkTensor (List.length source_indices) (t_seq tensor) (t_feat tensor) rows).

(** The loop of [rearrange_kv_cache] over [self.kv_cache.items()], writing
    into the dictionary it iterates over. *)
Fixpoint rearrange_items (items : list (string * Tensor))
    (source_indices : list Z) (kv_cache : dict Tensor)
  : result (dict Tensor) :=
  match items with
  | [] => Ok kv_cache
  | (module, tensor) :: rest =>
      t <- tensor_index tensor source_indices ;;
      rearrange_items rest source_indices (dict_set module t kv_cache)
  end.

(** [rearrange_kv_cache(self, source_indices)] *)
Definition rearrange_kv_cache (self : OpenVINOInference)
    (source_indices : list Z) (h : Heap) : result Heap :=
  match heap_get (self_kv_cache self) h with
  | None => Raise AttributeError
  | Some cache =>
      cache' <- rearrange_items cache source_indices cache ;;
      Ok (heap_set (self_kv_cache self) cache' h)
  end.

(* ================================================================== *)
(** * The transcription notebook: [resample] *)
(* ================================================================== *)

Inductive dtype : Type := np_int16 | np_int32 | np_float32 | np_float64.

(** A one-dimensional numpy array. *)
Record ndarray : Type := mkArray {
  arr_dtype : dtype;
  arr_data : list float
}.

(** A Python [int] as a binary number with exponent 0. *)
Definition SF_of_Z (z : Z) : spec_float :=
  match z with
  | Z0 => S754_zero false
  | Zpos p => S754_finite false p 0
  | Zneg p => S754_finite true p 0
  end.

(** The binary64 number nearest to [z], a half going to the even
    neighbour, as numpy converts an [int]; beyond the range of binary64
    it is an infinity. *)
Definition float_of_Z (z : Z) : float :=
  SF2Prim (binary_normalize 53 1024 z 0 false).

(** [float(z)], as Python converts the [int] operand of a float
    operation: an [int] beyond the range of binary64 is refused. *)
Definition py_float (z : Z) : result float :=
  match binary_normalize 53 1024 z 0 false with
  | S754_infinity _ => Raise OverflowError
  | f => Ok (SF2Prim f)
  end.

(** [a / b] on two Python [int]s: the exact quotient, rounded once to the
    nearest binary64 number; a quotient beyond the range is refused. *)
Definition py_truediv (a b : Z) : result float :=
  if (b =? 0)%Z then Raise ZeroDivisionError
  else
    match SFdiv 53 1024 (SF_of_Z a) (SF_of_Z b) with
    | S754_infinity _ => Raise OverflowError
    | q => Ok (SF2Prim q)
    end.

(** [f * z] for a [float] and an [int]. *)
Definition py_mul_int (f : float) (z : Z) : result float :=
  z' <- py_float z ;;
  Ok (f * z')%float.

(** [int(f)]: truncation towards zero; an infinity and a NaN are refused. *)
Definition py_int (f : float) : result Z :=
  match Prim2SF f with
  | S754_zero _ => Ok 0%Z
  | S754_finite s m e =>
      let v := if (0 <=? e)%Z then (Z.pos m * 2 ^ e)%Z
               else (Z.pos m / 2 ^ (- e))%Z in
      Ok (if s then (- v)%Z else v)
  | S754_infinity _ => Raise OverflowError
  | S754_nan => Raise ValueError
  end.

(** Rounding to single precision, as [astype(np.float32)] does. *)
Definition round_float32 (f : float) : float :=
  match Prim2SF f with
  | S754_finite s m e => SF2Prim (binary_round 24 128 s m e)
  | _ => f
  end.

(** [a.astype(np.float32)] *)
Definition astype_float32 (a : ndarray) : ndarray :=
  mkArray np_float32 (map round_float32 (arr_data a)).

(** [np.zeros(shape=(n), dtype=np.float32)].  A negative size is refused,
    and so is one whose four-byte elements pass the largest size numpy
    addresses, [2^63 - 1] bytes; below that the memory is taken to be
    there. *)
Definition np_zeros_1d (n : Z) : result ndarray :=
  if (n <? 0)%Z || (2 ^ 61 <=? n)%Z then Raise ValueError
  else Ok (mkArray np_float32 (repeat 0%float (Z.to_nat n))).

(** [np.linspace(start, stop, num, dtype=np.float32)], computed as numpy
    does in double precision: [arange(0, num)] times the step, or times
    [delta] when there is no step to take; then [start] is added, the last
    of several points is set to [stop], and the array is converted. *)
Definition np_linspace (start stop : float) (num : nat) : ndarray :=
  let div := (Z.of_nat num - 1)%Z in
  let delta := (stop - start)%float in
  let y := map (fun i => float_of_Z (Z.of_nat i)) (seq 0 num) in
  let y :=
    if (0 <? div)%Z then
      let step := (delta / float_of_Z div)%float in
      if (step =? 0)%float
      then map (fun v => (v / float_of_Z div * delta)%float) y
      else map (fun v => (v * step)%float) y
    else map (fun v => (v * delta)%float) y in
  let y := map (fun v => (v + start)%float) y in
  let y := if 1 <? num then removelast y ++ [stop] else y in
  astype_float32 (mkArray np_float64 y).

(** The index numpy's search gives for [key] among sample points in
    non-decreasing order, counted from the second one: the number of them
    that [key] has reached. *)
Fixpoint search_index (key : float) (arr : list float) : nat :=
  match arr with
  | a :: arr' => if (a <=? key)%float then S (search_index key arr') else 0
  | [] => 0
  end.

(** One value of [np.interp] through the sample points [(xp, fp)], which
    are in non-decreasing order of [xp]: constant outside the sample
    points, the sample itself at a sample point, and linear between two of
    them. *)
Definition interp_at (x : float) (xp fp : list float) : float :=
  let lval := hd nan fp in
  let rval := last fp nan in
  match xp with
  | [xp_val] =>
      if (x <? xp_val)%float then lval
      else if (xp_val <? x)%float then rval else hd nan fp
  | _ =>
      if is_nan x then x
      else if (last xp nan <? x)%float then rval
      else if (x <? hd nan xp)%float then lval
      else
        let j := search_index x (tl xp) in
        if j =? List.length xp - 1 then nth j fp nan
        else if (nth j xp nan =? x)%float then nth j fp nan
        else
          let slope := ((nth (S j) fp nan - nth j fp nan)
                        / (nth (S j) xp nan - nth j xp nan))%float in
          let res := (slope * (x - nth j xp nan) + nth j fp nan)%float in
          if is_nan res then
            let res' := (slope * (x - nth (S j) xp nan)
                         + nth (S j) fp nan)%float in
            if is_nan res' && (nth j fp nan =? nth (S j) fp nan)%float
            then nth j fp nan else res'
          else res
  end.

(** [np.interp(x, xp, fp)]: one value per element of [x]; an empty [xp]
    and sample arrays of different lengths are refused. *)
Definition np_interp (x xp fp : ndarray) : result ndarray :=
  if (List.length (arr_data xp) =? 0)
     || negb (List.length (arr_data xp) =? List.length (arr_data fp))
  then Raise ValueError
  else Ok (mkArray np_float64
             (map (fun x' => interp_at x' (arr_data xp) (arr_data fp))
                  (arr_data x))).

(** [int(duration * dst_sample_rate)], the length [resample] asks for. *)
Definition resampled_length (audio : ndarray)
    (src_sample_rate dst_sample_rate : Z) : result Z :=
  duration <- py_truediv (Z.of_nat (List.length (arr_data audio)))
                src_sample_rate ;;
  seconds <- py_mul_int duration dst_sample_rate ;;
  py_int seconds.

(** [resample(audio, src_sample_rate, dst_sample_rate)] *)
Definition resample (audio : ndarray) (src_sample_rate dst_sample_rate : Z)
  : result ndarray :=
  if (src_sample_rate =? dst_sample_rate)%Z then Ok audio
  else
    duration <- py_truediv (Z.of_nat (List.length (arr_data audio)))
                  src_sample_rate ;;
    samples <- py_mul_int duration dst_sample_rate ;;
    n <- py_int samples ;;
    resampled_data <- np_zeros_1d n ;;
    let x_old := np_linspace 0 duration (List.length (arr_data audio)) in
    let x_new := np_linspace 0 duration
                   (List.length (arr_data resampled_data)) in
    resampled_audio <- np_interp x_new x_old audio ;;
    Ok (astype_float32 resampled_audio).

(* ================================================================== *)
(** * Slot identifiers *)
(* ================================================================== *)

(** The keys the patched decoder writes: [k_<i>a], [v_<i>a] for the
    self-attention of block [i], [k_<i>c], [v_<i>c] for its
    cross-attention. *)
Inductive slot_name : string -> Prop :=
| slot_self_k (i : nat) : slot_name (k_name (self_idx i))
| slot_self_v (i : nat) : slot_name (v_name (self_idx i))
| slot_cross_k (i : nat) : slot_name (k_name (cross_idx i))
| slot_cross_v (i : nat) : slot_name (v_name (cross_idx i)).

(** [c in s] for a character. *)
Fixpoint str_mem (c : ascii) (s : string) : bool :=
  match s with
  | EmptyString => false
  | String c' s' => Ascii.eqb c c' || str_mem c s'
  end.

(** An output of the exported graph, which has the one name the export
    gave it. *)
Definition named_port (name : string) : OutputPort := mkPort name [name].

(** The outputs of a run of the exported graph: the logits, then one
    output [out_<slot>] per slot. *)
Definition export_outputs (logits : Tensor) (slots : dict Tensor)
  : list (OutputPort * Tensor) :=
  (named_port "logits", logits)
    :: map (fun kv => (named_port (String.append "out_" (fst kv)), snd kv)) slots.

(* ================================================================== *)
(** * Shapes of the Whisper layers, and what a run keeps true *)
(* ================================================================== *)

Definition has_shape (t : Tensor) (b s d : nat) : Prop :=
  t_batch t = b /\ t_seq t = s /\ t_feat t = d.

(** Every layer of the text decoder maps [(batch, positions, n_state)] to
    the same shape. *)
Definition keeps_shape (f : Tensor -> Tensor) : Prop :=
  forall t, shape (f t) = shape t.

Definition attention_dims (am : MultiHeadAttention) : Prop :=
  keeps_shape (query am) /\ keeps_shape (key am) /\ keeps_shape (value am)
  /\ keeps_shape (out am)
  /\ forall q k v m, shape (fst (qkv_attention am q k v m)) = shape q.

Definition block_dims (b : ResidualAttentionBlock) : Prop :=
  attention_dims (attn b) /\ keeps_shape (attn_ln b)
  /\ (forall ca, cross_attn b = Some ca -> attention_dims ca)
  /\ keeps_shape (cross_attn_ln b)
  /\ keeps_shape (mlp b) /\ keeps_shape (mlp_ln b).

Definition whisper_dims (decoder : TextDecoder) (n_state : nat) : Prop :=
  (forall x, shape (token_embedding decoder x) = [tok_batch x; tok_len x; n_state])
  /\ Forall block_dims (blocks decoder).

(** The keys block [idx] writes. *)
Definition block_slots (idx : nat) : list string :=
  [k_name (self_idx idx); v_name (self_idx idx);
   k_name (cross_idx idx); v_name (cross_idx idx)].

(** The slot [name] holds [s] positions of shape [(b, _, d)]; a slot that
    is not there yet holds none. *)
Definition slot_has (c : dict Tensor) (name : string) (b s d : nat) : Prop :=
  match dict_get name c with
  | Some t => has_shape t b s d
  | None => s = 0
  end.

(** The slot [name], when present, agrees with [kx] on batch and feature
    sizes. *)
Definition slot_fits (c : dict Tensor) (name : string) (kx : Tensor) : Prop :=
  forall t, dict_get name c = Some t ->
            t_batch t = t_batch kx /\ t_feat t = t_feat kx.

(** The slot [name] is present, fits [kx], and is [kx] itself when [kx] is
    longer than the positional table. *)
Definition slot_projects (pes : nat) (c : dict Tensor) (name : string)
    (kx : Tensor) : Prop :=
  exists t, dict_get name c = Some t
            /\ t_batch t = t_batch kx /\ t_feat t = t_feat kx
            /\ (pes < t_seq kx -> t = kx).

(** Block [idx] can take a step: its self-attention slots hold [s]
    positions, its cross-attention slots fit the projections of [xa]. *)
Definition block_ready (b : ResidualAttentionBlock) (idx : nat) (xa : Tensor)
    (c : dict Tensor) (bt s d : nat) : Prop :=
  slot_has c (k_name (self_idx idx)) bt s d
  /\ slot_has c (v_name (self_idx idx)) bt s d
  /\ forall ca, cross_attn b = Some ca ->
       slot_fits c (k_name (cross_idx idx)) (key ca xa)
       /\ slot_fits c (v_name (cross_idx idx)) (value ca xa).

(** Block [idx] has taken a step: its self-attention slots are present
    with [s] positions, its cross-attention slots hold the projections of
    [xa]. *)
Definition block_done (pes : nat) (b : ResidualAttentionBlock) (idx : nat)
    (xa : Tensor) (c : dict Tensor) (bt s d : nat) : Prop :=
  (exists tk tv,
      dict_get (k_name (self_idx idx)) c = Some tk
      /\ dict_get (v_name (self_idx idx)) c = Some tv
      /\ has_shape tk bt s d /\ has_shape tv bt s d)
  /\ forall ca, cross_attn b = Some ca ->
       slot_projects pes c (k_name (cross_idx idx)) (key ca xa)
       /\ slot_projects pes c (v_name (cross_idx idx)) (value ca xa).

(** The first key of a dictionary. *)
Definition head_key (V : Type) (c : dict V) : option string :=
  match c with
  | [] => None
  | (k, _) :: _ => Some k
  end.

(** What holds of the cache between the steps of a run that has supplied
    [s] positions: the first key, if any, is the self-attention key of
    block 0, and every block is ready. *)
Definition run_inv (decoder : TextDecoder) (xa : Tensor) (c : dict Tensor)
    (bt s d : nat) : Prop :=
  (c = [] \/ (blocks decoder <> []
              /\ head_key c = Some (k_name (self_idx 0))))
  /\ forall j b, nth_error (blocks decoder) j = Some b ->
                 block_ready b j xa c bt s d.

(** What holds of the cache after a step: every block is done. *)
Definition run_done (decoder : TextDecoder) (xa : Tensor) (c : dict Tensor)
    (bt s d : nat) : Prop :=
  (c = [] \/ (blocks decoder <> []
              /\ head_key c = Some (k_name (self_idx 0))))
  /\ forall j b, nth_error (blocks decoder) j = Some b ->
                 block_done (positional_embeddings_size decoder) b j xa c bt s d.

(** The positions supplied by the steps of a run. *)
Definition positions (steps : list Tokens) : nat :=
  list_sum (map tok_len steps).

(* ================================================================== *)
(** * Sample data *)
(* ================================================================== *)

(** Small tensors on which the statements below are evaluated. *)
Definition ex_old : Tensor := mkTensor 1 2 1 [[[1%float]; [2%float]]].
Definition ex_out : Tensor := mkTensor 1 1 1 [[[3%float]]].
Definition ex_long : Tensor :=
  mkTensor 1 4 1 [[[4%float]; [5%float]; [6%float]; [7%float]]].

Definition ex_tokens : Tokens := mkTokens 1 2 [[50258%Z; 50259%Z]].
Definition ex_features : Tensor :=
  mkTensor 1 3 1 [[[8%float]; [9%float]; [10%float]]].

(** A cache with the four slots of a one-block decoder. *)
Definition ex_cache : dict Tensor :=
  [("k_0a"%string, ex_old); ("v_0a"%string, ex_old);
   ("k_0c"%string, ex_features); ("v_0c"%string, ex_features)].

(** An OpenVINO decoder with the inputs the exported graph of a one-block
    decoder declares: the cross-attention inputs are not among them. *)
Definition ex_ov_decoder : OpenVINOTextDecoder :=
  mkOVDecoder
    ["tokens"%string; "audio_features"%string; "in_k_0a"%string; "in_v_0a"%string]
    (fun _ => Ok (export_outputs ex_out ex_cache)).

(** The tensor whose batch entry [i] is the entry of [tensor] at index
    [source_indices[i]], for indices that are not negative. *)
Definition select_batch (tensor : Tensor) (source_indices : list Z) : Tensor :=
  mkTensor (List.length source_indices) (t_seq tensor) (t_feat tensor)
           (map (fun i => nth (Z.to_nat i) (t_rows tensor) []) source_indices).

(** A batch of five one-position sequences, and the heap of an inference
    object that holds it in both slots of a block. *)
Definition ex_batch5 : Tensor :=
  mkTensor 5 1 1 [[[10%float]]; [[11%float]]; [[12%float]]; [[13%float]]; [[14%float]]].
Definition ex_cache5 : dict Tensor :=
  [("k_0a"%string, ex_batch5); ("v_0a"%string, ex_batch5)].
Definition ex_inference : OpenVINOInference :=
  mkInference (OVDecoder ex_ov_decoder) 2 0.
Definition ex_heap : Heap := [ex_cache5].

(** Four samples of an audio signal. *)
Definition ex_audio : ndarray :=
  mkArray np_float64 [1%float; 2%float; 3%float; 4%float].

(** A decoder of one block whose layers are identities, with a positional
    table of two rows, and a run of two steps of one token each. *)
Definition ex_attention : MultiHeadAttention :=
  mkAttention (fun t => t) (fun t => t) (fun t => t) (fun t => t)
              (fun q _ _ _ => (q, q)).
Definition ex_block : ResidualAttentionBlock :=
  mkBlock ex_attention (fun t => t) (Some ex_attention) (fun t => t)
          (fun t => t) (fun t => t).
Definition ex_embedding (x : Tokens) : Tensor :=
  mkTensor (tok_batch x) (tok_len x) 1
           (map (map (fun z => [float_of_Z z])) (tok_ids x)).
Definition ex_decoder : TextDecoder :=
  mkDecoder ex_embedding [[0%float]; [0%float]] [ex_block] (fun t => t) []
            (fun t => t).
Definition ex_step1 : Tokens := mkTokens 1 1 [[50258%Z]].
Definition ex_step2 : Tokens := mkTokens 1 1 [[50259%Z]].

(** An inference object on that decoder, whose decoding starts from one
    token, and the two tokens the decoding loop passes on its second call. *)
Definition ex_torch_inference : OpenVINOInference :=
  mkInference (TorchDecoder ex_decoder) 1 0.
Definition ex_prefix2 : Tokens := mkTokens 1 2 [[50258%Z; 50259%Z]].
Definition ex_features' : Tensor :=
  mkTensor 1 3 1 [[[18%float]; [19%float]; [20%float]]].
Definition ex_short_features : Tensor := mkTensor 1 1 1 [[[8%float]]].

(** A cache that holds slots of a second block only, with a batch of
    five. *)
Definition ex_stale_cache : dict Tensor :=
  [("k_1a"%string, ex_batch5); ("v_1a"%string, ex_batch5)].

(** One token for each of two sequences. *)
Definition ex_pair : Tokens := mkTokens 2 1 [[50259%Z]; [50259%Z]].


(* ================================================================== *)
(** * The export cell: keys, names and dynamic axes *)
(* ================================================================== *)

(** The keys of a dictionary after an assignment to [k]. *)
Definition add_key (ks : list string) (k : string) : list string :=
  if str_in k ks then ks else ks ++ [k].

(** The keys block [idx] stores into, in the order of its stores. *)
Definition block_keys (idx : nat) (b : ResidualAttentionBlock) : list string :=
  [k_name (self_idx idx); v_name (self_idx idx)]
    ++ match cross_attn b with
       | Some _ => [k_name (cross_idx idx); v_name (cross_idx idx)]
       | None => []
       end.

Fixpoint decoder_keys (bs : list ResidualAttentionBlock) (idx : nat)
  : list string :=
  match bs with
  | [] => []
  | b :: bs' => block_keys idx b ++ decoder_keys bs' (S idx)
  end.

(** [d.update(other)] *)
Definition dict_update (V : Type) (d other : dict V) : dict V :=
  fold_left (fun d kv => dict_set (fst kv) (snd kv) d) other d.

(** [{name: v for name in names}] *)
Definition dict_from_names (V : Type) (v : V) (names : list string) : dict V :=
  fold_left (fun d name => dict_set name v d) names [].

(** The axes declared dynamic for one tensor: [{0: "beam_size", ...}]. *)
Definition axes : Type := list (nat * string).

(** [dynamic_axes], as the export cell builds it from the keys of the
    cache. *)
Definition dynamic_axes (kv_cache : dict Tensor) : dict axes :=
  let outputs := map (String.append "out_") (dict_keys kv_cache) in
  let inputs := map (String.append "in_") (dict_keys kv_cache) in
  let dynamic_axes :=
    [("tokens"%string, [(0, "beam_size"%string); (1, "seq_len"%string)]);
     ("audio_features"%string, [(0, "beam_size"%string)]);
     ("logits"%string, [(0, "beam_size"%string); (1, "seq_len"%string)])] in
  let dynamic_outs :=
    dict_from_names [(0, "beam_size"%string); (1, "prev_seq_len"%string)]
      outputs in
  let dynamic_inp :=
    dict_from_names [(0, "beam_size"%string); (1, "prev_seq_len"%string)]
      inputs in
  dict_update (dict_update dynamic_axes dynamic_outs) dynamic_inp.

(** [s.endswith(suffix)]: [suffix] is one of the tails of [s]. *)
Fixpoint str_endswith (suffix s : string) : bool :=
  String.eqb suffix s
  || match s with
     | EmptyString => false
     | String _ s' => str_endswith suffix s'
     end.

(** The body of the loop that extends [input_shapes]: only the keys that
    end in [a] receive a shape. *)
Definition add_input_shape (input_shapes : string) (kv : string * Tensor)
  : string :=
  if str_endswith "a" (fst kv)
  then String.append input_shapes
         (String.append ",in_" (String.append (fst kv) "[1..11 0..600 768]"))
  else input_shapes.

(** [input_shapes], the bounds handed to [mo.convert_model]. *)
Definition mo_input_shapes (kv_cache : dict Tensor) : string :=
  fold_left add_input_shape kv_cache
    "tokens[1..11 1..600],audio_features[1..11 1500 768]"%string.

(* ================================================================== *)
(** * Indices that count from the end *)
(* ================================================================== *)

(** The tensor whose batch entry [i] is the entry of [tensor] at index
    [source_indices[i]], a negative index [-j] standing for the entry [j]
    places before the end. *)
Definition select_wrapped (tensor : Tensor) (source_indices : list Z) : Tensor :=
  mkTensor (List.length source_indices) (t_seq tensor) (t_feat tensor)
    (map (fun i => nth (Z.to_nat (i mod Z.of_nat (t_batch tensor)))
                       (t_rows tensor) [])
         source_indices).

(** [[source[j] for j in indices]], for indices that are not negative. *)
Definition compose_indices (source indices : list Z) : list Z :=
  map (fun j => nth (Z.to_nat j) source 0%Z) indices.

(** [list(range(n))] *)
Definition py_range_nat (n : nat) : list Z := map Z.of_nat (seq 0 n).

(* ================================================================== *)
(** * The transcription notebook: video segments and subtitles *)
(* ================================================================== *)

(** [m / 2^k] for [k > 0], rounded to the nearest integer and to the even
    one of two that are equally near. *)
Definition round_half_even (m k : Z) : Z :=
  let q := (m / 2 ^ k)%Z in
  let r := (m mod 2 ^ k)%Z in
  if (2 * r <? 2 ^ k)%Z then q
  else if (2 ^ k <? 2 * r)%Z then (q + 1)%Z
  else if Z.even q then q else (q + 1)%Z.

(** [round(f)] *)
Definition py_round (f : float) : result Z :=
  match Prim2SF f with
  | S754_zero _ => Ok 0%Z
  | S754_finite s m e =>
      let v := if (0 <=? e)%Z then (Z.pos m * 2 ^ e)%Z
               else round_half_even (Z.pos m) (- e) in
      Ok (if s then (- v)%Z else v)
  | S754_infinity _ => Raise OverflowError
  | S754_nan => Raise ValueError
  end.

(** [f'{z}'] for an [int]. *)
Definition str_of_Z (z : Z) : string := NilZero.string_of_int (Z.to_int z).

Fixpoint zeros (n : nat) : string :=
  match n with
  | O => EmptyString
  | S n' => String "0" (zeros n')
  end.

(** [f'{z:0{width}d}']: the sign first, then zeros up to the width, then
    the digits. *)
Definition fmt_0d (width : nat) (z : Z) : string :=
  let sign := if (z <? 0)%Z then "-"%string else EmptyString in
  let digits := str_of_Z (Z.abs z) in
  String.append sign
    (String.append
       (zeros (width - String.length sign - String.length digits)) digits).

(** [format_timestamp(seconds)] *)
Definition format_timestamp (seconds : float) : result string :=
  if negb (0 <=? seconds)%float then Raise AssertionError
  else
    milliseconds <- py_round (seconds * 1000)%float ;;
    let hours := (milliseconds / 3600000)%Z in
    let milliseconds := (milliseconds - hours * 3600000)%Z in
    let minutes := (milliseconds / 60000)%Z in
    let milliseconds := (milliseconds - minutes * 60000)%Z in
    let seconds := (milliseconds / 1000)%Z in
    let milliseconds := (milliseconds - seconds * 1000)%Z in
    Ok
      (String.append
         (if (0 <? hours)%Z then String.append (str_of_Z hours) ":"
          else "00:"%string)
         (String.append (fmt_0d 2 minutes)
            (String.append ":"
               (String.append (fmt_0d 2 seconds)
                  (String.append "," (fmt_0d 3 milliseconds)))))).

(** A segment of a transcription: [segment["id"]], [segment["start"]],
    [segment["end"]] and [segment["text"]]. *)
Record Segment : Type := mkSegment {
  seg_id : Z;
  seg_start : float;
  seg_end : float;
  seg_text : string
}.

(** The line feed. *)
Definition nl : string := String (ascii_of_nat 10) EmptyString.

(** The loop of [prepare_srt] over the segments, on the list
    [segment_lines] it appends to. *)
Fixpoint prepare_srt_loop (segments : list Segment)
    (segment_lines : list string) : result (list string) :=
  match segments with
  | [] => Ok segment_lines
  | segment :: rest =>
      let segment_lines :=
        segment_lines ++ [String.append (str_of_Z (seg_id segment + 1)) nl] in
      time_start <- format_timestamp (seg_start segment) ;;
      time_end <- format_timestamp (seg_end segment) ;;
      let time_str :=
        String.append time_start
          (String.append " --> " (String.append time_end nl)) in
      let segment_lines := segment_lines ++ [time_str] in
      let segment_lines :=
        segment_lines
          ++ [String.append (seg_text segment) (String.append nl nl)] in
      prepare_srt_loop rest segment_lines
  end.

(** [prepare_srt(transcription)], on [transcription["segments"]]. *)
Definition prepare_srt (segments : list Segment) : result (list string) :=
  prepare_srt_loop segments [].

(** A Python number: an [int] or a [float]. *)
Inductive number : Type :=
| PyInt (z : Z)
| PyFloat (f : float).

(** [f < z] for a [float] and an [int]: the values are compared exactly. *)
Definition float_lt_int (f : float) (z : Z) : bool :=
  match Prim2SF f with
  | S754_zero _ => (0 <? z)%Z
  | S754_finite s m e =>
      let v := if s then Z.neg m else Z.pos m in
      if (0 <=? e)%Z then (v * 2 ^ e <? z)%Z
      else (v <? z * 2 ^ (- e))%Z
  | S754_infinity s => s
  | S754_nan => false
  end.

(** [min(a, b)] for an [int] and a [float]: the first argument unless the
    second is smaller. *)
Definition py_min (a : Z) (b : float) : number :=
  if float_lt_int b a then PyFloat b else PyInt a.

(** [range(0, stop, step)] *)
Definition py_range (stop step : Z) : result (list Z) :=
  if (step =? 0)%Z then Raise ValueError
  else
    let n := if (0 <? step)%Z then ((stop + step - 1) / step)%Z
             else ((- stop - step - 1) / - step)%Z in
    Ok (map (fun k => (Z.of_nat k * step)%Z) (seq 0 (Z.to_nat n))).

(** The pairs [(start_time, end_time)] of the loop of [split_video], in
    the order in which the segments are cut; the files themselves are
    written by moviepy. *)
Definition split_video_times (total_duration : float) (duration : Z)
  : result (list (Z * number)) :=
  stop <- py_int total_duration ;;
  starts <- py_range stop duration ;;
  Ok (map (fun i => let start_time := i in
                    let end_time := py_min (i + duration) total_duration in
                    (start_time, end_time))
          starts).

(* ================================================================== *)
(** * Dictionaries: lookups after assignments *)
(* ================================================================== *)

Section DictFacts.
Variable V : Type.
Implicit Types (d : dict V) (k : string) (v : V).

Lemma dict_get_set_eq k v d : dict_get k (dict_set k v d) = Some v.
Proof.
  induction d as [|[k' v'] d IH]; simpl.
  - now rewrite String.eqb_refl.
  - destruct (String.eqb k k') eqn:E; simpl.
    + now rewrite String.eqb_refl.
    + now rewrite E.
Qed.

Lemma dict_get_set_neq k k' v d :
  k <> k' -> dict_get k' (dict_set k v d) = dict_get k' d.
Proof.
  intros Hne. induction d as [|[k0 v0] d IH]; simpl.
  - destruct (String.eqb k' k) eqn:E; [|reflexivity].
    apply String.eqb_eq in E. congruence.
  - destruct (String.eqb k k0) eqn:E; simpl.
    + apply String.eqb_eq in E. subst k0.
      destruct (String.eqb k' k) eqn:E'; [|reflexivity].
      apply String.eqb_eq in E'. congruence.
    + now rewrite IH.
Qed.

Lemma dict_mem_set k k' v d :
  dict_mem k' (dict_set k v d) = String.eqb k k' || dict_mem k' d.
Proof.
  unfold dict_mem. destruct (String.eqb k k') eqn:E; simpl.
  - apply String.eqb_eq in E. subst. now rewrite dict_get_set_eq.
  - apply String.eqb_neq in E. now rewrite dict_get_set_neq.
Qed.

Lemma dict_keys_set_old k v d :
  dict_mem k d = true -> dict_keys (dict_set k v d) = dict_keys d.
Proof.
  unfold dict_mem, dict_keys.
  induction d as [|[k' v'] d IH]; simpl; [discriminate|].
  destruct (String.eqb k k') eqn:E; simpl; intros H.
  - apply String.eqb_eq in E. now subst.
  - now rewrite IH.
Qed.

Lemma dict_keys_set_new k v d :
  dict_mem k d = false -> dict_keys (dict_set k v d) = dict_keys d ++ [k].
Proof.
  unfold dict_mem, dict_keys.
  induction d as [|[k' v'] d IH]; simpl; [reflexivity|].
  destruct (String.eqb k k') eqn:E; simpl; intros H; [discriminate|].
  now rewrite IH.
Qed.

Lemma dict_mem_keys k d : dict_mem k d = true <-> In k (dict_keys d).
Proof.
  unfold dict_mem, dict_keys.
  induction d as [|[k' v'] d IH]; simpl.
  - split; [discriminate | tauto].
  - destruct (String.eqb k k') eqn:E.
    + apply String.eqb_eq in E. subst. split; auto.
    + apply String.eqb_neq in E. rewrite IH. split; [tauto|].
      intros [H|H]; [congruence | exact H].
Qed.

Lemma dict_get_In k v d : dict_get k d = Some v -> In (k, v) d.
Proof.
  induction d as [|[k' v'] d IH]; simpl; [discriminate|].
  destruct (String.eqb k k') eqn:E.
  - apply String.eqb_eq in E. intros [= ->]. subst. now left.
  - intros H. right. now apply IH.
Qed.

Lemma dict_In_get k v d :
  NoDup (dict_keys d) -> In (k, v) d -> dict_get k d = Some v.
Proof.
  unfold dict_keys.
  induction d as [|[k' v'] d IH]; simpl; [tauto|].
  intros Hnd [H|H].
  - injection H as -> ->. now rewrite String.eqb_refl.
  - inversion Hnd as [|? ? Hnotin Hnd']; subst.
    destruct (String.eqb k k') eqn:E.
    + apply String.eqb_eq in E. subst k'. exfalso. apply Hnotin.
      change k with (fst (k, v)). now apply in_map.
    + now apply IH.
Qed.

End DictFacts.

(* ================================================================== *)
(** * Rows and shapes stay in agreement *)
(* ================================================================== *)

Lemma np_zeros_wf (b s d : nat) : wf_tensor (np_zeros b s d).
Proof.
  unfold wf_tensor, np_zeros. cbn [t_rows t_batch t_seq t_feat].
  split; [apply repeat_length|].
  apply Forall_forall. intros r Hr. apply repeat_spec in Hr. subst r.
  split; [apply repeat_length|].
  apply Forall_forall. intros v Hv. apply repeat_spec in Hv. subst v.
  apply repeat_length.
Qed.

Lemma cat_rows_wf (sa sb d : nat) (a : list (list (list float))) :
  forall b : list (list (list float)),
  List.length a = List.length b ->
  Forall (fun r => List.length r = sa /\ Forall (fun v => List.length v = d) r) a ->
  Forall (fun r => List.length r = sb /\ Forall (fun v => List.length v = d) r) b ->
  List.length (cat_rows a b) = List.length a
  /\ Forall (fun r => List.length r = sa + sb
                      /\ Forall (fun v => List.length v = d) r) (cat_rows a b).
Proof.
  induction a as [|ra a IH]; intros [|rb b] Hlen Ha Hb; try discriminate.
  - split; [reflexivity | constructor].
  - inversion Ha as [|? ? [Hra Hva] Ha']; subst.
    inversion Hb as [|? ? [Hrb Hvb] Hb']; subst.
    injection Hlen as Hlen. destruct (IH b Hlen Ha' Hb') as [IH1 IH2].
    cbn [cat_rows List.length]. split; [now rewrite IH1|].
    constructor; [|exact IH2]. split.
    + now rewrite length_app.
    + apply Forall_app. now split.
Qed.

Lemma torch_cat_dim1_wf (a b t : Tensor) :
  wf_tensor a -> wf_tensor b -> torch_cat_dim1 a b = Ok t -> wf_tensor t.
Proof.
  intros [Ha1 Ha2] [Hb1 Hb2]. unfold torch_cat_dim1.
  destruct (t_batch a =? t_batch b) eqn:Eb; [|discriminate].
  destruct (t_feat a =? t_feat b) eqn:Ef; [|discriminate].
  apply Nat.eqb_eq in Eb, Ef. cbn [andb]. intros [= <-].
  rewrite <- Ef in Hb2.
  destruct (@cat_rows_wf (t_seq a) (t_seq b) (t_feat a) (t_rows a) (t_rows b))
    as [H1 H2]; [congruence | assumption..|].
  unfold wf_tensor. cbn [t_rows t_batch t_seq t_feat]. split; [congruence|].
  exact H2.
Qed.

Lemma select_batch_wf (t : Tensor) (source_indices : list Z) :
  wf_tensor t ->
  Forall (fun i => (0 <= i < Z.of_nat (t_batch t))%Z) source_indices ->
  wf_tensor (select_batch t source_indices).
Proof.
  intros [H1 H2] Hvalid. unfold wf_tensor, select_batch.
  cbn [t_rows t_batch t_seq t_feat]. split; [apply length_map|].
  apply Forall_forall. intros r Hr. apply in_map_iff in Hr.
  destruct Hr as (i & <- & Hi).
  rewrite Forall_forall in Hvalid, H2. apply H2. apply nth_In.
  specialize (Hvalid i Hi). lia.
Qed.

(* ================================================================== *)
(** * [save_to_cache] *)
(* ================================================================== *)

Lemma torch_cat_dim1_ok (a b : Tensor) :
  t_batch a = t_batch b -> t_feat a = t_feat b ->
  torch_cat_dim1 a b =
    Ok (mkTensor (t_batch a) (t_seq a + t_seq b) (t_feat a)
                 (cat_rows (t_rows a) (t_rows b))).
Proof.
  intros Hb Hf. unfold torch_cat_dim1.
  now rewrite Hb, Hf, !Nat.eqb_refl.
Qed.

Lemma torch_cat_dim1_mismatch (a b : Tensor) :
  t_batch a <> t_batch b \/ t_feat a <> t_feat b ->
  torch_cat_dim1 a b = Raise RuntimeError.
Proof.
  intros H. unfold torch_cat_dim1.
  destruct (t_batch a =? t_batch b) eqn:Eb; simpl; [|reflexivity].
  destruct (t_feat a =? t_feat b) eqn:Ef; simpl; [|reflexivity].
  apply Nat.eqb_eq in Eb, Ef. tauto.
Qed.

(** Stored as it is: the slot is new, or the output is longer than the
    positional table. *)
Lemma save_to_cache_as_is (pes : nat) (cache : dict Tensor) (module : string)
    (output : Tensor) :
  dict_mem module cache = false \/ pes < t_seq output ->
  save_to_cache pes cache module output
  = Ok (dict_set module output cache, output).
Proof.
  intros H. unfold save_to_cache.
  destruct H as [H|H].
  - now rewrite H.
  - apply Nat.ltb_lt in H. rewrite H. now rewrite orb_true_r.
Qed.

(** Appended: the slot exists and the output is not longer than the
    positional table. *)
Lemma save_to_cache_append (pes : nat) (cache : dict Tensor) (module : string)
    (old output : Tensor) :
  dict_get module cache = Some old -> t_seq output <= pes ->
  save_to_cache pes cache module output
  = (new <- torch_cat_dim1 old output ;;
     Ok (dict_set module new cache, new)).
Proof.
  intros Hget Hle. unfold save_to_cache, dict_mem, dict_getitem.
  rewrite Hget. simpl.
  assert (E : (pes <? t_seq output) = false) by (apply Nat.ltb_ge; lia).
  now rewrite E.
Qed.

(** C3, as the code has it.  A value is stored verbatim when its slot is
    not in the cache yet, or when the value itself has more positions than
    the context bound; otherwise it is appended to the slot along the
    position axis, the slot growing by the positions of the value, and
    torch raises when batch or feature sizes differ. *)
Theorem save_to_cache_policy (pes : nat) (cache : dict Tensor)
    (module : string) (output : Tensor) :
  (dict_mem module cache = false \/ pes < t_seq output ->
   save_to_cache pes cache module output
   = Ok (dict_set module output cache, output))
  /\
  (forall old : Tensor,
     dict_get module cache = Some old -> t_seq output <= pes ->
     (t_batch old = t_batch output -> t_feat old = t_feat output ->
      let new := mkTensor (t_batch old) (t_seq old + t_seq output) (t_feat old)
                          (cat_rows (t_rows old) (t_rows output)) in
      save_to_cache pes cache module output
      = Ok (dict_set module new cache, new))
     /\
     (t_batch old <> t_batch output \/ t_feat old <> t_feat output ->
      save_to_cache pes cache module output = Raise RuntimeError)).
Proof.
  split.
  - apply save_to_cache_as_is.
  - intros old Hget Hle. split.
    + intros Hb Hf. simpl.
      rewrite (save_to_cache_append _ _ _ Hget Hle).
      now rewrite torch_cat_dim1_ok.
    + intros Hne.
      rewrite (save_to_cache_append _ _ _ Hget Hle).
      now rewrite torch_cat_dim1_mismatch.
Qed.

Lemma save_to_cache_policy_witness :
  (save_to_cache 2 [] "k_0a" ex_out = Ok ([("k_0a"%string, ex_out)], ex_out))
  /\
  (save_to_cache 2 [("k_0a"%string, ex_old)] "k_0a" ex_out
   = Ok ([("k_0a"%string,
           mkTensor 1 3 1 [[[1%float]; [2%float]; [3%float]]])],
         mkTensor 1 3 1 [[[1%float]; [2%float]; [3%float]]])).
Proof.
  split.
  - apply (proj1 (save_to_cache_policy 2 [] "k_0a" ex_out)).
    left. reflexivity.
  - apply (proj1 (proj2 (save_to_cache_policy 2 [("k_0a"%string, ex_old)]
                           "k_0a" ex_out) ex_old eq_refl
                   ltac:(simpl; lia)));
      reflexivity.
Defined.

(** C3 as the specification words it fails twice.  With a context bound of
    2, a slot that already holds 2 positions is not replaced by a one-position
    value but grows to 3 positions; and a slot that holds 2 positions is
    replaced, not extended, by a value of 3 positions. *)
Lemma save_to_cache_not_by_slot_length :
  t_seq ex_old = 2
  /\ (exists new,
        save_to_cache 2 [("k_0a"%string, ex_old)] "k_0a" ex_out
        = Ok ([("k_0a"%string, new)], new)
        /\ t_seq new = 3 /\ new <> ex_out)
  /\ t_seq ex_old <> 3
  /\ save_to_cache 3 [("k_0a"%string, ex_old)] "k_0a" ex_long
     = Ok ([("k_0a"%string, ex_long)], ex_long).
Proof.
  split; [reflexivity|]. split.
  - eexists. split; [reflexivity|]. split; [reflexivity|].
    unfold ex_out. intros H. discriminate H.
  - split; [simpl; lia | reflexivity].
Qed.

(* ================================================================== *)
(** * Names on the wire *)
(* ================================================================== *)

Lemma str_mem_append (c : ascii) (s1 s2 : string) :
  str_mem c (String.append s1 s2) = str_mem c s1 || str_mem c s2.
Proof.
  induction s1 as [|c1 s1 IH]; simpl; [reflexivity|].
  now rewrite IH, orb_assoc.
Qed.

Lemma str_of_uint_no_o (d : Decimal.uint) :
  str_mem "o" (NilEmpty.string_of_uint d) = false.
Proof. induction d; simpl; auto. Qed.

Lemma slot_name_no_o (s : string) : slot_name s -> str_mem "o" s = false.
Proof.
  intros []; unfold k_name, v_name, self_idx, cross_idx, str_of_nat;
    rewrite !str_mem_append, str_of_uint_no_o; reflexivity.
Qed.

(** A string without the letter [o] holds no occurrence of ["out_"]. *)
Lemma replace_out_no_o (s : string) :
  str_mem "o" s = false -> replace_from "out_" "" 0 s = s.
Proof.
  induction s as [|c s IH]; [reflexivity|].
  cbn [str_mem]. intros H. apply orb_false_iff in H as [Hc Hs].
  apply Ascii.eqb_neq in Hc.
  cbn [replace_from].
  change (String.prefix "out_" (String c s))
    with (if ascii_dec "o" c then String.prefix "ut_" s else false).
  destruct (ascii_dec "o" c) as [E|_]; [contradiction|].
  now rewrite IH.
Qed.

Lemma str_replace_out (s : string) :
  str_mem "o" s = false ->
  str_replace "out_" "" (String.append "out_" s) = s.
Proof.
  intros H. unfold str_replace. simpl.
  assert (E : String.prefix "" s = true) by now destruct s.
  rewrite E. now apply replace_out_no_o.
Qed.

Lemma append_in_inj (s1 s2 : string) :
  String.append "in_" s1 = String.append "in_" s2 -> s1 = s2.
Proof. simpl. now intros [= ->]. Qed.

Lemma str_in_In (name : string) (names : list string) :
  str_in name names = true <-> In name names.
Proof.
  unfold str_in. rewrite existsb_exists. split.
  - intros (y & Hy & E). apply String.eqb_eq in E. now subst.
  - intros H. exists name. split; [exact H | apply String.eqb_refl].
Qed.

(* ================================================================== *)
(** * The feed dictionary of the OpenVINO decoder *)
(* ================================================================== *)

Section InitPastInputs.
Variable placeholder : ov_tensor.

Lemma str_in_reserved (name : string) :
  str_in name ["tokens"%string; "audio_features"%string] = false
  <-> name <> "tokens"%string /\ name <> "audio_features"%string.
Proof.
  split.
  - intros H. split; intros ->; discriminate H.
  - intros [H1 H2]. destruct (str_in name _) eqn:E; [|reflexivity].
    apply str_in_In in E. simpl in E.
    destruct E as [E|[E|[]]]; congruence.
Qed.

Lemma init_loop_reserved (names : list string) (feed_dict : dict ov_tensor)
    (name : string) :
  str_in name ["tokens"%string; "audio_features"%string] = true ->
  dict_get name (fold_left (init_past_step placeholder) names feed_dict) = dict_get name feed_dict.
Proof.
  intros Hres. revert feed_dict.
  induction names as [|n names IH]; intros feed_dict; [reflexivity|].
  simpl. rewrite IH. unfold init_past_step.
  destruct (str_in n _) eqn:E; [reflexivity|].
  apply dict_get_set_neq. intros ->. congruence.
Qed.

Lemma init_loop_keeps (names : list string) (feed_dict : dict ov_tensor)
    (name : string) :
  dict_get name feed_dict = Some placeholder ->
  dict_get name (fold_left (init_past_step placeholder) names feed_dict) = Some placeholder.
Proof.
  revert feed_dict.
  induction names as [|n names IH]; intros feed_dict H; [exact H|].
  simpl. apply IH. unfold init_past_step.
  destruct (str_in n _); [exact H|].
  destruct (String.eqb n name) eqn:E.
  - apply String.eqb_eq in E. subst. apply dict_get_set_eq.
  - apply String.eqb_neq in E. now rewrite dict_get_set_neq.
Qed.

Lemma init_loop_sets (names : list string) (feed_dict : dict ov_tensor)
    (name : string) :
  In name names ->
  str_in name ["tokens"%string; "audio_features"%string] = false ->
  dict_get name (fold_left (init_past_step placeholder) names feed_dict) = Some placeholder.
Proof.
  intros Hin Hres. revert feed_dict.
  induction names as [|n names IH]; intros feed_dict; [destruct Hin|].
  simpl. destruct Hin as [->|Hin].
  - apply init_loop_keeps. unfold init_past_step. rewrite Hres.
    apply dict_get_set_eq.
  - now apply IH.
Qed.

Lemma init_loop_only (names : list string) (feed_dict : dict ov_tensor)
    (name : string) :
  dict_mem name (fold_left (init_past_step placeholder) names feed_dict) = true ->
  dict_mem name feed_dict = true \/ In name names.
Proof.
  revert feed_dict.
  induction names as [|n names IH]; intros feed_dict H; [now left|].
  simpl in H. apply IH in H. destruct H as [H|H]; [|right; now right].
  unfold init_past_step in H. destruct (str_in n _); [now left|].
  rewrite dict_mem_set in H. apply orb_true_iff in H as [H|H].
  - apply String.eqb_eq in H. right. now left.
  - now left.
Qed.
End InitPastInputs.

(** C7.  On an empty cache the feed dictionary keeps the tokens and the
    audio features as supplied, and holds, for every other declared input
    of the model, an array of zeros of shape (batch of the tokens, 0, last
    axis of the audio features); it has no further entry. *)
Theorem init_past_inputs_first_step (self : OpenVINOTextDecoder)
    (x : Tokens) (xa : Tensor) (kv_cache : option (dict Tensor)) :
  py_not_dict kv_cache = true ->
  exists feed_dict,
    forward_feed self x (Some xa) kv_cache = Ok feed_dict
    /\ dict_get "tokens" feed_dict = Some (OVTokens x)
    /\ dict_get "audio_features" feed_dict = Some (OVFloat xa)
    /\ (forall name,
          In name (_input_names self) ->
          name <> "tokens"%string -> name <> "audio_features"%string ->
          exists t,
            dict_get name feed_dict = Some (OVFloat t)
            /\ t = np_zeros (tok_batch x) 0 (t_feat xa)
            /\ shape t = [tok_batch x; 0; t_feat xa]
            /\ t_rows t = repeat [] (tok_batch x))
    /\ (forall name,
          dict_mem name feed_dict = true ->
          name = "tokens"%string \/ name = "audio_features"%string
          \/ In name (_input_names self)).
Proof.
  intros Hempty.
  unfold forward_feed, preprocess_kv_cache_inputs. simpl.
  rewrite Hempty. unfold init_past_inputs. simpl.
  eexists. split; [reflexivity|].
  split; [now apply init_loop_reserved|].
  split; [now apply init_loop_reserved|].
  split.
  - intros name Hin H1 H2. eexists. split; [|split; [reflexivity|split; reflexivity]].
    apply init_loop_sets; [exact Hin|]. now apply str_in_reserved.
  - intros name H. apply init_loop_only in H. destruct H as [H|H]; [|tauto].
    unfold dict_mem in H. simpl in H.
    destruct (String.eqb name "tokens") eqn:E1.
    + apply String.eqb_eq in E1. tauto.
    + destruct (String.eqb name "audio_features") eqn:E2; [|discriminate].
      apply String.eqb_eq in E2. tauto.
Qed.

Lemma init_past_inputs_first_step_witness :
  exists feed_dict,
    forward_feed ex_ov_decoder ex_tokens (Some ex_features) (Some []) = Ok feed_dict
    /\ dict_get "in_k_0a" feed_dict = Some (OVFloat (mkTensor 1 0 1 [[]])).
Proof.
  destruct (init_past_inputs_first_step ex_ov_decoder ex_tokens ex_features
              (Some []) eq_refl) as (feed_dict & Hrun & _ & _ & Hslots & _).
  exists feed_dict. split; [exact Hrun|].
  destruct (Hslots "in_k_0a"%string) as (t & Hget & -> & _).
  - simpl. tauto.
  - discriminate.
  - discriminate.
  - exact Hget.
Defined.


(** ** Slots on the way in *)

Lemma feed_loop_other (input_names : list string) (cache : dict Tensor)
    (feed_dict : dict ov_tensor) (name : string) :
  (forall s, In s (dict_keys cache) -> String.append "in_" s <> name) ->
  dict_get name (fold_left (feed_slot input_names) cache feed_dict)
  = dict_get name feed_dict.
Proof.
  revert feed_dict.
  induction cache as [|[s t] cache IH]; intros feed_dict H; [reflexivity|].
  simpl. rewrite IH.
  - unfold feed_slot. simpl. destruct (str_in _ _); [|reflexivity].
    apply dict_get_set_neq. apply H. now left.
  - intros s' Hs'. apply H. now right.
Qed.

Lemma feed_loop_slot (input_names : list string) (cache : dict Tensor)
    (feed_dict : dict ov_tensor) (s : string) (t : Tensor) :
  NoDup (dict_keys cache) -> dict_get s cache = Some t ->
  dict_get (String.append "in_" s)
    (fold_left (feed_slot input_names) cache feed_dict)
  = if str_in (String.append "in_" s) input_names then Some (OVFloat t)
    else dict_get (String.append "in_" s) feed_dict.
Proof.
  revert feed_dict.
  induction cache as [|[s' t'] cache IH]; intros feed_dict Hnd Hget;
    [discriminate|].
  inversion Hnd as [|? ? Hnotin Hnd']; subst.
  cbn [dict_get] in Hget. cbn [fold_left].
  destruct (String.eqb s s') eqn:E.
  - apply String.eqb_eq in E. subst s'. injection Hget as ->.
    rewrite feed_loop_other.
    + unfold feed_slot. cbn [fst snd].
      destruct (str_in _ _); [apply dict_get_set_eq | reflexivity].
    + intros s' Hs' Heq. apply append_in_inj in Heq. subst. contradiction.
  - rewrite (IH _ Hnd' Hget).
    destruct (str_in (String.append "in_" s) input_names); [reflexivity|].
    unfold feed_slot. cbn [fst snd].
    destruct (str_in _ _); [|reflexivity].
    apply dict_get_set_neq. intros Heq. apply append_in_inj in Heq.
    subst. now rewrite String.eqb_refl in E.
Qed.

(** ** Slots on the way out *)

Lemma dict_set_fresh (V : Type) (k : string) (v : V) (d : dict V) :
  ~ In k (dict_keys d) -> dict_set k v d = d ++ [(k, v)].
Proof.
  unfold dict_keys.
  induction d as [|[k' v'] d IH]; simpl; intros H; [reflexivity|].
  destruct (String.eqb k k') eqn:E.
  - apply String.eqb_eq in E. subst. tauto.
  - rewrite IH; [reflexivity | tauto].
Qed.

Lemma demap_loop (lg : option Tensor) (slots acc : dict Tensor) :
  (forall s, In s (dict_keys slots) -> str_mem "o" s = false) ->
  NoDup (dict_keys (acc ++ slots)) ->
  fold_left demap_output
    (map (fun kv => (named_port (String.append "out_" (fst kv)), snd kv)) slots)
    (lg, acc)
  = (lg, acc ++ slots).
Proof.
  revert acc.
  induction slots as [|[s t] slots IH]; intros acc Hno Hnd.
  - now rewrite app_nil_r.
  - cbn [map fold_left fst snd].
    unfold demap_output at 2. cbn [fst snd named_port get_names any_name].
    assert (E : str_in "logits" [String.append "out_" s] = false) by reflexivity.
    rewrite E. rewrite str_replace_out by (apply Hno; now left).
    rewrite dict_set_fresh.
    + rewrite IH.
      * now rewrite <- app_assoc.
      * intros s' Hs'. apply Hno. now right.
      * now rewrite <- app_assoc.
    + unfold dict_keys in *. rewrite map_app in Hnd.
      apply NoDup_remove_2 in Hnd. intros Hin. apply Hnd.
      apply in_or_app. now left.
Qed.

Lemma postprocess_export_outputs (lg : Tensor) (slots : dict Tensor) :
  (forall s, In s (dict_keys slots) -> slot_name s) ->
  NoDup (dict_keys slots) ->
  postprocess_outputs (export_outputs lg slots) = (Some lg, slots).
Proof.
  intros Hslots Hnd. unfold postprocess_outputs, export_outputs.
  cbn [fold_left]. unfold demap_output at 2.
  cbn [fst snd named_port get_names any_name].
  assert (E : str_in "logits" ["logits"%string] = true) by reflexivity.
  rewrite E. apply (demap_loop (Some lg) slots []).
  - intros s Hs. apply slot_name_no_o. now apply Hslots.
  - exact Hnd.
Qed.

(** The outputs [postprocess_outputs] is stated on carry the names the
    export gave: [logits], then [out_<key>] for every key of the cache. *)
Lemma export_outputs_names (lg : Tensor) (kv_cache : dict Tensor) :
  map (fun o => any_name (fst o)) (export_outputs lg kv_cache)
  = export_output_names kv_cache.
Proof.
  unfold export_outputs, export_output_names, dict_keys.
  cbn [map app fst named_port any_name]. f_equal.
  rewrite !map_map. reflexivity.
Qed.

(** C8, as the code has it.  A slot [s] of a non-empty cache is fed under
    the name [in_s] when the model declares an input of that name, and is
    not fed at all otherwise; the outputs of the exported graph are read
    back with [logits] as the logits and every [out_s] as slot [s]; and
    removing [out_] from [out_s] gives [s] back for every slot name of the
    export. *)
Theorem slot_wire_names (self : OpenVINOTextDecoder) (x : Tokens)
    (xa : Tensor) (cache : dict Tensor) :
  cache <> [] -> NoDup (dict_keys cache) ->
  (exists feed_dict,
     forward_feed self x (Some xa) (Some cache) = Ok feed_dict
     /\ forall s t,
          dict_get s cache = Some t ->
          dict_get (String.append "in_" s) feed_dict
          = if str_in (String.append "in_" s) (_input_names self)
            then Some (OVFloat t) else None)
  /\ (forall lg slots,
         (forall s, In s (dict_keys slots) -> slot_name s) ->
         NoDup (dict_keys slots) ->
         postprocess_outputs (export_outputs lg slots) = (Some lg, slots))
  /\ (forall s, slot_name s ->
         str_replace "out_" "" (String.append "out_" s) = s).
Proof.
  intros Hne Hnd. split; [|split].
  - unfold forward_feed, preprocess_kv_cache_inputs. cbn [numpy_of bind].
    destruct cache as [|kv cache]; [congruence|]. cbn [py_not_dict].
    eexists. split; [reflexivity|].
    intros s t Hget. rewrite (@feed_loop_slot _ _ _ _ _ Hnd Hget).
    destruct (str_in _ _); reflexivity.
  - apply postprocess_export_outputs.
  - intros s Hs. apply str_replace_out. now apply slot_name_no_o.
Qed.

Lemma slot_wire_names_witness :
  (exists feed_dict,
     forward_feed ex_ov_decoder ex_tokens (Some ex_features) (Some ex_cache)
     = Ok feed_dict
     /\ dict_get "in_k_0a" feed_dict = Some (OVFloat ex_old))
  /\ str_replace "out_" "" "out_k_0a" = "k_0a"%string.
Proof.
  assert (Hnd : NoDup (dict_keys ex_cache)).
  { simpl. repeat constructor; simpl; intuition discriminate. }
  destruct (slot_wire_names ex_ov_decoder ex_tokens ex_features
              (cache := ex_cache) ltac:(discriminate) Hnd)
    as ((feed_dict & Hrun & Hfed) & _ & Hnames).
  split.
  - exists feed_dict. split; [exact Hrun|].
    exact (Hfed "k_0a"%string ex_old eq_refl).
  - exact (Hnames "k_0a"%string (slot_self_k 0)).
Defined.

(** C8 as the specification words it fails: the exported graph declares no
    input for the cross-attention slots, and the slot [k_0c] of the cache
    reaches the model under no name. *)
Lemma cross_slot_not_fed :
  dict_get "k_0c" ex_cache = Some ex_features
  /\ exists feed_dict,
       forward_feed ex_ov_decoder ex_tokens (Some ex_features) (Some ex_cache)
       = Ok feed_dict
       /\ dict_get "in_k_0c" feed_dict = None
       /\ dict_keys feed_dict
          = ["tokens"%string; "audio_features"%string;
             "in_k_0a"%string; "in_v_0a"%string].
Proof.
  split; [reflexivity|]. eexists. split; [reflexivity|]. split; reflexivity.
Qed.


(* ================================================================== *)
(** * The heap of dictionaries *)
(* ================================================================== *)

Lemma heap_get_set_same (l : loc) (d : dict Tensor) (h : Heap) :
  l < List.length h -> heap_get l (heap_set l d h) = Some d.
Proof.
  unfold heap_get. revert l.
  induction h as [|d0 h IH]; intros l Hl; simpl in Hl; [lia|].
  destruct l as [|l]; simpl; [reflexivity|]. apply IH. lia.
Qed.

Lemma heap_get_set_other (l l' : loc) (d : dict Tensor) (h : Heap) :
  l <> l' -> heap_get l' (heap_set l d h) = heap_get l' h.
Proof.
  unfold heap_get. revert l l'.
  induction h as [|d0 h IH]; intros l l' Hne; [now destruct l|].
  destruct l as [|l], l' as [|l']; simpl; try reflexivity; try congruence.
  apply IH. congruence.
Qed.

Lemma heap_get_bound (l : loc) (d : dict Tensor) (h : Heap) :
  heap_get l h = Some d -> l < List.length h.
Proof.
  unfold heap_get. intros H. apply nth_error_Some. congruence.
Qed.

Lemma heap_new_get (d : dict Tensor) (h : Heap) :
  heap_get (snd (heap_new d h)) (fst (heap_new d h)) = Some d.
Proof.
  unfold heap_new, heap_get. simpl.
  rewrite nth_error_app2 by lia. now rewrite Nat.sub_diag.
Qed.

Lemma heap_new_old (d d0 : dict Tensor) (l : loc) (h : Heap) :
  heap_get l h = Some d0 ->
  heap_get l (fst (heap_new d h)) = Some d0 /\ snd (heap_new d h) <> l.
Proof.
  intros H. pose proof (heap_get_bound _ _ H) as Hl.
  unfold heap_new, heap_get in *. simpl. split; [|lia].
  now rewrite nth_error_app1.
Qed.

(* ================================================================== *)
(** * [rearrange_kv_cache] *)
(* ================================================================== *)

Lemma gather_rows_valid (n : nat) (rows : list (list (list float)))
    (source_indices : list Z) :
  Forall (fun i => (0 <= i < Z.of_nat n)%Z) source_indices ->
  gather_rows n rows source_indices
  = Ok (map (fun i => nth (Z.to_nat i) rows []) source_indices).
Proof.
  induction 1 as [|i rest Hi _ IH]; [reflexivity|].
  cbn [gather_rows map]. unfold py_index.
  assert (E : ((0 <=? i)%Z && (i <? Z.of_nat n)%Z) = true).
  { apply andb_true_iff. split; [apply Z.leb_le | apply Z.ltb_lt]; lia. }
  rewrite E. cbn [bind]. now rewrite IH.
Qed.

Lemma tensor_index_valid (tensor : Tensor) (source_indices : list Z) :
  Forall (fun i => (0 <= i < Z.of_nat (t_batch tensor))%Z) source_indices ->
  tensor_index tensor source_indices = Ok (select_batch tensor source_indices).
Proof.
  intros H. unfold tensor_index. now rewrite gather_rows_valid.
Qed.

Lemma dict_set_middle (V : Type) (k : string) (v v0 : V) (pre post : dict V) :
  ~ In k (dict_keys pre) ->
  dict_set k v (pre ++ (k, v0) :: post) = pre ++ (k, v) :: post.
Proof.
  unfold dict_keys.
  induction pre as [|[k' v'] pre IH]; simpl; intros H.
  - now rewrite String.eqb_refl.
  - destruct (String.eqb k k') eqn:E.
    + apply String.eqb_eq in E. subst. tauto.
    + rewrite IH; [reflexivity | tauto].
Qed.

(** The loop, started on the items of the dictionary itself, rewrites
    every value in place. *)
Lemma rearrange_items_in_place (source_indices : list Z)
    (items pre : dict Tensor) :
  NoDup (dict_keys (pre ++ items)) ->
  Forall (fun kv => Forall (fun i => (0 <= i < Z.of_nat (t_batch (snd kv)))%Z)
                      source_indices) items ->
  rearrange_items items source_indices (pre ++ items)
  = Ok (pre ++ map (fun kv => (fst kv, select_batch (snd kv) source_indices))
                items).
Proof.
  revert pre.
  induction items as [|[k t] items IH]; intros pre Hnd Hvalid; [reflexivity|].
  inversion Hvalid as [|? ? Ht Hrest]; subst.
  cbn [rearrange_items map fst snd] in *.
  rewrite (tensor_index_valid _ Ht). cbn [bind].
  rewrite dict_set_middle.
  - change (pre ++ (k, select_batch t source_indices) :: items)
      with (pre ++ [(k, select_batch t source_indices)] ++ items).
    rewrite app_assoc. rewrite IH.
    + now rewrite <- app_assoc.
    + rewrite <- app_assoc. unfold dict_keys in *.
      rewrite !map_app in *. exact Hnd.
    + exact Hrest.
  - unfold dict_keys in *. rewrite map_app in Hnd. simpl in Hnd.
    apply NoDup_remove_2 in Hnd. intros Hin. apply Hnd.
    apply in_or_app. now left.
Qed.

Lemma dict_get_map_values (V W : Type) (f : V -> W) (k : string) (d : dict V) :
  dict_get k (map (fun kv => (fst kv, f (snd kv))) d)
  = option_map f (dict_get k d).
Proof.
  induction d as [|[k' v'] d IH]; simpl; [reflexivity|].
  destruct (String.eqb k k'); [reflexivity | exact IH].
Qed.

(** C4.  On a cache whose tensors all have the selected indices within
    their batch, [rearrange_kv_cache] leaves the keys of the cache as they
    are, in their order, and replaces every tensor by one whose batch size
    is the number of indices and whose entry [i] is the old entry at index
    [source_indices[i]]; positions and features are untouched. *)
Theorem rearrange_kv_cache_gathers (self : OpenVINOInference) (h : Heap)
    (cache : dict Tensor) (source_indices : list Z) :
  heap_get (self_kv_cache self) h = Some cache ->
  NoDup (dict_keys cache) ->
  (forall k t i, In (k, t) cache -> In i source_indices ->
                 (0 <= i < Z.of_nat (t_batch t))%Z) ->
  exists h' cache',
    rearrange_kv_cache self source_indices h = Ok h'
    /\ heap_get (self_kv_cache self) h' = Some cache'
    /\ dict_keys cache' = dict_keys cache
    /\ forall k t,
         dict_get k cache = Some t ->
         exists t',
           dict_get k cache' = Some t'
           /\ t_batch t' = List.length source_indices
           /\ List.length (t_rows t') = List.length source_indices
           /\ t_seq t' = t_seq t /\ t_feat t' = t_feat t
           /\ forall i, i < List.length source_indices ->
                nth i (t_rows t') []
                = nth (Z.to_nat (nth i source_indices 0%Z)) (t_rows t) [].
Proof.
  intros Hget Hnd Hvalid.
  unfold rearrange_kv_cache. rewrite Hget.
  pose proof (@rearrange_items_in_place source_indices cache []) as Hloop.
  cbn [app] in Hloop. rewrite Hloop; cbn [bind].
  - eexists. eexists. split; [reflexivity|].
    split; [apply heap_get_set_same; eapply heap_get_bound; eassumption|].
    split.
    + unfold dict_keys. rewrite map_map. reflexivity.
    + intros k t Hk. exists (select_batch t source_indices).
      rewrite (@dict_get_map_values _ _
                 (fun t0 => select_batch t0 source_indices)), Hk. cbn [option_map select_batch t_batch
        t_rows t_seq t_feat].
      rewrite length_map. repeat split; try reflexivity.
      intros i Hi.
      rewrite (nth_indep _ [] (nth (Z.to_nat 0%Z) (t_rows t) []))
        by (now rewrite length_map).
      now rewrite (map_nth (fun i => nth (Z.to_nat i) (t_rows t) [])).
  - exact Hnd.
  - apply Forall_forall. intros [k t] Hin. apply Forall_forall.
    intros i Hi. cbn [snd]. eapply Hvalid; eassumption.
Qed.

(** The scenario of the specification: a batch of five, the indices
    [2, 2, 0]. *)
Lemma rearrange_kv_cache_gathers_witness :
  exists h' cache' t',
    rearrange_kv_cache ex_inference [2%Z; 2%Z; 0%Z] ex_heap = Ok h'
    /\ heap_get 0 h' = Some cache'
    /\ dict_keys cache' = ["k_0a"%string; "v_0a"%string]
    /\ dict_get "k_0a" cache' = Some t'
    /\ t_batch t' = 3
    /\ nth 0 (t_rows t') [] = [[12%float]]
    /\ nth 1 (t_rows t') [] = [[12%float]]
    /\ nth 2 (t_rows t') [] = [[10%float]].
Proof.
  assert (Hnd : NoDup (dict_keys ex_cache5)).
  { simpl. repeat constructor; simpl; intuition discriminate. }
  assert (Hvalid : forall k t i, In (k, t) ex_cache5 ->
                     In i [2%Z; 2%Z; 0%Z] ->
                     (0 <= i < Z.of_nat (t_batch t))%Z).
  { intros k t i Hin Hi. simpl in Hin, Hi.
    destruct Hin as [E|[E|[]]]; injection E as <- <-;
      destruct Hi as [<-|[<-|[<-|[]]]]; simpl; lia. }
  destruct (@rearrange_kv_cache_gathers ex_inference ex_heap ex_cache5
              [2%Z; 2%Z; 0%Z] eq_refl Hnd Hvalid)
    as (h' & cache' & Hrun & Hheap & Hkeys & Hslots).
  destruct (Hslots "k_0a"%string ex_batch5 eq_refl)
    as (t' & Hk & Hb & _ & _ & _ & Hrows).
  exists h', cache', t'.
  repeat split; try assumption.
  - exact (Hrows 0 ltac:(simpl; lia)).
  - exact (Hrows 1 ltac:(simpl; lia)).
  - exact (Hrows 2 ltac:(simpl; lia)).
Defined.


(* ================================================================== *)
(** * [cleanup_caching] *)
(* ================================================================== *)

(** A call of the decoder writes to the dictionary it is given, or to a
    new one, and to no other. *)
Lemma call_decoder_frame (model : DecoderModule) (tokens : Tokens)
    (audio_features : option Tensor) (l l0 : loc) (h h' : Heap)
    (d0 : dict Tensor) (lg : option Tensor) (l' : loc) :
  call_decoder model tokens audio_features l h = Ok (lg, l', h') ->
  heap_get l0 h = Some d0 -> l0 <> l ->
  heap_get l0 h' = Some d0.
Proof.
  unfold call_decoder. intros Hcall Hold Hne.
  destruct (heap_get l h) as [cache|]; [|discriminate].
  destruct model as [decoder|decoder].
  - destruct (decoder_forward decoder tokens audio_features (Some cache))
      as [[lg0 [cache'|]]|e]; cbn [bind] in Hcall; try discriminate.
    injection Hcall as _ _ <-.
    rewrite heap_get_set_other by congruence. exact Hold.
  - destruct (forward decoder tokens audio_features (Some cache))
      as [[lg0 cache']|e]; cbn [bind] in Hcall; try discriminate.
    injection Hcall as _ _ <-.
    now apply heap_new_old.
Qed.

(** C9.  [cleanup_caching] binds [self.kv_cache] to a new dictionary that is
    empty, as the one [__init__] creates; the dictionary held before is
    another object, which stays in the heap as it was, and stays so when a
    slot of the new dictionary is assigned, when the decoder is called on
    it and when it is rearranged. *)
Theorem cleanup_caching_fresh (self : OpenVINOInference) (h : Heap)
    (old_cache : dict Tensor) :
  heap_get (self_kv_cache self) h = Some old_cache ->
  let self' := fst (cleanup_caching self h) in
  let h' := snd (cleanup_caching self h) in
  let fresh := Inference_init (model_decoder self) (initial_token_length self) h in
  heap_get (self_kv_cache self') h' = Some []
  /\ heap_get (self_kv_cache (fst fresh)) (snd fresh)
     = heap_get (self_kv_cache self') h'
  /\ self_kv_cache self' <> self_kv_cache self
  /\ heap_get (self_kv_cache self) h' = Some old_cache
  /\ (forall module t new_cache,
        heap_get (self_kv_cache self)
          (heap_set (self_kv_cache self') (dict_set module t new_cache) h')
        = Some old_cache)
  /\ (forall tokens audio_features lg self'' h'',
        logits self' tokens audio_features h' = Ok (lg, self'', h'') ->
        heap_get (self_kv_cache self) h'' = Some old_cache)
  /\ (forall source_indices h'',
        rearrange_kv_cache self' source_indices h' = Ok h'' ->
        heap_get (self_kv_cache self) h'' = Some old_cache).
Proof.
  intros Hold self' h' fresh.
  destruct (@heap_new_old [] _ _ _ Hold) as [Hkept Hne].
  assert (Hself : self_kv_cache self' = snd (heap_new [] h)) by reflexivity.
  assert (Hh : h' = fst (heap_new [] h)) by reflexivity.
  split; [rewrite Hself, Hh; apply heap_new_get|].
  split; [reflexivity|].
  split; [now rewrite Hself|].
  split; [now rewrite Hh|].
  split; [|split].
  - intros module t new_cache. rewrite heap_get_set_other.
    + now rewrite Hh.
    + now rewrite Hself.
  - intros tokens audio_features lg self'' h'' Hrun.
    unfold logits in Hrun.
    destruct (call_decoder _ _ _ _ _) as [[[lg0 l0] h0]|e] eqn:Hcall;
      cbn [bind] in Hrun; [|discriminate].
    injection Hrun as _ _ <-.
    eapply call_decoder_frame; [exact Hcall | now rewrite Hh | ].
    intros E. apply Hne. symmetry. exact E.
  - intros source_indices h'' Hrun. unfold rearrange_kv_cache in Hrun.
    destruct (heap_get (self_kv_cache self') h') as [cache|]; [|discriminate].
    destruct (rearrange_items _ _ _) as [cache'|e]; cbn [bind] in Hrun;
      [|discriminate].
    injection Hrun as <-. rewrite heap_get_set_other.
    + exact Hkept.
    + exact Hne.
Qed.

Lemma cleanup_caching_fresh_witness :
  heap_get (self_kv_cache (fst (cleanup_caching ex_inference ex_heap)))
           (snd (cleanup_caching ex_inference ex_heap)) = Some []
  /\ heap_get (self_kv_cache ex_inference)
       (heap_set 1 (dict_set "k_0a" ex_out [])
          (snd (cleanup_caching ex_inference ex_heap)))
     = Some ex_cache5.
Proof.
  pose proof (@cleanup_caching_fresh ex_inference ex_heap ex_cache5 eq_refl)
    as (Hnew & _ & _ & _ & Hset & _).
  split; [exact Hnew|].
  exact (Hset "k_0a"%string ex_out []).
Defined.


(* ================================================================== *)
(** * [resample] *)
(* ================================================================== *)

Lemma np_linspace_length (start stop : float) (num : nat) :
  List.length (arr_data (np_linspace start stop num)) = num.
Proof.
  unfold np_linspace, astype_float32. cbn [arr_data].
  rewrite length_map.
  set (y := map (fun v => (v + start)%float) _).
  assert (Hy : List.length y = num).
  { unfold y. rewrite length_map.
    destruct (0 <? Z.of_nat num - 1)%Z;
      [destruct (_ =? 0)%float|]; now rewrite !length_map, length_seq. }
  destruct (Nat.ltb_spec 1 num) as [Hnum|Hnum]; [|exact Hy].
  rewrite length_app, removelast_firstn_len, length_firstn, Hy.
  cbn [List.length]. lia.
Qed.

Lemma np_interp_length (x xp fp : ndarray) :
  arr_data xp <> [] ->
  List.length (arr_data xp) = List.length (arr_data fp) ->
  exists y, np_interp x xp fp = Ok y
            /\ List.length (arr_data y) = List.length (arr_data x).
Proof.
  intros Hne Hlen. unfold np_interp.
  destruct (arr_data xp) as [|x0 xs] eqn:E; [congruence|].
  rewrite <- Hlen. cbn [List.length]. rewrite Nat.eqb_refl. cbn [Nat.eqb negb orb].
  eexists. split; [reflexivity|]. cbn [arr_data]. apply length_map.
Qed.

(** C10, as the code has it.  With equal sample rates the audio is
    returned as it is, whatever it is.  With different ones, on a signal
    that is not empty and for which the expression
    [int((len(audio) / src_sample_rate) * dst_sample_rate)] has a value
    [n] that is not negative and that numpy accepts as the size of an
    array (the memory for it being there), the call returns an array of
    type [float32] with [n] elements. *)
Theorem resample_identity_and_length (audio : ndarray)
    (src_sample_rate dst_sample_rate : Z) :
  resample audio src_sample_rate src_sample_rate = Ok audio
  /\ (src_sample_rate <> dst_sample_rate ->
      arr_data audio <> [] ->
      forall n : Z,
        resampled_length audio src_sample_rate dst_sample_rate = Ok n ->
        (0 <= n < 2 ^ 61)%Z ->
        exists resampled_audio,
          resample audio src_sample_rate dst_sample_rate = Ok resampled_audio
          /\ arr_dtype resampled_audio = np_float32
          /\ List.length (arr_data resampled_audio) = Z.to_nat n).
Proof.
  split.
  - unfold resample. now rewrite Z.eqb_refl.
  - intros Hrates Hne n Hlen Hpos. unfold resample, resampled_length in *.
    apply Z.eqb_neq in Hrates. rewrite Hrates.
    destruct (py_truediv _ _) as [duration|e]; cbn [bind] in *; [|discriminate].
    destruct (py_mul_int _ _) as [samples|e]; cbn [bind] in *; [|discriminate].
    rewrite Hlen. cbn [bind].
    unfold np_zeros_1d.
    assert (E : ((n <? 0)%Z || (2 ^ 61 <=? n)%Z) = false).
    { apply orb_false_iff. split; [apply Z.ltb_ge | apply Z.leb_gt]; lia. }
    rewrite E. cbn [bind arr_data]. rewrite repeat_length.
    destruct (@np_interp_length (np_linspace 0 duration (Z.to_nat n))
                (np_linspace 0 duration (List.length (arr_data audio))) audio)
      as (y & Hy & Hylen).
    + intros Hnil. apply (f_equal (@List.length float)) in Hnil.
      rewrite np_linspace_length in Hnil. destruct (arr_data audio); [congruence|].
      discriminate.
    + apply np_linspace_length.
    + rewrite Hy. cbn [bind]. eexists. split; [reflexivity|].
      split; [reflexivity|].
      unfold astype_float32. cbn [arr_data].
      now rewrite length_map, Hylen, np_linspace_length.
Qed.

Lemma resample_identity_and_length_witness :
  resampled_length ex_audio 8000 16000 = Ok 8%Z
  /\ exists resampled_audio,
       resample ex_audio 8000 16000 = Ok resampled_audio
       /\ arr_dtype resampled_audio = np_float32
       /\ List.length (arr_data resampled_audio) = Z.to_nat 8.
Proof.
  split; [vm_compute; reflexivity|].
  apply (proj2 (resample_identity_and_length ex_audio 8000 16000)).
  - discriminate.
  - discriminate.
  - vm_compute. reflexivity.
  - lia.
Defined.

(** C10 as the specification words it fails: not every signal and not
    every pair of different rates has a result.  On the empty signal
    [np.interp] refuses the empty array of sample points; a source rate of
    zero makes the division raise; rates of opposite signs ask
    [np.zeros] for a negative size; and a rate beyond the range of
    binary64 cannot be multiplied with the duration. *)
Lemma resample_without_result :
  resample (mkArray np_float32 []) 16000 8000 = Raise ValueError
  /\ resample ex_audio 0 16000 = Raise ZeroDivisionError
  /\ resample ex_audio (-4) 16000 = Raise ValueError
  /\ resampled_length (mkArray np_float32 []) 16000 8000 = Ok 0%Z
  /\ resampled_length ex_audio (-4) 16000 = Ok (-16000)%Z
  /\ resample ex_audio 1 (2 ^ 1024) = Raise OverflowError.
Proof.
  repeat split; vm_compute; reflexivity.
Qed.


(* ================================================================== *)
(** * Slot names are distinct *)
(* ================================================================== *)

Lemma str_of_uint_suffix_inj (d1 d2 : Decimal.uint) (c1 c2 : ascii) :
  c1 = "a"%char \/ c1 = "c"%char -> c2 = "a"%char \/ c2 = "c"%char ->
  String.append (NilEmpty.string_of_uint d1) (String c1 EmptyString)
  = String.append (NilEmpty.string_of_uint d2) (String c2 EmptyString) ->
  d1 = d2 /\ c1 = c2.
Proof.
  intros H1 H2. revert d2.
  induction d1 as [|d1 IH|d1 IH|d1 IH|d1 IH|d1 IH|d1 IH|d1 IH|d1 IH|d1 IH|d1 IH];
    intros d2 H; destruct d2; cbn [NilEmpty.string_of_uint String.append] in H;
    try (destruct H1 as [-> | ->]; discriminate H);
    try (destruct H2 as [-> | ->]; discriminate H);
    try discriminate H;
    try (injection H as H; apply IH in H; destruct H as [-> ->]; now split).
  injection H as ->. now split.
Qed.

Lemma slot_name_inj (a1 a2 c1 c2 : ascii) (i j : nat) :
  c1 = "a"%char \/ c1 = "c"%char -> c2 = "a"%char \/ c2 = "c"%char ->
  String a1 (String "_" (String.append (str_of_nat i) (String c1 EmptyString)))
  = String a2 (String "_" (String.append (str_of_nat j) (String c2 EmptyString))) ->
  a1 = a2 /\ i = j /\ c1 = c2.
Proof.
  intros H1 H2 H. injection H as -> H.
  apply str_of_uint_suffix_inj in H; [|assumption..].
  destruct H as [H ->]. apply DecimalNat.Unsigned.to_uint_inj in H.
  now subst.
Qed.

(** Two slot names are equal only when they are written the same way. *)
Ltac slot_names_differ :=
  let H := fresh "H" in
  intros H; unfold k_name, v_name, self_idx, cross_idx in H;
  apply slot_name_inj in H; [|now auto..];
  destruct H as (? & ? & ?); try discriminate; try lia; try congruence.

Lemma block_slots_apart (i j : nat) (name : string) :
  i <> j -> In name (block_slots i) -> ~ In name (block_slots j).
Proof.
  intros Hne Hi Hj. unfold block_slots in *. simpl in Hi, Hj.
  destruct Hi as [<-|[<-|[<-|[<-|[]]]]];
    destruct Hj as [Hj|[Hj|[Hj|[Hj|[]]]]]; revert Hj; slot_names_differ.
Qed.

(* ================================================================== *)
(** * Shapes *)
(* ================================================================== *)

Lemma shape_has_shape (t : Tensor) (b s d : nat) :
  shape t = [b; s; d] <-> has_shape t b s d.
Proof.
  unfold shape, has_shape. split.
  - now intros [= -> -> ->].
  - now intros (-> & -> & ->).
Qed.

Lemma keeps_shape_has (f : Tensor -> Tensor) (t : Tensor) (b s d : nat) :
  keeps_shape f -> has_shape t b s d -> has_shape (f t) b s d.
Proof.
  intros Hf Ht. apply shape_has_shape. rewrite Hf.
  now apply shape_has_shape.
Qed.

Lemma tensor_add_has_shape (a b : Tensor) (n s d : nat) :
  has_shape a n s d -> has_shape b n s d ->
  exists t, tensor_add a b = Ok t /\ has_shape t n s d.
Proof.
  intros (Ha1 & Ha2 & Ha3) (Hb1 & Hb2 & Hb3). unfold tensor_add.
  rewrite Ha1, Ha2, Ha3, Hb1, Hb2, Hb3, !Nat.eqb_refl. cbn [andb].
  eexists. split; [reflexivity|]. now repeat split.
Qed.

(* ================================================================== *)
(** * One slot, one store *)
(* ================================================================== *)

(** A self-attention store within the context: the slot grows by the
    positions of the value. *)
Lemma save_to_cache_grows (pes : nat) (c : dict Tensor) (name : string)
    (output : Tensor) (b s n d : nat) :
  slot_has c name b s d -> has_shape output b n d -> n <= pes ->
  exists t, save_to_cache pes c name output = Ok (dict_set name t c, t)
            /\ has_shape t b (s + n) d.
Proof.
  unfold slot_has. intros Hslot Hout Hn.
  destruct (dict_get name c) as [old|] eqn:Hget.
  - destruct Hslot as (Hb & Hs & Hd). destruct Hout as (Hb' & Hs' & Hd').
    rewrite (@save_to_cache_append pes c name old output Hget) by lia.
    rewrite torch_cat_dim1_ok by congruence. cbn [bind].
    eexists. split; [reflexivity|].
    unfold has_shape. cbn [t_batch t_seq t_feat]. repeat split; congruence.
  - subst s. exists output. split; [|exact Hout].
    apply save_to_cache_as_is. left. unfold dict_mem. now rewrite Hget.
Qed.

(** A cross-attention store: the slot takes the projection as it is when
    it is new or when the projection is longer than the positional table,
    and is extended by it otherwise. *)
Lemma save_to_cache_projects (pes : nat) (c : dict Tensor) (name : string)
    (kx : Tensor) :
  slot_fits c name kx ->
  exists t, save_to_cache pes c name kx = Ok (dict_set name t c, t)
            /\ t_batch t = t_batch kx /\ t_feat t = t_feat kx
            /\ (pes < t_seq kx -> t = kx).
Proof.
  unfold slot_fits. intros Hfit.
  destruct (dict_get name c) as [old|] eqn:Hget.
  - destruct (Nat.lt_ge_cases pes (t_seq kx)) as [Hlt|Hge].
    + exists kx. split; [apply save_to_cache_as_is; now right|]. tauto.
    + destruct (Hfit old eq_refl) as [Hb Hd].
      rewrite (@save_to_cache_append pes c name old kx Hget Hge).
      rewrite torch_cat_dim1_ok by assumption. cbn [bind].
      eexists. split; [reflexivity|]. cbn [t_batch t_feat].
      repeat split; try assumption. lia.
  - exists kx. split; [|tauto].
    apply save_to_cache_as_is. left. unfold dict_mem. now rewrite Hget.
Qed.


(* ================================================================== *)
(** * One call of an attention layer *)
(* ================================================================== *)

Lemma head_key_set (V : Type) (k : string) (v : V) (c : dict V) :
  head_key (dict_set k v c)
  = Some (match head_key c with Some k0 => k0 | None => k end).
Proof.
  destruct c as [|[k0 v0] c]; [reflexivity|]. simpl.
  destruct (String.eqb k k0) eqn:E; [|reflexivity].
  apply String.eqb_eq in E. now subst.
Qed.

Lemma k_name_not_v_name (idx idx' : string) : k_name idx <> v_name idx'.
Proof. unfold k_name, v_name. simpl. discriminate. Qed.

Lemma slot_has_set_other (c : dict Tensor) (name name' : string) (t : Tensor)
    (b s d : nat) :
  name' <> name -> slot_has c name b s d ->
  slot_has (dict_set name' t c) name b s d.
Proof. intros Hne. unfold slot_has. now rewrite dict_get_set_neq. Qed.

Lemma slot_fits_set_other (c : dict Tensor) (name name' : string)
    (t kx : Tensor) :
  name' <> name -> slot_fits c name kx ->
  slot_fits (dict_set name' t c) name kx.
Proof. intros Hne. unfold slot_fits. now rewrite dict_get_set_neq. Qed.

(** Self-attention: [xa] is not passed, both slots grow by the positions
    of [x]. *)
Lemma attention_forward_self (pes : nat) (am : MultiHeadAttention)
    (x : Tensor) (mask : option Mask) (c : dict Tensor) (idx : string)
    (b s n d : nat) :
  attention_dims am -> has_shape x b n d -> n <= pes ->
  slot_has c (k_name idx) b s d -> slot_has c (v_name idx) b s d ->
  exists tk tv y,
    attention_forward pes am x None mask (Some c) idx
    = Ok (y, Some (dict_set (v_name idx) tv (dict_set (k_name idx) tk c)))
    /\ has_shape tk b (s + n) d /\ has_shape tv b (s + n) d
    /\ has_shape y b n d.
Proof.
  intros (Hq & Hk & Hv & Ho & Hqkv) Hx Hn Hsk Hsv.
  unfold attention_forward.
  destruct (@save_to_cache_grows pes c (k_name idx) (key am x) b s n d Hsk)
    as (tk & Ek & Htk); [now apply keeps_shape_has | exact Hn |].
  rewrite Ek. cbn [bind].
  destruct (@save_to_cache_grows pes (dict_set (k_name idx) tk c) (v_name idx)
              (value am x) b s n d)
    as (tv & Ev & Htv);
    [apply slot_has_set_other; [apply k_name_not_v_name | exact Hsv]
    | now apply keeps_shape_has | exact Hn |].
  rewrite Ev. cbn [bind].
  destruct (qkv_attention am (query am x) tk tv mask) as [wv qk] eqn:Eqkv.
  exists tk, tv, (out am wv). split; [reflexivity|].
  split; [exact Htk|]. split; [exact Htv|].
  apply keeps_shape_has; [exact Ho|]. apply shape_has_shape.
  change wv with (fst (wv, qk)). rewrite <- Eqkv, Hqkv.
  apply shape_has_shape. now apply keeps_shape_has.
Qed.

(** Cross-attention: both projections of [xa] are computed and stored on
    every call. *)
Lemma attention_forward_cross (pes : nat) (am : MultiHeadAttention)
    (x xa : Tensor) (c : dict Tensor) (idx : string) (b n d : nat) :
  attention_dims am -> has_shape x b n d ->
  slot_fits c (k_name idx) (key am xa) ->
  slot_fits c (v_name idx) (value am xa) ->
  exists tk tv y,
    attention_forward pes am x (Some xa) None (Some c) idx
    = Ok (y, Some (dict_set (v_name idx) tv (dict_set (k_name idx) tk c)))
    /\ (t_batch tk = t_batch (key am xa) /\ t_feat tk = t_feat (key am xa)
        /\ (pes < t_seq (key am xa) -> tk = key am xa))
    /\ (t_batch tv = t_batch (value am xa) /\ t_feat tv = t_feat (value am xa)
        /\ (pes < t_seq (value am xa) -> tv = value am xa))
    /\ has_shape y b n d.
Proof.
  intros (Hq & Hk & Hv & Ho & Hqkv) Hx Hfk Hfv.
  unfold attention_forward.
  destruct (@save_to_cache_projects pes c (k_name idx) (key am xa) Hfk)
    as (tk & Ek & Htk).
  rewrite Ek. cbn [bind].
  destruct (@save_to_cache_projects pes (dict_set (k_name idx) tk c)
              (v_name idx) (value am xa))
    as (tv & Ev & Htv);
    [apply slot_fits_set_other; [apply k_name_not_v_name | exact Hfv]|].
  rewrite Ev. cbn [bind].
  unfold dict_get_default.
  rewrite dict_get_set_eq, dict_get_set_eq.
  destruct (qkv_attention am (query am x) tk tv None) as [wv qk] eqn:Eqkv.
  exists tk, tv, (out am wv). split; [reflexivity|].
  split; [exact Htk|]. split; [exact Htv|].
  apply keeps_shape_has; [exact Ho|]. apply shape_has_shape.
  change wv with (fst (wv, qk)). rewrite <- Eqkv, Hqkv.
  apply shape_has_shape. now apply keeps_shape_has.
Qed.


(* ================================================================== *)
(** * One block *)
(* ================================================================== *)

Lemma self_k_in_slots (i : nat) : In (k_name (self_idx i)) (block_slots i).
Proof. simpl. tauto. Qed.
Lemma self_v_in_slots (i : nat) : In (v_name (self_idx i)) (block_slots i).
Proof. simpl. tauto. Qed.
Lemma cross_k_in_slots (i : nat) : In (k_name (cross_idx i)) (block_slots i).
Proof. simpl. tauto. Qed.
Lemma cross_v_in_slots (i : nat) : In (v_name (cross_idx i)) (block_slots i).
Proof. simpl. tauto. Qed.

Lemma self_not_cross (i : nat) (a1 a2 : string -> string) :
  (a1 = k_name \/ a1 = v_name) -> (a2 = k_name \/ a2 = v_name) ->
  a1 (self_idx i) <> a2 (cross_idx i).
Proof.
  intros [-> | ->] [-> | ->]; slot_names_differ.
Qed.

(** What two dictionaries that agree on the slots of a block share. *)
Lemma block_ready_frame (b : ResidualAttentionBlock) (i : nat) (xa : Tensor)
    (c c' : dict Tensor) (bt s d : nat) :
  (forall name, In name (block_slots i) -> dict_get name c' = dict_get name c) ->
  block_ready b i xa c bt s d -> block_ready b i xa c' bt s d.
Proof.
  intros Hsame (Hk & Hv & Hc). unfold block_ready, slot_has, slot_fits in *.
  rewrite !Hsame by (simpl; tauto). auto.
Qed.

Lemma block_done_frame (pes : nat) (b : ResidualAttentionBlock) (i : nat)
    (xa : Tensor) (c c' : dict Tensor) (bt s d : nat) :
  (forall name, In name (block_slots i) -> dict_get name c' = dict_get name c) ->
  block_done pes b i xa c bt s d -> block_done pes b i xa c' bt s d.
Proof.
  intros Hsame (Hself & Hc). unfold block_done, slot_projects in *.
  rewrite !Hsame by (simpl; tauto). auto.
Qed.

Lemma block_done_ready (pes : nat) (b : ResidualAttentionBlock) (i : nat)
    (xa : Tensor) (c : dict Tensor) (bt s d : nat) :
  block_done pes b i xa c bt s d -> block_ready b i xa c bt s d.
Proof.
  intros ((tk & tv & Ek & Ev & Hk & Hv) & Hc).
  unfold block_ready, slot_has. rewrite Ek, Ev.
  split; [exact Hk|]. split; [exact Hv|].
  intros ca Hca. destruct (Hc ca Hca) as [(t1 & E1 & B1 & F1 & _) (t2 & E2 & B2 & F2 & _)].
  unfold slot_fits. rewrite E1, E2.
  split; intros t [= <-]; now split.
Qed.

(** [block_forward] on a block that is ready: the block is done, with
    [n] more positions in its self-attention slots, no other key of the
    dictionary has changed, and the output has the shape of the input. *)
Lemma block_forward_step (pes : nat) (b : ResidualAttentionBlock) (i : nat)
    (x xa : Tensor) (mask : option Mask) (c : dict Tensor) (bt s n d : nat) :
  block_dims b -> has_shape x bt n d -> n <= pes ->
  block_ready b i xa c bt s d ->
  exists y c',
    block_forward pes b x (Some xa) mask (Some c) i = Ok (y, Some c')
    /\ has_shape y bt n d
    /\ (forall name, ~ In name (block_slots i) ->
                     dict_get name c' = dict_get name c)
    /\ block_done pes b i xa c' bt (s + n) d
    /\ head_key c'
       = Some (match head_key c with
               | Some k0 => k0
               | None => k_name (self_idx i)
               end).
Proof.
  intros (Hattn & Hln & Hcross & Hcln & Hmlp & Hmln) Hx Hn (Hsk & Hsv & Hfit).
  unfold block_forward.
  destruct (@attention_forward_self pes (attn b) (attn_ln b x) mask c
              (self_idx i) bt s n d Hattn)
    as (tk & tv & x0 & E0 & Htk & Htv & Hx0);
    [now apply keeps_shape_has | assumption..|].
  rewrite E0. cbn [bind].
  destruct (@tensor_add_has_shape x x0 bt n d Hx Hx0) as (x1 & E1 & Hx1).
  rewrite E1. cbn [bind].
  set (c1 := dict_set (v_name (self_idx i)) tv
               (dict_set (k_name (self_idx i)) tk c)).
  assert (Hc1k : dict_get (k_name (self_idx i)) c1 = Some tk).
  { unfold c1. rewrite dict_get_set_neq
      by (intros E; symmetry in E; revert E; apply k_name_not_v_name).
    apply dict_get_set_eq. }
  assert (Hc1v : dict_get (v_name (self_idx i)) c1 = Some tv)
    by apply dict_get_set_eq.
  assert (Hc1o : forall name, name <> k_name (self_idx i) ->
                   name <> v_name (self_idx i) ->
                   dict_get name c1 = dict_get name c).
  { intros name H1 H2. unfold c1.
    rewrite !dict_get_set_neq by congruence. reflexivity. }
  assert (Hc1h : head_key c1
                 = Some (match head_key c with
                         | Some k0 => k0
                         | None => k_name (self_idx i)
                         end)).
  { unfold c1. rewrite !head_key_set. now destruct (head_key c). }
  destruct (cross_attn b) as [ca|] eqn:Eca.
  - destruct (Hfit ca eq_refl) as [Hfk Hfv].
    destruct (@attention_forward_cross pes ca (cross_attn_ln b x1) xa c1
                (cross_idx i) bt n d (Hcross ca eq_refl))
      as (ck & cv & x2 & E2 & Hck & Hcv & Hx2).
    + now apply keeps_shape_has.
    + unfold slot_fits. rewrite Hc1o; [exact Hfk | |];
        intros E; symmetry in E; revert E; apply self_not_cross; auto.
    + unfold slot_fits. rewrite Hc1o; [exact Hfv | |];
        intros E; symmetry in E; revert E; apply self_not_cross; auto.
    + rewrite E2. cbn [bind].
      destruct (@tensor_add_has_shape x1 x2 bt n d Hx1 Hx2) as (x3 & E3 & Hx3).
      rewrite E3. cbn [bind].
      destruct (@tensor_add_has_shape x3 (mlp b (mlp_ln b x3)) bt n d Hx3)
        as (x4 & E4 & Hx4); [now repeat apply keeps_shape_has|].
      rewrite E4. cbn [bind].
      eexists. eexists. split; [reflexivity|].
      split; [exact Hx4|].
      assert (Hkv : k_name (cross_idx i) <> v_name (cross_idx i))
        by apply k_name_not_v_name.
      split; [|split; [split|]].
      * intros name Hname. simpl in Hname.
        rewrite !dict_get_set_neq by (intros E; apply Hname; subst; tauto).
        apply Hc1o; intros E; apply Hname; subst; tauto.
      * exists tk, tv.
        rewrite !dict_get_set_neq by (apply not_eq_sym, self_not_cross; auto).
        auto.
      * intros ca' Hca'. rewrite Eca in Hca'. injection Hca' as <-. split.
        -- exists ck. rewrite dict_get_set_neq by congruence.
           rewrite dict_get_set_eq. tauto.
        -- exists cv. rewrite dict_get_set_eq. tauto.
      * rewrite !head_key_set, Hc1h. reflexivity.
  - cbn [bind].
    destruct (@tensor_add_has_shape x1 (mlp b (mlp_ln b x1)) bt n d Hx1)
      as (x4 & E4 & Hx4); [now repeat apply keeps_shape_has|].
    rewrite E4. cbn [bind].
    eexists. eexists. split; [reflexivity|].
    split; [exact Hx4|].
    split; [|split; [split|]].
    + intros name Hname. simpl in Hname.
      apply Hc1o; intros E; apply Hname; subst; tauto.
    + exists tk, tv. auto.
    + intros ca' Hca'. rewrite Eca in Hca'. discriminate Hca'.
    + exact Hc1h.
Qed.


(* ================================================================== *)
(** * The loop over the blocks *)
(* ================================================================== *)

Lemma blocks_forward_step (pes : nat) (bs : list ResidualAttentionBlock) :
  forall (i : nat) (x xa : Tensor) (mask : option Mask) (c : dict Tensor)
         (bt s n d : nat),
  Forall block_dims bs -> has_shape x bt n d -> n <= pes ->
  (forall j b, nth_error bs j = Some b -> block_ready b (i + j) xa c bt s d) ->
  exists y c',
    blocks_forward pes bs i x (Some xa) mask (Some c) = Ok (y, Some c')
    /\ has_shape y bt n d
    /\ (forall name,
          (forall j, j < List.length bs -> ~ In name (block_slots (i + j))) ->
          dict_get name c' = dict_get name c)
    /\ (forall j b, nth_error bs j = Some b ->
                    block_done pes b (i + j) xa c' bt (s + n) d)
    /\ head_key c'
       = match bs with
         | [] => head_key c
         | _ :: _ => Some (match head_key c with
                           | Some k0 => k0
                           | None => k_name (self_idx i)
                           end)
         end.
Proof.
  induction bs as [|b bs IH]; intros i x xa mask c bt s n d Hdims Hx Hn Hready.
  - exists x, c. cbn [blocks_forward]. split; [reflexivity|].
    split; [exact Hx|]. split; [reflexivity|].
    split; [|reflexivity]. intros j b Hj. now destruct j.
  - inversion Hdims as [|? ? Hb Hbs]; subst.
    cbn [blocks_forward].
    destruct (@block_forward_step pes b i x xa mask c bt s n d Hb Hx Hn)
      as (x1 & c1 & E1 & Hx1 & Hframe1 & Hdone1 & Hhead1).
    { specialize (Hready 0 b eq_refl). now rewrite Nat.add_0_r in Hready. }
    rewrite E1. cbn [bind].
    destruct (IH (S i) x1 xa mask c1 bt s n d Hbs Hx1 Hn)
      as (y & c' & E & Hy & Hframe & Hdone & Hhead).
    { intros j b' Hj.
      apply block_ready_frame with (c := c).
      - intros name Hname. apply Hframe1.
        apply (@block_slots_apart (S i + j) i); [lia | exact Hname].
      - specialize (Hready (S j) b' Hj).
        now rewrite Nat.add_succ_r in Hready. }
    exists y, c'. split; [exact E|]. split; [exact Hy|].
    split; [|split].
    + intros name Hname. rewrite Hframe.
      * apply Hframe1. specialize (Hname 0 ltac:(simpl; lia)).
        now rewrite Nat.add_0_r in Hname.
      * intros j Hj. specialize (Hname (S j) ltac:(simpl; lia)).
        now rewrite Nat.add_succ_r in Hname.
    + intros [|j] b' Hj.
      * injection Hj as <-. rewrite Nat.add_0_r.
        apply block_done_frame with (c := c1); [|exact Hdone1].
        intros name Hname. apply Hframe. intros j Hj.
        apply (@block_slots_apart i (S i + j)); [lia | exact Hname].
      * rewrite Nat.add_succ_r. now apply (Hdone j b').
    + rewrite Hhead, Hhead1. now destruct bs.
Qed.

(* ================================================================== *)
(** * One step of the decoder, and a run *)
(* ================================================================== *)

Lemma py_slice_length (A : Type) (i n : nat) (l : list A) :
  i + n <= List.length l -> List.length (py_slice i (i + n) l) = n.
Proof.
  intros H. unfold py_slice.
  rewrite length_firstn, length_skipn. lia.
Qed.

Lemma run_done_inv (decoder : TextDecoder) (xa : Tensor) (c : dict Tensor)
    (bt s d : nat) :
  run_done decoder xa c bt s d -> run_inv decoder xa c bt s d.
Proof.
  intros [Hhead Hdone]. split; [exact Hhead|].
  intros j b Hj. eapply block_done_ready. now apply Hdone.
Qed.

Lemma run_inv_offset (decoder : TextDecoder) (xa : Tensor) (c : dict Tensor)
    (bt s d : nat) :
  run_inv decoder xa c bt s d ->
  match c with
  | (_, t) :: _ => t_seq t
  | [] => 0
  end <= s.
Proof.
  intros [[-> | [Hne Hhead]] Hready]; [lia|].
  destruct c as [|[k t] c]; [lia|]. injection Hhead as ->.
  destruct (blocks decoder) as [|b bs] eqn:Eb; [congruence|].
  destruct (Hready 0 b eq_refl) as (Hk & _ & _).
  unfold slot_has in Hk. cbn [dict_get] in Hk.
  rewrite String.eqb_refl in Hk. destruct Hk as (_ & -> & _). lia.
Qed.

Lemma decoder_forward_step (decoder : TextDecoder) (n_state : nat)
    (x : Tokens) (xa : Tensor) (c : dict Tensor) (s : nat) :
  whisper_dims decoder n_state ->
  s + tok_len x <= positional_embeddings_size decoder ->
  run_inv decoder xa c (tok_batch x) s n_state ->
  exists lg c',
    decoder_forward decoder x (Some xa) (Some c) = Ok (lg, Some c')
    /\ run_done decoder xa c' (tok_batch x) (s + tok_len x) n_state.
Proof.
  intros [Hemb Hdims] Hctx Hinv.
  pose proof (run_inv_offset Hinv) as Hoff.
  destruct Hinv as [Hhead Hready].
  unfold decoder_forward.
  set (offset := match c with (_, t) :: _ => t_seq t | [] => 0 end) in *.
  assert (Hx0 : has_shape (token_embedding decoder x) (tok_batch x)
                  (tok_len x) n_state) by (apply shape_has_shape, Hemb).
  unfold add_positional.
  rewrite py_slice_length by (unfold positional_embeddings_size in Hctx; lia).
  destruct Hx0 as (Hb0 & Hs0 & Hd0).
  rewrite Hs0, Nat.eqb_refl. cbn [bind dtype_of].
  match goal with
  | |- context [blocks_forward ?p ?bs 0 ?x0 _ ?m _] =>
      destruct (@blocks_forward_step p bs 0 x0 xa m c (tok_batch x) s
                  (tok_len x) n_state Hdims)
        as (y & c' & E & Hy & Hframe & Hdone & Hhead')
  end.
  - now repeat split.
  - lia.
  - intros j b Hj. now apply Hready.
  - rewrite E. cbn [bind]. eexists. exists c'. split; [reflexivity|].
    split; [|exact Hdone].
    destruct (blocks decoder) as [|b bs] eqn:Eb.
    + left. cbn [blocks_forward] in E. injection E as _ <-.
      destruct Hhead as [-> | [Hne _]]; [reflexivity | congruence].
    + right. split; [discriminate|]. rewrite Hhead'.
      destruct Hhead as [-> | [_ ->]]; reflexivity.
Qed.

Lemma run_inv_start (decoder : TextDecoder) (xa : Tensor) (bt d : nat) :
  run_inv decoder xa [] bt 0 d.
Proof.
  split; [now left|]. intros j b _.
  unfold block_ready, slot_has, slot_fits. cbn [dict_get].
  repeat split; try reflexivity; intros; discriminate.
Qed.

(** A run that stays within the positional table returns, with every
    block done for the positions supplied. *)
Lemma run_steps_done (decoder : TextDecoder) (n_state : nat) (xa : Tensor)
    (bt : nat) (steps : list Tokens) :
  whisper_dims decoder n_state ->
  Forall (fun x => tok_batch x = bt) steps ->
  forall (x : Tokens) (c : dict Tensor) (s : nat),
    tok_batch x = bt ->
    s + positions (x :: steps) <= positional_embeddings_size decoder ->
    run_inv decoder xa c bt s n_state ->
    exists c',
      run_steps decoder (Some xa) (x :: steps) (Some c) = Ok (Some c')
      /\ run_done decoder xa c' bt (s + positions (x :: steps)) n_state.
Proof.
  intros Hdims Hbatch.
  induction Hbatch as [|x' steps Hx' _ IH]; intros x c s Hx Hctx Hinv;
    unfold positions, list_sum in *; cbn [map fold_right] in *.
  - destruct (@decoder_forward_step decoder n_state x xa c s Hdims)
      as (lg & c' & E & Hdone); [lia | now rewrite Hx |].
    cbn [run_steps]. rewrite E. cbn [bind].
    exists c'. split; [reflexivity|].
    rewrite Hx in Hdone. now rewrite Nat.add_0_r.
  - destruct (@decoder_forward_step decoder n_state x xa c s Hdims)
      as (lg & c1 & E & Hdone); [lia | now rewrite Hx |].
    rewrite Hx in Hdone.
    destruct (IH x' c1 (s + tok_len x) Hx') as (c' & E' & Hdone').
    + lia.
    + now apply run_done_inv.
    + exists c'. split.
      * change (run_steps decoder (Some xa) (x :: x' :: steps) (Some c))
          with ('(_, kv) <- decoder_forward decoder x (Some xa) (Some c) ;;
                run_steps decoder (Some xa) (x' :: steps) kv).
        rewrite E. exact E'.
      * now rewrite Nat.add_assoc.
Qed.


(* ================================================================== *)
(** * The cache along a run *)
(* ================================================================== *)

(** C1.  A run starts on the empty cache and calls the decoder once per
    element of [first :: rest], with the same encoder features and the
    same batch size; it stays within the context bound, that is, the
    positions supplied sum to at most the size of the positional table, so
    that no store replaces a slot.  Such a run returns, and each
    self-attention slot of each block then holds as many positions as the
    steps supplied. *)
Theorem self_attention_length (decoder : TextDecoder) (n_state : nat)
    (xa : Tensor) (bt : nat) (first : Tokens) (rest : list Tokens) :
  whisper_dims decoder n_state ->
  Forall (fun x => tok_batch x = bt) (first :: rest) ->
  positions (first :: rest) <= positional_embeddings_size decoder ->
  exists c,
    run_steps decoder (Some xa) (first :: rest) (Some []) = Ok (Some c)
    /\ forall j, j < List.length (blocks decoder) ->
         exists tk tv,
           dict_get (k_name (self_idx j)) c = Some tk
           /\ dict_get (v_name (self_idx j)) c = Some tv
           /\ t_seq tk = positions (first :: rest)
           /\ t_seq tv = positions (first :: rest).
Proof.
  intros Hdims Hbatch Hctx.
  inversion Hbatch as [|? ? Hfirst Hrest]; subst.
  destruct (@run_steps_done decoder n_state xa (tok_batch first) rest Hdims Hrest
              first [] 0 eq_refl Hctx (run_inv_start decoder xa _ _))
    as (c & E & _ & Hdone).
  exists c. split; [exact E|].
  intros j Hj. destruct (nth_error (blocks decoder) j) as [b|] eqn:Eb.
  - destruct (Hdone j b Eb) as ((tk & tv & Ek & Ev & Hk & Hv) & _).
    exists tk, tv. destruct Hk as (_ & Hk & _), Hv as (_ & Hv & _).
    cbn [Nat.add] in Hk, Hv. auto.
  - apply nth_error_None in Eb. lia.
Qed.

Lemma ex_decoder_dims : whisper_dims ex_decoder 1.
Proof.
  split; [reflexivity|]. constructor; [|constructor].
  assert (Ha : attention_dims ex_attention) by (repeat split).
  unfold block_dims. cbn [ex_block attn attn_ln cross_attn cross_attn_ln mlp mlp_ln].
  split; [exact Ha|]. split; [intros t; reflexivity|].
  split; [intros ca' [= <-]; exact Ha|].
  repeat split.
Qed.

Lemma self_attention_length_witness :
  exists c tk,
    run_steps ex_decoder (Some ex_features) [ex_step1; ex_step2] (Some [])
    = Ok (Some c)
    /\ dict_get "k_0a" c = Some tk /\ t_seq tk = 2.
Proof.
  destruct (@self_attention_length ex_decoder 1 ex_features 1 ex_step1
              [ex_step2] ex_decoder_dims)
    as (c & E & Hslots).
  - repeat constructor.
  - vm_compute. lia.
  - destruct (Hslots 0 ltac:(simpl; lia)) as (tk & tv & Ek & _ & Hk & _).
    exists c, tk. repeat split; assumption.
Defined.

(** X13.  Every call of a cross-attention layer computes both
    projections of the encoder features it is given and stores them; a
    projection longer than the positional table is stored as it is.
    Hence, in a run within the context bound whose steps all supply the
    same features, with projections longer than the table, a
    cross-attention slot holds after the last step what it held after the
    first: the projection of the features. *)
Theorem cross_attention_stable (decoder : TextDecoder) (n_state : nat)
    (xa : Tensor) (bt : nat) (first : Tokens) (rest : list Tokens) :
  whisper_dims decoder n_state ->
  Forall (fun x => tok_batch x = bt) (first :: rest) ->
  positions (first :: rest) <= positional_embeddings_size decoder ->
  forall j b ca,
    nth_error (blocks decoder) j = Some b -> cross_attn b = Some ca ->
    positional_embeddings_size decoder < t_seq (key ca xa) ->
    positional_embeddings_size decoder < t_seq (value ca xa) ->
    exists c1 cn,
      run_steps decoder (Some xa) [first] (Some []) = Ok (Some c1)
      /\ run_steps decoder (Some xa) (first :: rest) (Some []) = Ok (Some cn)
      /\ dict_get (k_name (cross_idx j)) c1 = Some (key ca xa)
      /\ dict_get (v_name (cross_idx j)) c1 = Some (value ca xa)
      /\ dict_get (k_name (cross_idx j)) cn = dict_get (k_name (cross_idx j)) c1
      /\ dict_get (v_name (cross_idx j)) cn = dict_get (v_name (cross_idx j)) c1.
Proof.
  intros Hdims Hbatch Hctx j b ca Hb Hca Hk Hv.
  inversion Hbatch as [|? ? Hfirst Hrest]; subst.
  assert (Hctx1 : positions [first] <= positional_embeddings_size decoder).
  { unfold positions, list_sum in *. cbn [map fold_right] in *. lia. }
  destruct (@run_steps_done decoder n_state xa (tok_batch first) [] Hdims
              (Forall_nil _) first [] 0 eq_refl Hctx1
              (run_inv_start decoder xa _ _))
    as (c1 & E1 & _ & Hdone1).
  destruct (@run_steps_done decoder n_state xa (tok_batch first) rest Hdims Hrest
              first [] 0 eq_refl Hctx (run_inv_start decoder xa _ _))
    as (cn & En & _ & Hdonen).
  exists c1, cn. split; [exact E1|]. split; [exact En|].
  destruct (Hdone1 j b Hb) as (_ & Hc1). destruct (Hc1 ca Hca) as
    [(t1 & Ek1 & _ & _ & Hk1) (t2 & Ev1 & _ & _ & Hv1)].
  destruct (Hdonen j b Hb) as (_ & Hcn). destruct (Hcn ca Hca) as
    [(t3 & Ekn & _ & _ & Hkn) (t4 & Evn & _ & _ & Hvn)].
  rewrite Ek1, Ev1, Ekn, Evn.
  rewrite (Hk1 Hk), (Hv1 Hv), (Hkn Hk), (Hvn Hv). auto.
Qed.

Lemma cross_attention_stable_witness :
  exists c1 cn,
    run_steps ex_decoder (Some ex_features) [ex_step1] (Some []) = Ok (Some c1)
    /\ run_steps ex_decoder (Some ex_features) [ex_step1; ex_step2] (Some [])
       = Ok (Some cn)
    /\ dict_get "k_0c" c1 = Some ex_features
    /\ dict_get "k_0c" cn = dict_get "k_0c" c1.
Proof.
  destruct (@cross_attention_stable ex_decoder 1 ex_features 1 ex_step1
              [ex_step2] ex_decoder_dims)
    with (j := 0) (b := ex_block) (ca := ex_attention)
    as (c1 & cn & E1 & En & Hk1 & _ & Hkn & _);
    try reflexivity.
  - repeat constructor.
  - vm_compute. lia.
  - vm_compute. lia.
  - exists c1, cn. repeat split; assumption.
Defined.

(** C2.  The comment in [attention_forward] says that for
    cross-attention the keys and values are calculated once and reused in
    subsequent calls, but [save_to_cache] is the default argument of
    [kv_cache.get] and is evaluated on every call.  The slot is therefore
    computed and stored again on every step: a second step that is given
    other features leaves their projection in the slot; and when the
    projection is not longer than the positional table, a second step
    with the same features extends the slot by it. *)
Lemma cross_attention_recomputed :
  (exists c1 c2,
      run_steps ex_decoder (Some ex_features) [ex_step1] (Some []) = Ok (Some c1)
      /\ run_steps ex_decoder (Some ex_features') [ex_step2] (Some c1)
         = Ok (Some c2)
      /\ dict_get "k_0c" c1 = Some ex_features
      /\ dict_get "k_0c" c2 = Some ex_features'
      /\ ex_features' <> ex_features)
  /\ (exists c1 c2 t2,
         run_steps ex_decoder (Some ex_short_features) [ex_step1] (Some [])
         = Ok (Some c1)
         /\ run_steps ex_decoder (Some ex_short_features) [ex_step1; ex_step2]
              (Some []) = Ok (Some c2)
         /\ dict_get "k_0c" c1 = Some ex_short_features
         /\ dict_get "k_0c" c2 = Some t2
         /\ t_seq t2 = 2 /\ t2 <> ex_short_features).
Proof.
  split.
  - eexists. eexists. split; [vm_compute; reflexivity|].
    split; [vm_compute; reflexivity|].
    split; [reflexivity|]. split; [reflexivity|].
    intros H.
    apply (f_equal (fun t => match t_rows t with
                             | ((x :: _) :: _) :: _ => PrimFloat.eqb x 8
                             | _ => false
                             end)) in H.
    vm_compute in H. discriminate H.
  - eexists. eexists. eexists. split; [vm_compute; reflexivity|].
    split; [vm_compute; reflexivity|].
    split; [reflexivity|]. split; [reflexivity|].
    split; [reflexivity|]. intros H. discriminate H.
Qed.


(* ================================================================== *)
(** * The cache along the calls of [logits] *)
(* ================================================================== *)

Lemma logits_torch (self : OpenVINOInference) (decoder : TextDecoder)
    (tokens : Tokens) (xa : option Tensor) (h : Heap) (c c' : dict Tensor)
    (lg : Tensor) :
  model_decoder self = TorchDecoder decoder ->
  heap_get (self_kv_cache self) h = Some c ->
  decoder_forward decoder (supplied_tokens self tokens) xa (Some c)
  = Ok (lg, Some c') ->
  logits self tokens xa h
  = Ok (Some lg, self, heap_set (self_kv_cache self) c' h).
Proof.
  intros Hm Hget Hstep. unfold logits, call_decoder.
  rewrite Hm, Hget, Hstep. cbn [bind]. rewrite <- Hm. now destruct self.
Qed.

Lemma supplied_tokens_batch (self : OpenVINOInference) (tokens : Tokens) :
  tok_batch (supplied_tokens self tokens) = tok_batch tokens.
Proof. unfold supplied_tokens. now destruct (_ <? _). Qed.

Lemma supplied_tokens_first (self : OpenVINOInference) (tokens : Tokens) :
  tok_len tokens <= initial_token_length self ->
  supplied_tokens self tokens = tokens.
Proof.
  intros H. unfold supplied_tokens.
  destruct (Nat.ltb_spec (initial_token_length self) (tok_len tokens));
    [lia | reflexivity].
Qed.

Lemma supplied_tokens_later (self : OpenVINOInference) (tokens : Tokens) :
  initial_token_length self < tok_len tokens ->
  tok_len (supplied_tokens self tokens) = 1.
Proof.
  intros H. unfold supplied_tokens.
  destruct (Nat.ltb_spec (initial_token_length self) (tok_len tokens));
    [|lia].
  cbn [last_token tok_len]. lia.
Qed.

Lemma logits_run_done (decoder : TextDecoder) (n_state : nat) (xa : Tensor)
    (self : OpenVINOInference) (bt : nat) (calls : list Tokens) :
  model_decoder self = TorchDecoder decoder ->
  whisper_dims decoder n_state ->
  Forall (fun x => tok_batch x = bt) calls ->
  forall (x : Tokens) (h : Heap) (c : dict Tensor) (s : nat),
    tok_batch x = bt ->
    heap_get (self_kv_cache self) h = Some c ->
    s + positions (map (supplied_tokens self) (x :: calls))
    <= positional_embeddings_size decoder ->
    run_inv decoder xa c bt s n_state ->
    exists h' c',
      logits_run self (Some xa) (x :: calls) h = Ok (self, h')
      /\ heap_get (self_kv_cache self) h' = Some c'
      /\ run_done decoder xa c' bt
           (s + positions (map (supplied_tokens self) (x :: calls))) n_state.
Proof.
  intros Hm Hdims Hbatch.
  induction Hbatch as [|x' calls Hx' _ IH]; intros x h c s Hx Hget Hctx Hinv;
    unfold positions, list_sum in *; cbn [map fold_right] in *;
    (destruct (@decoder_forward_step decoder n_state (supplied_tokens self x)
                 xa c s Hdims)
      as (lg & c1 & E & Hdone);
     [lia | now rewrite supplied_tokens_batch, Hx |]);
    rewrite supplied_tokens_batch, Hx in Hdone;
    pose proof (@logits_torch self decoder x (Some xa) h c c1 lg Hm Hget E) as Hcall;
    pose proof (@heap_get_set_same (self_kv_cache self) c1 h
                  (@heap_get_bound _ _ _ Hget)) as Hget1.
  - exists (heap_set (self_kv_cache self) c1 h), c1.
    cbn [logits_run]. rewrite Hcall. cbn [bind].
    split; [reflexivity|]. split; [exact Hget1|]. now rewrite Nat.add_0_r.
  - destruct (IH x' (heap_set (self_kv_cache self) c1 h) c1
                (s + tok_len (supplied_tokens self x)) Hx' Hget1)
      as (h' & c' & E' & Hget' & Hdone').
    + lia.
    + now apply run_done_inv.
    + exists h', c'. split; [|split; [exact Hget'|now rewrite Nat.add_assoc]].
      change (logits_run self (Some xa) (x :: x' :: calls) h)
        with ('(_, self0, h0) <- logits self x (Some xa) h ;;
              logits_run self0 (Some xa) (x' :: calls) h0).
      rewrite Hcall. exact E'.
Qed.

(** C1 through [OpenVINOInference.logits] on the patched decoder: the
    decoding loop passes all the tokens on every call, [logits] supplies
    the prompt on the first call and the last token afterwards, and the
    self-attention slots then hold the prompt and one position per later
    call. *)
Lemma logits_run_length (decoder : TextDecoder) (n_state : nat) (xa : Tensor)
    (self : OpenVINOInference) (h : Heap) (first : Tokens)
    (rest : list Tokens) :
  model_decoder self = TorchDecoder decoder ->
  whisper_dims decoder n_state ->
  heap_get (self_kv_cache self) h = Some [] ->
  tok_len first <= initial_token_length self ->
  Forall (fun x => tok_batch x = tok_batch first
                   /\ initial_token_length self < tok_len x) rest ->
  tok_len first + List.length rest <= positional_embeddings_size decoder ->
  exists h' c,
    logits_run self (Some xa) (first :: rest) h = Ok (self, h')
    /\ heap_get (self_kv_cache self) h' = Some c
    /\ forall j, j < List.length (blocks decoder) ->
         exists tk tv,
           dict_get (k_name (self_idx j)) c = Some tk
           /\ dict_get (v_name (self_idx j)) c = Some tv
           /\ t_seq tk = tok_len first + List.length rest
           /\ t_seq tv = tok_len first + List.length rest.
Proof.
  intros Hm Hdims Hget Hfirst Hrest Hctx.
  assert (Hpos : positions (map (supplied_tokens self) (first :: rest))
                 = tok_len first + List.length rest).
  { unfold positions, list_sum. cbn [map fold_right].
    rewrite supplied_tokens_first by exact Hfirst. f_equal.
    clear Hctx. induction Hrest as [|x rest [_ Hx] _ IH]; [reflexivity|].
    cbn [map fold_right List.length].
    rewrite supplied_tokens_later by exact Hx. now rewrite IH. }
  destruct (@logits_run_done decoder n_state xa self (tok_batch first) rest
              Hm Hdims) with (x := first) (h := h) (c := @nil (string * Tensor))
                             (s := 0)
    as (h' & c & E & Hget' & _ & Hdone).
  - eapply Forall_impl; [|exact Hrest]. now intros x [Hx _].
  - reflexivity.
  - exact Hget.
  - rewrite Hpos. exact Hctx.
  - apply run_inv_start.
  - exists h', c. split; [exact E|]. split; [exact Hget'|].
    intros j Hj. destruct (nth_error (blocks decoder) j) as [b|] eqn:Eb.
    + destruct (Hdone j b Eb) as ((tk & tv & Ek & Ev & Hk & Hv) & _).
      exists tk, tv. destruct Hk as (_ & Hk & _), Hv as (_ & Hv & _).
      rewrite Hpos in Hk, Hv. cbn [Nat.add] in Hk, Hv. auto.
    + apply nth_error_None in Eb. lia.
Qed.

Lemma logits_run_sample :
  exists h' c tk,
    logits_run ex_torch_inference (Some ex_features) [ex_step1; ex_prefix2] [[]]
    = Ok (ex_torch_inference, h')
    /\ heap_get 0 h' = Some c
    /\ dict_get "k_0a" c = Some tk /\ t_seq tk = 2.
Proof.
  eexists. eexists. eexists. split; [vm_compute; reflexivity|].
  split; [reflexivity|]. split; reflexivity.
Qed.

(* ================================================================== *)
(** * Calls that raise *)
(* ================================================================== *)

(** Appending to a slot of another batch size is refused by torch. *)
Lemma blocks_forward_batch_mismatch (pes : nat) (b : ResidualAttentionBlock)
    (bs : list ResidualAttentionBlock) (i : nat) (x : Tensor)
    (xa : option Tensor) (mask : option Mask) (c : dict Tensor) (tk : Tensor) :
  block_dims b ->
  dict_get (k_name (self_idx i)) c = Some tk ->
  t_batch tk <> t_batch x -> t_seq x <= pes ->
  blocks_forward pes (b :: bs) i x xa mask (Some c) = Raise RuntimeError.
Proof.
  intros ((_ & Hk & _) & Hln & _) Hget Hne Hn.
  cbn [blocks_forward]. unfold block_forward, attention_forward.
  assert (Hs : shape (key (attn b) (attn_ln b x)) = shape x)
    by (rewrite Hk; apply Hln).
  injection Hs as Hb Hs _.
  rewrite (@save_to_cache_append pes c _ tk _ Hget) by lia.
  rewrite torch_cat_dim1_mismatch by (left; congruence).
  reflexivity.
Qed.

(** C6, as the code has it.  The decoders check nothing themselves.
    Without encoder features the OpenVINO decoder raises Python's
    [AttributeError] before the compiled model runs, and the patched torch
    decoder raises too, on any cache.  With tokens whose batch size differs
    from that of a cache a run has filled, the patched torch decoder raises
    torch's [RuntimeError] when the first self-attention slot is appended
    to, within the context bound.  The OpenVINO decoder hands tokens and
    slots to the compiled model as they are: the call returns exactly when
    the model does.  A call that raises returns nothing. *)
Theorem step_raises (decoder : TextDecoder) (self : OpenVINOTextDecoder)
    (x : Tokens) (kv_cache : option (dict Tensor)) :
  forward self x None kv_cache = Raise AttributeError
  /\ (exists e, decoder_forward decoder x None kv_cache = Raise e
                /\ (e = AttributeError \/ e = RuntimeError))
  /\ (forall n_state xa c bt s,
        whisper_dims decoder n_state -> blocks decoder <> [] ->
        run_done decoder xa c bt s n_state ->
        tok_batch x <> bt ->
        s + tok_len x <= positional_embeddings_size decoder ->
        decoder_forward decoder x (Some xa) (Some c) = Raise RuntimeError)
  /\ (forall xa c,
        c <> [] ->
        forward self x (Some xa) (Some c)
        = (res <- compiled_model self
                    (fold_left (feed_slot (_input_names self)) c
                       [("tokens"%string, OVTokens x);
                        ("audio_features"%string, OVFloat xa)]) ;;
           Ok (postprocess_outputs res))).
Proof.
  split; [reflexivity|]. split; [|split].
  - unfold decoder_forward, add_positional.
    repeat match goal with
           | |- context [if ?b then _ else _] => destruct b
           end; cbn [bind dtype_of]; eexists; (split; [reflexivity|]); tauto.
  - intros n_state xa c bt s [Hemb Hdims] Hblocks Hdone Hbatch Hctx.
    pose proof (run_inv_offset (run_done_inv Hdone)) as Hoff.
    destruct Hdone as [_ Hdone].
    unfold decoder_forward.
    set (offset := match c with (_, t) :: _ => t_seq t | [] => 0 end) in *.
    specialize (Hemb x). injection Hemb as Hb0 Hs0 Hd0.
    unfold add_positional.
    rewrite py_slice_length by (unfold positional_embeddings_size in Hctx; lia).
    rewrite Hs0, Nat.eqb_refl. cbn [bind dtype_of].
    destruct (blocks decoder) as [|b bs] eqn:Eb; [congruence|].
    destruct (Hdone 0 b eq_refl) as ((tk & _ & Ek & _ & (Hbk & _) & _) & _).
    inversion Hdims as [|? ? Hbdims _]; subst.
    erewrite blocks_forward_batch_mismatch; [reflexivity | exact Hbdims
      | exact Ek | cbn [t_batch]; congruence | cbn [t_seq]; lia].
  - intros xa c Hne. unfold forward, forward_feed, preprocess_kv_cache_inputs.
    cbn [numpy_of bind]. destruct c as [|kv c]; [congruence|]. reflexivity.
Qed.

Lemma step_raises_witness :
  forward ex_ov_decoder ex_step1 (Some ex_features) (Some ex_cache)
  = Ok (postprocess_outputs (export_outputs ex_out ex_cache))
  /\ exists c,
       run_steps ex_decoder (Some ex_features) [ex_step1] (Some [])
       = Ok (Some c)
       /\ decoder_forward ex_decoder ex_pair (Some ex_features) (Some c)
          = Raise RuntimeError.
Proof.
  split.
  - apply (proj2 (proj2 (proj2 (step_raises ex_decoder ex_ov_decoder ex_step1
                                  None))) ex_features ex_cache).
    discriminate.
  - destruct (@run_steps_done ex_decoder 1 ex_features 1 [] ex_decoder_dims
                (Forall_nil _) ex_step1 [] 0 eq_refl
                ltac:(vm_compute; lia) (run_inv_start ex_decoder ex_features _ _))
      as (c & E & Hdone).
    exists c. split; [exact E|].
    apply (proj1 (proj2 (proj2 (step_raises ex_decoder ex_ov_decoder ex_pair
                                  None))) 1 ex_features c 1 1 ex_decoder_dims).
    + discriminate.
    + exact Hdone.
    + simpl. lia.
    + vm_compute. lia.
Defined.

(** C6 as the specification words it fails: no batch size is compared.
    The tokens have a batch of one, the cache is not empty and its slots
    have a batch of five; the call returns, and the cache it returns holds
    slots of both batch sizes. *)
Lemma step_without_batch_check :
  tok_batch ex_step1 = 1
  /\ dict_get "k_1a" ex_stale_cache = Some ex_batch5 /\ t_batch ex_batch5 = 5
  /\ exists lg c tk,
       decoder_forward ex_decoder ex_step1 (Some ex_features)
         (Some ex_stale_cache) = Ok (lg, Some c)
       /\ dict_get "k_1a" c = Some ex_batch5
       /\ dict_get "k_0a" c = Some tk /\ t_batch tk = 1.
Proof.
  split; [reflexivity|]. split; [reflexivity|]. split; [reflexivity|].
  eexists. eexists. eexists. split; [vm_compute; reflexivity|].
  split; [reflexivity|]. split; reflexivity.
Qed.


(* ================================================================== *)
(** * What a store leaves alone *)
(* ================================================================== *)

Lemma str_in_keys_mem (V : Type) (k : string) (d : dict V) :
  str_in k (dict_keys d) = dict_mem k d.
Proof.
  destruct (dict_mem k d) eqn:E.
  - apply str_in_In. now apply dict_mem_keys.
  - destruct (str_in k (dict_keys d)) eqn:E'; [|reflexivity].
    apply str_in_In, dict_mem_keys in E'. congruence.
Qed.

Lemma dict_keys_set (V : Type) (k : string) (v : V) (d : dict V) :
  dict_keys (dict_set k v d) = add_key (dict_keys d) k.
Proof.
  unfold add_key. rewrite str_in_keys_mem.
  destruct (dict_mem k d) eqn:E.
  - now apply dict_keys_set_old.
  - now apply dict_keys_set_new.
Qed.

Lemma add_key_NoDup (ks : list string) (k : string) :
  NoDup ks -> NoDup (add_key ks k).
Proof.
  intros H. unfold add_key. destruct (str_in k ks) eqn:E; [exact H|].
  apply NoDup_app; [exact H | repeat constructor; intros [] |].
  intros y Hy [<-|[]]. apply str_in_In in Hy. congruence.
Qed.

Lemma add_key_incl (ks : list string) (k k' : string) :
  In k' ks -> In k' (add_key ks k).
Proof.
  intros H. unfold add_key. destruct (str_in k ks); [exact H|].
  apply in_or_app. now left.
Qed.

Lemma save_to_cache_stores (pes : nat) (c c' : dict Tensor) (name : string)
    (output t : Tensor) :
  save_to_cache pes c name output = Ok (c', t) -> c' = dict_set name t c.
Proof.
  unfold save_to_cache, dict_getitem.
  destruct (negb (dict_mem name c) || (pes <? t_seq output)).
  - now intros [= <- <-].
  - destruct (dict_get name c) as [old|]; cbn [bind]; [|discriminate].
    destruct (torch_cat_dim1 old output); cbn [bind]; [|discriminate].
    now intros [= <- <-].
Qed.

(** X1.  A store that returns has put the value it returns into the slot,
    has left every other slot as it was, has kept the keys in their order
    (a new key goes last) and keeps them distinct.  A store that raises
    raises torch's [RuntimeError], on a slot that exists and whose batch or
    feature size is not that of the value. *)
Theorem save_to_cache_frame (pes : nat) (c : dict Tensor) (name : string)
    (output : Tensor) :
  (forall c' t,
     save_to_cache pes c name output = Ok (c', t) ->
     dict_get name c' = Some t
     /\ (forall name', name' <> name -> dict_get name' c' = dict_get name' c)
     /\ dict_keys c' = add_key (dict_keys c) name
     /\ (NoDup (dict_keys c) -> NoDup (dict_keys c')))
  /\ (forall e,
        save_to_cache pes c name output = Raise e ->
        e = RuntimeError
        /\ exists old, dict_get name c = Some old
                       /\ (t_batch old <> t_batch output
                           \/ t_feat old <> t_feat output)).
Proof.
  split.
  - intros c' t H. apply save_to_cache_stores in H. subst c'.
    split; [apply dict_get_set_eq|].
    split; [intros name' Hne; apply dict_get_set_neq; congruence|].
    split; [apply dict_keys_set|].
    rewrite dict_keys_set. apply add_key_NoDup.
  - intros e. unfold save_to_cache, dict_getitem, dict_mem.
    destruct (dict_get name c) as [old|]; cbn [negb orb];
      [|discriminate].
    destruct (pes <? t_seq output); [discriminate|]. cbn [bind].
    unfold torch_cat_dim1.
    destruct (t_batch old =? t_batch output) eqn:Eb;
      destruct (t_feat old =? t_feat output) eqn:Ef; cbn [andb bind];
      try discriminate; intros [= <-]; (split; [reflexivity|]);
      exists old; (split; [reflexivity|]);
      try (apply Nat.eqb_neq in Eb; tauto);
      apply Nat.eqb_neq in Ef; tauto.
Qed.

Lemma save_to_cache_frame_witness :
  dict_get "v_0a" (fst ([("k_0a"%string,
                          mkTensor 1 3 1 [[[1%float]; [2%float]; [3%float]]]);
                         ("v_0a"%string, ex_old)],
                        ex_out))
  = Some ex_old
  /\ save_to_cache 2 [("k_0a"%string, ex_batch5)] "k_0a" ex_out
     = Raise RuntimeError.
Proof.
  split.
  - destruct (proj1 (save_to_cache_frame 2
                       [("k_0a"%string, ex_old); ("v_0a"%string, ex_old)]
                       "k_0a" ex_out) _ _ eq_refl) as (_ & Hother & _).
    cbn [fst]. rewrite Hother; [reflexivity | discriminate].
  - destruct (save_to_cache 2 [("k_0a"%string, ex_batch5)] "k_0a" ex_out)
      as [r|e] eqn:E; [discriminate E|].
    destruct (proj2 (save_to_cache_frame 2 [("k_0a"%string, ex_batch5)]
                       "k_0a" ex_out) e E) as [-> _].
    reflexivity.
Defined.


(* ================================================================== *)
(** * The keys of the cache after a call of the decoder *)
(* ================================================================== *)

Lemma block_slots_NoDup (i : nat) : NoDup (block_slots i).
Proof.
  unfold block_slots.
  repeat (constructor; [simpl; intros H;
                        repeat (destruct H as [H|H]; [revert H; slot_names_differ|]);
                        exact H|]).
  constructor.
Qed.

Lemma block_keys_slots (i : nat) (b : ResidualAttentionBlock) (k : string) :
  In k (block_keys i b) -> In k (block_slots i).
Proof.
  unfold block_keys, block_slots. destruct (cross_attn b); simpl; tauto.
Qed.

Lemma block_keys_NoDup (i : nat) (b : ResidualAttentionBlock) :
  NoDup (block_keys i b).
Proof.
  pose proof (block_slots_NoDup i) as H. unfold block_keys, block_slots in *.
  destruct (cross_attn b); [exact H|].
  cbn [app]. inversion H as [|? ? H1 H2]; subst.
  inversion H2 as [|? ? H3 H4]; subst.
  constructor; [simpl in *; tauto|]. constructor; [simpl; tauto | constructor].
Qed.

Lemma decoder_keys_slots (bs : list ResidualAttentionBlock) :
  forall (i : nat) (k : string),
  In k (decoder_keys bs i) -> exists j, i <= j /\ In k (block_slots j).
Proof.
  induction bs as [|b bs IH]; intros i k H; [destruct H|].
  cbn [decoder_keys] in H. apply in_app_or in H. destruct H as [H|H].
  - exists i. split; [lia | now apply block_keys_slots with (b := b)].
  - destruct (IH _ _ H) as (j & Hj & Hk). exists j. split; [lia | exact Hk].
Qed.

Lemma decoder_keys_NoDup (bs : list ResidualAttentionBlock) :
  forall i : nat, NoDup (decoder_keys bs i).
Proof.
  induction bs as [|b bs IH]; intros i; [constructor|].
  cbn [decoder_keys]. apply NoDup_app; [apply block_keys_NoDup | apply IH |].
  intros k Hk Hk'. apply block_keys_slots in Hk.
  destruct (decoder_keys_slots _ _ _ Hk') as (j & Hj & Hkj).
  apply (@block_slots_apart i j k); [lia | assumption..].
Qed.

Lemma fold_add_key_fresh (l ks : list string) :
  NoDup (ks ++ l) -> fold_left add_key l ks = ks ++ l.
Proof.
  revert ks. induction l as [|k l IH]; intros ks H; cbn [fold_left].
  - now rewrite app_nil_r.
  - assert (E : add_key ks k = ks ++ [k]).
    { unfold add_key. destruct (str_in k ks) eqn:E; [|reflexivity].
      apply str_in_In in E. apply NoDup_remove_2 in H.
      exfalso. apply H. apply in_or_app. now left. }
    rewrite E, IH; rewrite <- app_assoc; [reflexivity | exact H].
Qed.

Lemma fold_add_key_present (l ks : list string) :
  incl l ks -> fold_left add_key l ks = ks.
Proof.
  induction l as [|k l IH]; intros H; cbn [fold_left]; [reflexivity|].
  assert (E : add_key ks k = ks).
  { unfold add_key. destruct (str_in k ks) eqn:E; [reflexivity|].
    assert (In k ks) by (apply H; now left).
    apply str_in_In in H0. congruence. }
  rewrite E. apply IH. intros k' Hk'. apply H. now right.
Qed.

Lemma attention_forward_keys (pes : nat) (am : MultiHeadAttention)
    (x : Tensor) (xa : option Tensor) (mask : option Mask) (c : dict Tensor)
    (idx : string) (y : Tensor) (kv : option (dict Tensor)) :
  attention_forward pes am x xa mask (Some c) idx = Ok (y, kv) ->
  exists c', kv = Some c'
             /\ dict_keys c'
                = add_key (add_key (dict_keys c) (k_name idx)) (v_name idx).
Proof.
  unfold attention_forward. intros H.
  destruct xa as [xa'|];
    (destruct (save_to_cache pes c (k_name idx) _) as [[c1 t1]|e1] eqn:E1;
     cbn [bind] in H; [|discriminate H]);
    (destruct (save_to_cache pes c1 (v_name idx) _) as [[c2 t2]|e2] eqn:E2;
     cbn [bind] in H; [|discriminate H]);
    apply save_to_cache_stores in E1, E2; subst c1 c2;
    match type of H with
    | context [qkv_attention ?a ?q ?k ?v ?m] =>
        destruct (qkv_attention a q k v m) as [wv qk]
    end;
    injection H as _ <-; eexists; (split; [reflexivity|]);
    now rewrite !dict_keys_set.
Qed.

Lemma block_forward_keys (pes : nat) (b : ResidualAttentionBlock) (i : nat)
    (x : Tensor) (xa : option Tensor) (mask : option Mask) (c : dict Tensor)
    (y : Tensor) (kv : option (dict Tensor)) :
  block_forward pes b x xa mask (Some c) i = Ok (y, kv) ->
  exists c', kv = Some c'
             /\ dict_keys c' = fold_left add_key (block_keys i b) (dict_keys c).
Proof.
  unfold block_forward, block_keys. intros H.
  destruct (attention_forward pes (attn b) _ None mask (Some c) (self_idx i))
    as [[x0 kv0]|e0] eqn:E0; cbn [bind] in H; [|discriminate H].
  apply attention_forward_keys in E0. destruct E0 as (c0 & -> & K0).
  destruct (tensor_add x x0) as [x1|e1]; cbn [bind] in H; [|discriminate H].
  destruct (cross_attn b) as [ca|].
  - destruct (attention_forward pes ca _ xa None (Some c0) (cross_idx i))
      as [[x2 kv2]|e2] eqn:E2; cbn [bind] in H; [|discriminate H].
    apply attention_forward_keys in E2. destruct E2 as (c2 & -> & K2).
    destruct (tensor_add x1 x2) as [x3|e3]; cbn [bind] in H; [|discriminate H].
    destruct (tensor_add x3 _) as [x4|e4]; cbn [bind] in H; [|discriminate H].
    injection H as _ <-. exists c2. split; [reflexivity|].
    cbn [app fold_left]. now rewrite K2, K0.
  - cbn [bind] in H.
    destruct (tensor_add x1 _) as [x4|e4]; cbn [bind] in H; [|discriminate H].
    injection H as _ <-. exists c0. split; [reflexivity|].
    cbn [app fold_left]. exact K0.
Qed.

Lemma blocks_forward_keys (pes : nat) (bs : list ResidualAttentionBlock) :
  forall (i : nat) (x : Tensor) (xa : option Tensor) (mask : option Mask)
         (c : dict Tensor) (y : Tensor) (kv : option (dict Tensor)),
  blocks_forward pes bs i x xa mask (Some c) = Ok (y, kv) ->
  exists c', kv = Some c'
             /\ dict_keys c' = fold_left add_key (decoder_keys bs i) (dict_keys c).
Proof.
  induction bs as [|b bs IH]; intros i x xa mask c y kv H;
    cbn [blocks_forward decoder_keys] in *.
  - injection H as _ <-. now exists c.
  - destruct (block_forward pes b x xa mask (Some c) i) as [[x1 kv1]|e1] eqn:E1;
      cbn [bind] in H; [|discriminate H].
    apply block_forward_keys in E1. destruct E1 as (c1 & -> & K1).
    apply IH in H. destruct H as (c' & -> & K).
    exists c'. split; [reflexivity|]. now rewrite fold_left_app, <- K1.
Qed.

Lemma decoder_forward_cache_keys (decoder : TextDecoder) (x : Tokens)
    (xa : option Tensor) (c : dict Tensor) (lg : Tensor)
    (kv : option (dict Tensor)) :
  decoder_forward decoder x xa (Some c) = Ok (lg, kv) ->
  exists c',
    kv = Some c'
    /\ dict_keys c'
       = fold_left add_key (decoder_keys (blocks decoder) 0) (dict_keys c).
Proof.
  unfold decoder_forward. intros H.
  destruct (add_positional _ _) as [x'|e]; cbn [bind] in H; [|discriminate H].
  destruct (dtype_of xa); cbn [bind] in H; [|discriminate H].
  destruct (blocks_forward _ _ _ _ _ _ _) as [[y kv1]|e1] eqn:E1;
    cbn [bind] in H; [|discriminate H].
  injection H as _ <-.
  apply blocks_forward_keys in E1. destruct E1 as (c' & -> & K).
  exists c'. now split.
Qed.

Lemma first_call_keys (decoder : TextDecoder) (x : Tokens)
    (xa : option Tensor) (lg : Tensor) (c : dict Tensor) :
  decoder_forward decoder x xa (Some []) = Ok (lg, Some c) ->
  dict_keys c = decoder_keys (blocks decoder) 0.
Proof.
  intros H. apply decoder_forward_cache_keys in H.
  destruct H as (c' & [= <-] & K). rewrite K. cbn [dict_keys map].
  apply (@fold_add_key_fresh _ []). apply decoder_keys_NoDup.
Qed.

(** X2.  A call of the patched decoder on a cache returns a cache: the old
    keys in their order, then, in the order of the blocks, the keys of the
    decoder that were missing.  On the empty cache these are [k_<i>a],
    [v_<i>a] and, for a block with cross-attention, [k_<i>c], [v_<i>c], for
    [i = 0, 1, ...]; on a cache that has them all, no key is added and none
    moves. *)
Theorem decoder_forward_keys (decoder : TextDecoder) (x : Tokens)
    (xa : option Tensor) (c : dict Tensor) (lg : Tensor)
    (kv : option (dict Tensor)) :
  decoder_forward decoder x xa (Some c) = Ok (lg, kv) ->
  exists c',
    kv = Some c'
    /\ dict_keys c'
       = fold_left add_key (decoder_keys (blocks decoder) 0) (dict_keys c)
    /\ (c = [] -> dict_keys c' = decoder_keys (blocks decoder) 0)
    /\ (incl (decoder_keys (blocks decoder) 0) (dict_keys c) ->
        dict_keys c' = dict_keys c).
Proof.
  intros H. pose proof (@decoder_forward_cache_keys _ _ _ _ _ _ H) as (c' & -> & K).
  exists c'. split; [reflexivity|]. split; [exact K|]. split.
  - intros ->. now apply first_call_keys in H.
  - intros Hincl. rewrite K. now apply fold_add_key_present.
Qed.

Lemma decoder_forward_keys_witness :
  exists c',
    run_steps ex_decoder (Some ex_features) [ex_step1] (Some []) = Ok (Some c')
    /\ dict_keys c' = ["k_0a"%string; "v_0a"%string; "k_0c"%string; "v_0c"%string].
Proof.
  destruct (decoder_forward ex_decoder ex_step1 (Some ex_features) (Some []))
    as [[lg kv]|e] eqn:E; [|discriminate E].
  destruct (@decoder_forward_keys ex_decoder ex_step1 (Some ex_features) []
              lg kv E) as (c' & -> & _ & Hkeys & _).
  exists c'. split.
  - cbn [run_steps]. rewrite E. reflexivity.
  - exact (Hkeys eq_refl).
Defined.

Lemma attention_forward_no_cache (pes : nat) (am : MultiHeadAttention)
    (x : Tensor) (xa : option Tensor) (mask : option Mask) (idx : string)
    (y : Tensor) (kv : option (dict Tensor)) :
  attention_forward pes am x xa mask None idx = Ok (y, kv) -> kv = None.
Proof.
  unfold attention_forward. cbn [bind]. intros H.
  match type of H with
  | context [qkv_attention ?a ?q ?k ?v ?m] =>
      destruct (qkv_attention a q k v m) as [wv qk]
  end.
  now injection H as _ <-.
Qed.

Lemma block_forward_no_cache (pes : nat) (b : ResidualAttentionBlock)
    (i : nat) (x : Tensor) (xa : option Tensor) (mask : option Mask)
    (y : Tensor) (kv : option (dict Tensor)) :
  block_forward pes b x xa mask None i = Ok (y, kv) -> kv = None.
Proof.
  unfold block_forward. intros H.
  destruct (attention_forward pes (attn b) _ None mask None (self_idx i))
    as [[x0 kv0]|e0] eqn:E0; cbn [bind] in H; [|discriminate H].
  apply attention_forward_no_cache in E0. subst kv0.
  destruct (tensor_add x x0) as [x1|e1]; cbn [bind] in H; [|discriminate H].
  destruct (cross_attn b) as [ca|].
  - destruct (attention_forward pes ca _ xa None None (cross_idx i))
      as [[x2 kv2]|e2] eqn:E2; cbn [bind] in H; [|discriminate H].
    apply attention_forward_no_cache in E2. subst kv2.
    destruct (tensor_add x1 x2) as [x3|e3]; cbn [bind] in H; [|discriminate H].
    destruct (tensor_add x3 _) as [x4|e4]; cbn [bind] in H; [|discriminate H].
    now injection H as _ <-.
  - cbn [bind] in H.
    destruct (tensor_add x1 _) as [x4|e4]; cbn [bind] in H; [|discriminate H].
    now injection H as _ <-.
Qed.

Lemma blocks_forward_no_cache (pes : nat) (bs : list ResidualAttentionBlock) :
  forall (i : nat) (x : Tensor) (xa : option Tensor) (mask : option Mask)
         (y : Tensor) (kv : option (dict Tensor)),
  blocks_forward pes bs i x xa mask None = Ok (y, kv) -> kv = None.
Proof.
  induction bs as [|b bs IH]; intros i x xa mask y kv H;
    cbn [blocks_forward] in H.
  - now injection H as _ <-.
  - destruct (block_forward pes b x xa mask None i) as [[x1 kv1]|e1] eqn:E1;
      cbn [bind] in H; [|discriminate H].
    apply block_forward_no_cache in E1. subst kv1. eapply IH. exact H.
Qed.

(** X3.  Without a cache the patched decoder builds none: a call with
    [kv_cache=None] that returns, returns [None] as its cache. *)
Theorem decoder_forward_no_cache (decoder : TextDecoder) (x : Tokens)
    (xa : option Tensor) (lg : Tensor) (kv : option (dict Tensor)) :
  decoder_forward decoder x xa None = Ok (lg, kv) -> kv = None.
Proof.
  unfold decoder_forward. intros H.
  destruct (add_positional _ _) as [x'|e]; cbn [bind] in H; [|discriminate H].
  destruct (dtype_of xa); cbn [bind] in H; [|discriminate H].
  destruct (blocks_forward _ _ _ _ _ _ _) as [[y kv1]|e1] eqn:E1;
    cbn [bind] in H; [|discriminate H].
  injection H as _ <-. eapply blocks_forward_no_cache. exact E1.
Qed.

Lemma decoder_forward_no_cache_witness :
  exists lg, decoder_forward ex_decoder ex_step1 (Some ex_features) None
             = Ok (lg, None).
Proof.
  destruct (decoder_forward ex_decoder ex_step1 (Some ex_features) None)
    as [[lg kv]|e] eqn:E; [|discriminate E].
  rewrite (decoder_forward_no_cache _ _ _ E). now exists lg.
Defined.


(* ================================================================== *)
(** * The names and axes of the export *)
(* ================================================================== *)

Lemma decoder_keys_slot_names (bs : list ResidualAttentionBlock) :
  forall (i : nat) (k : string), In k (decoder_keys bs i) -> slot_name k.
Proof.
  intros i k H. destruct (decoder_keys_slots _ _ _ H) as (j & _ & Hj).
  simpl in Hj. destruct Hj as [<-|[<-|[<-|[<-|[]]]]]; constructor.
Qed.

Lemma NoDup_map_append (p : string) (l : list string) :
  NoDup l -> NoDup (map (String.append p) l).
Proof.
  assert (Hinj : forall a b, String.append p a = String.append p b -> a = b).
  { intros a b E. induction p as [|ch p IH]; [exact E|].
    cbn [String.append] in E. injection E as E. now apply IH. }
  induction 1 as [|a l Ha Hl IH]; cbn [map]; constructor; [|exact IH].
  intros E. apply in_map_iff in E. destruct E as (b & E & Hb).
  apply Hinj in E. now subst b.
Qed.

(** X4.  The names the export gives to the graph, after the first call of
    the patched decoder on the empty cache: the inputs are [tokens],
    [audio_features] and [in_<slot>] for the slots of the decoder in block
    order, the outputs are [logits] and [out_<slot>]; every slot is named
    as the decoder names it, and no name is given twice. *)
Theorem export_names_distinct (decoder : TextDecoder) (x : Tokens)
    (xa : option Tensor) (lg : Tensor) (kv_cache : dict Tensor) :
  decoder_forward decoder x xa (Some []) = Ok (lg, Some kv_cache) ->
  export_input_names kv_cache
  = "tokens"%string :: "audio_features"%string
      :: map (String.append "in_") (decoder_keys (blocks decoder) 0)
  /\ export_output_names kv_cache
     = "logits"%string
         :: map (String.append "out_") (decoder_keys (blocks decoder) 0)
  /\ (forall k, In k (dict_keys kv_cache) -> slot_name k)
  /\ NoDup (export_input_names kv_cache)
  /\ NoDup (export_output_names kv_cache).
Proof.
  intros H. apply first_call_keys in H.
  unfold export_input_names, export_output_names. rewrite H. cbn [app].
  split; [reflexivity|]. split; [reflexivity|].
  split; [intros k; apply decoder_keys_slot_names|].
  pose proof (decoder_keys_NoDup (blocks decoder) 0) as Hnd.
  split.
  - constructor; [|constructor].
    + intros [E|E]; [discriminate E|].
      apply in_map_iff in E. destruct E as (k & E & _). discriminate E.
    + intros E. apply in_map_iff in E. destruct E as (k & E & _).
      discriminate E.
    + now apply NoDup_map_append.
  - constructor.
    + intros E. apply in_map_iff in E. destruct E as (k & E & _).
      discriminate E.
    + now apply NoDup_map_append.
Qed.

Lemma export_names_distinct_witness :
  exists lg kv_cache,
    decoder_forward ex_decoder ex_step1 (Some ex_features) (Some [])
    = Ok (lg, Some kv_cache)
    /\ export_input_names kv_cache
       = ["tokens"%string; "audio_features"%string; "in_k_0a"%string;
          "in_v_0a"%string; "in_k_0c"%string; "in_v_0c"%string].
Proof.
  destruct (decoder_forward ex_decoder ex_step1 (Some ex_features) (Some []))
    as [[lg [kv_cache|]]|e] eqn:E; try discriminate E.
  exists lg, kv_cache. split; [reflexivity|].
  exact (proj1 (export_names_distinct _ _ _ E)).
Defined.


(* ================================================================== *)
(** * The dynamic axes and the shape bounds of the export *)
(* ================================================================== *)

Section DictUpdate.
Variable V : Type.
Variable v : V.

Lemma fold_set_const (names : list string) (d : dict V) (name : string) :
  dict_get name (fold_left (fun d n => dict_set n v d) names d)
  = if str_in name names then Some v else dict_get name d.
Proof.
  revert d. induction names as [|n names IH]; intros d; [reflexivity|].
  cbn [fold_left]. rewrite IH. unfold str_in. cbn [existsb].
  fold (str_in name names).
  destruct (str_in name names); [now rewrite orb_true_r|].
  rewrite orb_false_r.
  destruct (String.eqb name n) eqn:E.
  - apply String.eqb_eq in E. subst. apply dict_get_set_eq.
  - apply String.eqb_neq in E. apply dict_get_set_neq. congruence.
Qed.

Lemma dict_get_from_names (names : list string) (name : string) :
  dict_get name (dict_from_names v names)
  = if str_in name names then Some v else None.
Proof. unfold dict_from_names. now rewrite fold_set_const. Qed.

Lemma dict_set_const (k : string) (d : dict V) :
  Forall (fun kv => snd kv = v) d ->
  Forall (fun kv => snd kv = v) (dict_set k v d).
Proof.
  induction 1 as [|[k' v'] d Hv Hd IH]; cbn [dict_set].
  - now repeat constructor.
  - destruct (String.eqb k k'); constructor; auto.
Qed.

Lemma dict_from_names_const (names : list string) :
  Forall (fun kv => snd kv = v) (dict_from_names v names).
Proof.
  unfold dict_from_names.
  assert (H : Forall (fun kv : string * V => snd kv = v) []) by constructor.
  revert H. generalize (@nil (string * V)).
  induction names as [|n names IH]; intros d H; [exact H|].
  cbn [fold_left]. apply IH. now apply dict_set_const.
Qed.

Lemma dict_get_update_const (d other : dict V) (name : string) :
  Forall (fun kv => snd kv = v) other ->
  dict_get name (dict_update d other)
  = if dict_mem name other then Some v else dict_get name d.
Proof.
  unfold dict_update, dict_mem. intros H. revert d.
  induction H as [|[k v'] other Hv _ IH]; intros d; [reflexivity|].
  cbn [fold_left fst snd dict_get] in *. subst v'. rewrite IH.
  destruct (dict_get name other); [now destruct (String.eqb name k)|].
  destruct (String.eqb name k) eqn:E.
  - apply String.eqb_eq in E. subst. apply dict_get_set_eq.
  - apply String.eqb_neq in E. apply dict_get_set_neq. congruence.
Qed.
End DictUpdate.

Lemma dict_get_dynamic_axes (kv_cache : dict Tensor) (name : string) :
  dict_get name (dynamic_axes kv_cache)
  = if str_in name (map (String.append "in_") (dict_keys kv_cache))
       || str_in name (map (String.append "out_") (dict_keys kv_cache))
    then Some [(0, "beam_size"%string); (1, "prev_seq_len"%string)]
    else dict_get name
           [("tokens"%string, [(0, "beam_size"%string); (1, "seq_len"%string)]);
            ("audio_features"%string, [(0, "beam_size"%string)]);
            ("logits"%string, [(0, "beam_size"%string); (1, "seq_len"%string)])].
Proof.
  unfold dynamic_axes.
  rewrite !(@dict_get_update_const _
              [(0, "beam_size"%string); (1, "prev_seq_len"%string)])
    by apply dict_from_names_const.
  unfold dict_mem. rewrite !dict_get_from_names.
  destruct (str_in name (map (String.append "in_") _)); [reflexivity|].
  destruct (str_in name (map (String.append "out_") _)); reflexivity.
Qed.

Lemma str_in_prefixed (p name : string) (ks : list string) :
  str_in name (map (String.append p) ks) = true
  <-> exists k, In k ks /\ name = String.append p k.
Proof.
  rewrite str_in_In, in_map_iff. split; intros (k & H1 & H2).
  - exists k. now split.
  - exists k. now split.
Qed.

(** X5.  The dynamic axes the export declares.  The three fixed tensors
    keep their entries whatever the keys of the cache are; every key of the
    cache has its input [in_<key>] and its output [out_<key>] declared with
    axis 0 named [beam_size] and axis 1 named [prev_seq_len]; and the
    declared names are exactly the input and output names of the export. *)
Theorem dynamic_axes_entries (kv_cache : dict Tensor) :
  dict_get "tokens" (dynamic_axes kv_cache)
  = Some [(0, "beam_size"%string); (1, "seq_len"%string)]
  /\ dict_get "audio_features" (dynamic_axes kv_cache)
     = Some [(0, "beam_size"%string)]
  /\ dict_get "logits" (dynamic_axes kv_cache)
     = Some [(0, "beam_size"%string); (1, "seq_len"%string)]
  /\ (forall k, In k (dict_keys kv_cache) ->
        dict_get (String.append "in_" k) (dynamic_axes kv_cache)
        = Some [(0, "beam_size"%string); (1, "prev_seq_len"%string)]
        /\ dict_get (String.append "out_" k) (dynamic_axes kv_cache)
           = Some [(0, "beam_size"%string); (1, "prev_seq_len"%string)])
  /\ (forall name,
        dict_mem name (dynamic_axes kv_cache) = true
        <-> In name (export_input_names kv_cache)
            \/ In name (export_output_names kv_cache)).
Proof.
  assert (Hfix : forall name,
            (forall k, name <> String.append "in_" k) ->
            (forall k, name <> String.append "out_" k) ->
            str_in name (map (String.append "in_") (dict_keys kv_cache))
            || str_in name (map (String.append "out_") (dict_keys kv_cache))
            = false).
  { intros name Hin Hout. apply orb_false_iff. split.
    - destruct (str_in name (map (String.append "in_") _)) eqn:E;
        [|reflexivity].
      apply str_in_prefixed in E. destruct E as (k & _ & E).
      now apply Hin in E.
    - destruct (str_in name (map (String.append "out_") _)) eqn:E;
        [|reflexivity].
      apply str_in_prefixed in E. destruct E as (k & _ & E).
      now apply Hout in E. }
  split; [|split; [|split; [|split]]].
  - rewrite dict_get_dynamic_axes, Hfix; [reflexivity| |]; discriminate.
  - rewrite dict_get_dynamic_axes, Hfix; [reflexivity| |]; discriminate.
  - rewrite dict_get_dynamic_axes, Hfix; [reflexivity| |]; discriminate.
  - intros k Hk. split; rewrite dict_get_dynamic_axes.
    + assert (E : str_in (String.append "in_" k)
                    (map (String.append "in_") (dict_keys kv_cache)) = true).
      { apply str_in_prefixed. now exists k. }
      now rewrite E.
    + assert (E : str_in (String.append "out_" k)
                    (map (String.append "out_") (dict_keys kv_cache)) = true).
      { apply str_in_prefixed. now exists k. }
      rewrite E. now rewrite orb_true_r.
  - intros name. unfold dict_mem. rewrite dict_get_dynamic_axes.
    unfold export_input_names, export_output_names.
    rewrite !in_app_iff.
    destruct (str_in name (map (String.append "in_") _)) eqn:Ein.
    { cbn [orb]. split; [intros _|reflexivity].
      left. right. now apply str_in_In. }
    destruct (str_in name (map (String.append "out_") _)) eqn:Eout.
    { cbn [orb]. split; [intros _|reflexivity].
      right. right. now apply str_in_In. }
    cbn [orb dict_get].
    destruct (String.eqb name "tokens") eqn:E1.
    { apply String.eqb_eq in E1. subst. split; [intros _|reflexivity].
      left. left. now left. }
    destruct (String.eqb name "audio_features") eqn:E2.
    { apply String.eqb_eq in E2. subst. split; [intros _|reflexivity].
      left. left. right. now left. }
    destruct (String.eqb name "logits") eqn:E3.
    { apply String.eqb_eq in E3. subst. split; [intros _|reflexivity].
      right. left. now left. }
    split; [discriminate|].
    apply String.eqb_neq in E1, E2, E3.
    intros [[[H|[H|[]]]|H]|[[H|[]]|H]]; try congruence.
    + apply str_in_In in H. congruence.
    + apply str_in_In in H. congruence.
Qed.

(** ** The bounds handed to the model optimizer *)

Lemma str_endswith_a_self (s : string) :
  str_endswith "a" (String.append s "a") = true.
Proof.
  induction s as [|c s IH]; [reflexivity|].
  cbn [String.append str_endswith]. rewrite IH. apply orb_true_r.
Qed.

Lemma str_endswith_a_cross (s : string) :
  str_endswith "a" (String.append s "c") = false.
Proof.
  induction s as [|c s IH]; [reflexivity|].
  cbn [String.append str_endswith]. rewrite IH, orb_false_r.
  cbn [String.eqb]. destruct (Ascii.eqb "a" c); [|reflexivity].
  now destruct s.
Qed.

Lemma append_assoc (a b c : string) :
  String.append (String.append a b) c = String.append a (String.append b c).
Proof.
  induction a as [|ch a IH]; [reflexivity|].
  cbn [String.append]. now rewrite IH.
Qed.

Lemma slot_endswith_a (i : nat) :
  str_endswith "a" (k_name (self_idx i)) = true
  /\ str_endswith "a" (v_name (self_idx i)) = true
  /\ str_endswith "a" (k_name (cross_idx i)) = false
  /\ str_endswith "a" (v_name (cross_idx i)) = false.
Proof.
  unfold k_name, v_name, self_idx, cross_idx.
  rewrite <- !append_assoc.
  repeat split;
    first [apply str_endswith_a_self | apply str_endswith_a_cross].
Qed.

(** The loop over the items of the cache reads the keys only. *)
Lemma mo_input_shapes_keys (t0 : Tensor) (kv_cache : dict Tensor)
    (acc : string) :
  fold_left add_input_shape kv_cache acc
  = fold_left (fun s k => add_input_shape s (k, t0)) (dict_keys kv_cache) acc.
Proof.
  revert acc. induction kv_cache as [|[k t] kv_cache IH]; intros acc;
    [reflexivity|].
  cbn [fold_left dict_keys map fst]. now rewrite <- IH.
Qed.

Lemma decoder_keys_shapes (t0 : Tensor) (bs : list ResidualAttentionBlock) :
  forall (i : nat) (acc : string),
    fold_left (fun s k => add_input_shape s (k, t0)) (decoder_keys bs i) acc
    = fold_left
        (fun s i =>
           String.append
             (String.append s
                (String.append ",in_"
                   (String.append (k_name (self_idx i)) "[1..11 0..600 768]")))
             (String.append ",in_"
                (String.append (v_name (self_idx i)) "[1..11 0..600 768]")))
        (seq i (List.length bs)) acc.
Proof.
  induction bs as [|b bs IH]; intros i acc; [reflexivity|].
  cbn [decoder_keys List.length seq]. rewrite fold_left_app.
  cbn [fold_left]. rewrite <- IH. f_equal.
  destruct (slot_endswith_a i) as (Hk & Hv & Hkc & Hvc).
  unfold block_keys. rewrite fold_left_app. cbn [fold_left].
  unfold add_input_shape at 2 3. cbn [fst]. rewrite Hk, Hv.
  destruct (cross_attn b); cbn [fold_left]; [|reflexivity].
  unfold add_input_shape. cbn [fst]. now rewrite Hkc, Hvc.
Qed.

(** X6.  The bounds given to [mo.convert_model] after the first call of
    the decoder on the empty cache: after the bounds of [tokens] and
    [audio_features] come one bound for [in_k_<i>a] and one for
    [in_v_<i>a] per block, in block order, and none for a cross-attention
    slot, whether the blocks have cross-attention or not. *)
Theorem mo_input_shapes_self_only (decoder : TextDecoder) (x : Tokens)
    (xa : option Tensor) (lg : Tensor) (kv_cache : dict Tensor) :
  decoder_forward decoder x xa (Some []) = Ok (lg, Some kv_cache) ->
  mo_input_shapes kv_cache
  = fold_left
      (fun s i =>
         String.append
           (String.append s
              (String.append ",in_"
                 (String.append (k_name (self_idx i)) "[1..11 0..600 768]")))
           (String.append ",in_"
              (String.append (v_name (self_idx i)) "[1..11 0..600 768]")))
      (seq 0 (List.length (blocks decoder)))
      "tokens[1..11 1..600],audio_features[1..11 1500 768]"%string.
Proof.
  intros H. apply first_call_keys in H.
  unfold mo_input_shapes.
  rewrite (mo_input_shapes_keys (np_zeros 0 0 0)), H.
  apply decoder_keys_shapes.
Qed.

Lemma mo_input_shapes_self_only_witness :
  exists lg kv_cache,
    decoder_forward ex_decoder ex_step1 (Some ex_features) (Some [])
    = Ok (lg, Some kv_cache)
    /\ dict_keys kv_cache
       = ["k_0a"%string; "v_0a"%string; "k_0c"%string; "v_0c"%string]
    /\ mo_input_shapes kv_cache
       = String.append "tokens[1..11 1..600],audio_features[1..11 1500 768]"
           ",in_k_0a[1..11 0..600 768],in_v_0a[1..11 0..600 768]".
Proof.
  destruct (decoder_forward ex_decoder ex_step1 (Some ex_features) (Some []))
    as [[lg [kv_cache|]]|e] eqn:E; try discriminate E.
  exists lg, kv_cache. split; [reflexivity|].
  split; [exact (first_call_keys _ _ _ E)|].
  exact (mo_input_shapes_self_only _ _ _ E).
Defined.


(* ================================================================== *)
(** * [rearrange_kv_cache]: the indices it accepts *)
(* ================================================================== *)

Lemma py_index_ok (n : nat) (i : Z) :
  (- Z.of_nat n <= i < Z.of_nat n)%Z ->
  py_index n i = Ok (Z.to_nat (i mod Z.of_nat n)).
Proof.
  intros H. unfold py_index.
  destruct ((0 <=? i)%Z && (i <? Z.of_nat n)%Z) eqn:E.
  - apply andb_true_iff in E. destruct E as [E1 E2].
    apply Z.leb_le in E1. apply Z.ltb_lt in E2.
    now rewrite Z.mod_small by lia.
  - assert (Hneg : (i < 0)%Z).
    { apply andb_false_iff in E. destruct E as [E|E].
      - apply Z.leb_gt in E. lia.
      - apply Z.ltb_ge in E. lia. }
    assert (E' : ((- Z.of_nat n <=? i)%Z && (i <? 0)%Z) = true).
    { apply andb_true_iff. split; [apply Z.leb_le | apply Z.ltb_lt]; lia. }
    rewrite E'. do 2 f_equal.
    rewrite <- (Z.mod_add i 1 (Z.of_nat n)) by lia.
    rewrite Z.mod_small by lia. lia.
Qed.

Lemma py_index_raise (n : nat) (i : Z) :
  ~ (- Z.of_nat n <= i < Z.of_nat n)%Z -> py_index n i = Raise IndexError.
Proof.
  intros H. unfold py_index.
  destruct ((0 <=? i)%Z && (i <? Z.of_nat n)%Z) eqn:E.
  { apply andb_true_iff in E. destruct E as [E1 E2].
    apply Z.leb_le in E1. apply Z.ltb_lt in E2. lia. }
  destruct ((- Z.of_nat n <=? i)%Z && (i <? 0)%Z) eqn:E'; [|reflexivity].
  apply andb_true_iff in E'. destruct E' as [E1 E2].
  apply Z.leb_le in E1. apply Z.ltb_lt in E2. lia.
Qed.

Lemma in_range_dec (n : nat) (i : Z) :
  {(- Z.of_nat n <= i < Z.of_nat n)%Z} + {~ (- Z.of_nat n <= i < Z.of_nat n)%Z}.
Proof.
  destruct (Z_le_dec (- Z.of_nat n) i); [|right; lia].
  destruct (Z_lt_dec i (Z.of_nat n)); [left|right]; lia.
Qed.

Lemma gather_rows_wrapped (n : nat) (rows : list (list (list float)))
    (source_indices : list Z) :
  Forall (fun i => (- Z.of_nat n <= i < Z.of_nat n)%Z) source_indices ->
  gather_rows n rows source_indices
  = Ok (map (fun i => nth (Z.to_nat (i mod Z.of_nat n)) rows [])
            source_indices).
Proof.
  induction 1 as [|i rest Hi _ IH]; [reflexivity|].
  cbn [gather_rows map]. rewrite (py_index_ok _ Hi). cbn [bind].
  now rewrite IH.
Qed.

Lemma gather_rows_raises (n : nat) (rows : list (list (list float)))
    (source_indices : list Z) :
  ~ Forall (fun i => (- Z.of_nat n <= i < Z.of_nat n)%Z) source_indices ->
  gather_rows n rows source_indices = Raise IndexError.
Proof.
  induction source_indices as [|i rest IH]; intros H.
  - exfalso. apply H. constructor.
  - cbn [gather_rows]. destruct (in_range_dec n i) as [Hi|Hi].
    + rewrite (py_index_ok _ Hi). cbn [bind]. rewrite IH; [reflexivity|].
      intros Hrest. apply H. now constructor.
    + now rewrite (py_index_raise _ Hi).
Qed.

Lemma tensor_index_wrapped (tensor : Tensor) (source_indices : list Z) :
  Forall (fun i => (- Z.of_nat (t_batch tensor) <= i
                    < Z.of_nat (t_batch tensor))%Z) source_indices ->
  tensor_index tensor source_indices
  = Ok (select_wrapped tensor source_indices).
Proof.
  intros H. unfold tensor_index. now rewrite gather_rows_wrapped.
Qed.

Lemma tensor_index_raises (tensor : Tensor) (source_indices : list Z) :
  ~ Forall (fun i => (- Z.of_nat (t_batch tensor) <= i
                      < Z.of_nat (t_batch tensor))%Z) source_indices ->
  tensor_index tensor source_indices = Raise IndexError.
Proof.
  intros H. unfold tensor_index. now rewrite gather_rows_raises.
Qed.

Lemma Forall_in_range_dec (n : nat) (source_indices : list Z) :
  {Forall (fun i => (- Z.of_nat n <= i < Z.of_nat n)%Z) source_indices}
  + {~ Forall (fun i => (- Z.of_nat n <= i < Z.of_nat n)%Z) source_indices}.
Proof. apply Forall_dec. intros i. apply in_range_dec. Qed.

(** The loop returns when every tensor it visits accepts the indices, and
    raises [IndexError] at the first one that does not. *)
Lemma rearrange_items_accepts (source_indices : list Z)
    (items : list (string * Tensor)) :
  forall kv_cache,
    (Forall (fun kv => Forall (fun i => (- Z.of_nat (t_batch (snd kv)) <= i
                                         < Z.of_nat (t_batch (snd kv)))%Z)
                         source_indices) items
     /\ exists c', rearrange_items items source_indices kv_cache = Ok c')
    \/ (~ Forall (fun kv => Forall (fun i => (- Z.of_nat (t_batch (snd kv)) <= i
                                              < Z.of_nat (t_batch (snd kv)))%Z)
                              source_indices) items
        /\ rearrange_items items source_indices kv_cache = Raise IndexError).
Proof.
  induction items as [|[k t] items IH]; intros kv_cache.
  - left. split; [constructor | now eexists].
  - cbn [rearrange_items].
    destruct (Forall_in_range_dec (t_batch t) source_indices) as [Ht|Ht].
    + rewrite (tensor_index_wrapped _ Ht). cbn [bind].
      destruct (IH (dict_set k (select_wrapped t source_indices) kv_cache))
        as [[Hall Hok]|[Hnot Hraise]].
      * left. split; [now constructor | exact Hok].
      * right. split; [|exact Hraise].
        intros Hall. apply Hnot. now inversion Hall.
    + right. rewrite (tensor_index_raises _ Ht). split; [|reflexivity].
      intros Hall. apply Ht. now inversion Hall.
Qed.

(** X7.  [rearrange_kv_cache] returns exactly when every index lies in
    [-b, b) for the batch size [b] of every tensor of the cache, and raises
    [IndexError] otherwise; an empty cache accepts any indices, and an
    empty list of indices is accepted by any cache. *)
Theorem rearrange_kv_cache_index_error (self : OpenVINOInference) (h : Heap)
    (cache : dict Tensor) (source_indices : list Z) :
  heap_get (self_kv_cache self) h = Some cache ->
  ((exists h', rearrange_kv_cache self source_indices h = Ok h')
   <-> (forall k t i, In (k, t) cache -> In i source_indices ->
          (- Z.of_nat (t_batch t) <= i < Z.of_nat (t_batch t))%Z))
  /\ (forall e, rearrange_kv_cache self source_indices h = Raise e ->
        e = IndexError).
Proof.
  intros Hget. unfold rearrange_kv_cache. rewrite Hget.
  destruct (rearrange_items_accepts source_indices cache cache)
    as [[Hall [c' Hok]]|[Hnot Hraise]].
  - rewrite Hok. cbn [bind]. split; [|discriminate].
    split; [intros _|intros _; now eexists].
    intros k t i Hin Hi. rewrite Forall_forall in Hall.
    specialize (Hall _ Hin). rewrite Forall_forall in Hall.
    exact (Hall _ Hi).
  - rewrite Hraise. cbn [bind]. split; [|now intros e [= <-]].
    split; [intros [h' H]; discriminate H|].
    intros H. exfalso. apply Hnot. apply Forall_forall. intros [k t] Hin.
    apply Forall_forall. intros i Hi. cbn [snd]. eapply H; eassumption.
Qed.

Lemma rearrange_kv_cache_index_error_witness :
  (exists h', rearrange_kv_cache ex_inference [(-1)%Z; 4%Z] ex_heap = Ok h')
  /\ rearrange_kv_cache ex_inference [5%Z] ex_heap = Raise IndexError.
Proof.
  split.
  - apply (proj1 (@rearrange_kv_cache_index_error ex_inference ex_heap
                    ex_cache5 [(-1)%Z; 4%Z] eq_refl)).
    intros k t i Hin Hi. simpl in Hin, Hi.
    destruct Hin as [E|[E|[]]]; injection E as <- <-;
      destruct Hi as [<-|[<-|[]]]; simpl; lia.
  - destruct (rearrange_kv_cache ex_inference [5%Z] ex_heap) as [h'|e] eqn:E;
      [discriminate E|].
    now rewrite (proj2 (@rearrange_kv_cache_index_error ex_inference ex_heap
                          ex_cache5 [5%Z] eq_refl) e E).
Defined.

(* ================================================================== *)
(** * [rearrange_kv_cache]: what it stores *)
(* ================================================================== *)

(** The loop, started on the items of the dictionary itself, rewrites
    every value in place, by whatever [tensor[source_indices]] gives. *)
Lemma rearrange_items_map (f : Tensor -> Tensor) (source_indices : list Z)
    (items pre : dict Tensor) :
  NoDup (dict_keys (pre ++ items)) ->
  Forall (fun kv => tensor_index (snd kv) source_indices = Ok (f (snd kv)))
    items ->
  rearrange_items items source_indices (pre ++ items)
  = Ok (pre ++ map (fun kv => (fst kv, f (snd kv))) items).
Proof.
  revert pre.
  induction items as [|[k t] items IH]; intros pre Hnd Hvalid; [reflexivity|].
  inversion Hvalid as [|? ? Ht Hrest]; subst.
  cbn [rearrange_items map fst snd] in *.
  rewrite Ht. cbn [bind].
  rewrite dict_set_middle.
  - change (pre ++ (k, f t) :: items) with (pre ++ [(k, f t)] ++ items).
    rewrite app_assoc. rewrite IH.
    + now rewrite <- app_assoc.
    + rewrite <- app_assoc. unfold dict_keys in *.
      rewrite !map_app in *. exact Hnd.
    + exact Hrest.
  - unfold dict_keys in *. rewrite map_app in Hnd. simpl in Hnd.
    apply NoDup_remove_2 in Hnd. intros Hin. apply Hnd.
    apply in_or_app. now left.
Qed.

Lemma rearrange_kv_cache_map (f : Tensor -> Tensor) (self : OpenVINOInference)
    (h : Heap) (cache : dict Tensor) (source_indices : list Z) :
  heap_get (self_kv_cache self) h = Some cache ->
  NoDup (dict_keys cache) ->
  (forall k t, In (k, t) cache ->
               tensor_index t source_indices = Ok (f t)) ->
  rearrange_kv_cache self source_indices h
  = Ok (heap_set (self_kv_cache self)
          (map (fun kv => (fst kv, f (snd kv))) cache) h).
Proof.
  intros Hget Hnd Hf. unfold rearrange_kv_cache. rewrite Hget.
  pose proof (@rearrange_items_map f source_indices cache []) as Hloop.
  cbn [app] in Hloop. rewrite Hloop; [reflexivity | exact Hnd |].
  apply Forall_forall. intros [k t] Hin. cbn [snd]. eapply Hf; eassumption.
Qed.

(** X8.  Negative indices count from the end of the batch: for indices in
    [-b, b) the entry [i] of every rearranged tensor is the old entry at
    [source_indices[i]] when that index is not negative and at
    [b + source_indices[i]] when it is; keys, positions and features are
    as they were. *)
Theorem rearrange_kv_cache_negative (self : OpenVINOInference) (h : Heap)
    (cache : dict Tensor) (source_indices : list Z) :
  heap_get (self_kv_cache self) h = Some cache ->
  NoDup (dict_keys cache) ->
  (forall k t i, In (k, t) cache -> In i source_indices ->
                 (- Z.of_nat (t_batch t) <= i < Z.of_nat (t_batch t))%Z) ->
  exists h' cache',
    rearrange_kv_cache self source_indices h = Ok h'
    /\ heap_get (self_kv_cache self) h' = Some cache'
    /\ dict_keys cache' = dict_keys cache
    /\ forall k t,
         dict_get k cache = Some t ->
         exists t',
           dict_get k cache' = Some t'
           /\ shape t' = [List.length source_indices; t_seq t; t_feat t]
           /\ forall i, i < List.length source_indices ->
                let j := nth i source_indices 0%Z in
                nth i (t_rows t') []
                = nth (Z.to_nat (if (j <? 0)%Z
                                 then (Z.of_nat (t_batch t) + j)%Z else j))
                      (t_rows t) [].
Proof.
  intros Hget Hnd Hvalid.
  rewrite (@rearrange_kv_cache_map
             (fun t => select_wrapped t source_indices) _ _ _ _ Hget Hnd).
  - eexists. eexists. split; [reflexivity|].
    split; [apply heap_get_set_same; eapply heap_get_bound; eassumption|].
    split.
    + unfold dict_keys. rewrite map_map. reflexivity.
    + intros k t Hk. exists (select_wrapped t source_indices).
      rewrite (@dict_get_map_values _ _
                 (fun t0 => select_wrapped t0 source_indices)), Hk.
      split; [reflexivity|]. split; [reflexivity|].
      intros i Hi j. cbn [select_wrapped t_rows].
      rewrite (nth_indep _ []
                 (nth (Z.to_nat (0 mod Z.of_nat (t_batch t))) (t_rows t) []))
        by (now rewrite length_map).
      rewrite (map_nth (fun i => nth (Z.to_nat (i mod Z.of_nat (t_batch t)))
                                     (t_rows t) [])).
      fold j. f_equal. f_equal.
      assert (Hj : (- Z.of_nat (t_batch t) <= j < Z.of_nat (t_batch t))%Z).
      { apply (Hvalid k t j); [now apply dict_get_In|].
        unfold j. now apply nth_In. }
      destruct (j <? 0)%Z eqn:E.
      * apply Z.ltb_lt in E.
        rewrite <- (Z.mod_add j 1 (Z.of_nat (t_batch t))) by lia.
        rewrite Z.mod_small by lia. lia.
      * apply Z.ltb_ge in E. now rewrite Z.mod_small by lia.
  - intros k t Hin. apply tensor_index_wrapped. apply Forall_forall.
    intros i Hi. eapply Hvalid; eassumption.
Qed.

Lemma rearrange_kv_cache_negative_witness :
  exists h' cache' t',
    rearrange_kv_cache ex_inference [(-1)%Z; 0%Z; (-5)%Z] ex_heap = Ok h'
    /\ heap_get 0 h' = Some cache'
    /\ dict_get "v_0a" cache' = Some t'
    /\ nth 0 (t_rows t') [] = [[14%float]]
    /\ nth 1 (t_rows t') [] = [[10%float]]
    /\ nth 2 (t_rows t') [] = [[10%float]].
Proof.
  assert (Hnd : NoDup (dict_keys ex_cache5)).
  { simpl. repeat constructor; simpl; intuition discriminate. }
  assert (Hvalid : forall k t i, In (k, t) ex_cache5 ->
                     In i [(-1)%Z; 0%Z; (-5)%Z] ->
                     (- Z.of_nat (t_batch t) <= i < Z.of_nat (t_batch t))%Z).
  { intros k t i Hin Hi. simpl in Hin, Hi.
    destruct Hin as [E|[E|[]]]; injection E as <- <-;
      destruct Hi as [<-|[<-|[<-|[]]]]; simpl; lia. }
  destruct (@rearrange_kv_cache_negative ex_inference ex_heap ex_cache5
              [(-1)%Z; 0%Z; (-5)%Z] eq_refl Hnd Hvalid)
    as (h' & cache' & Hrun & Hheap & Hkeys & Hslots).
  destruct (Hslots "v_0a"%string ex_batch5 eq_refl) as (t' & Hk & _ & Hrows).
  exists h', cache', t'.
  repeat split; try assumption.
  - exact (Hrows 0 ltac:(simpl; lia)).
  - exact (Hrows 1 ltac:(simpl; lia)).
  - exact (Hrows 2 ltac:(simpl; lia)).
Defined.


(* ================================================================== *)
(** * [rearrange_kv_cache]: two calls in a row, and the identity *)
(* ================================================================== *)

Lemma heap_set_set (l : loc) (d1 d2 : dict Tensor) (h : Heap) :
  heap_set l d2 (heap_set l d1 h) = heap_set l d2 h.
Proof.
  revert l. induction h as [|d0 h IH]; intros l; [now destruct l|].
  destruct l as [|l]; cbn [heap_set]; [reflexivity|]. now rewrite IH.
Qed.

Lemma heap_set_same (l : loc) (d : dict Tensor) (h : Heap) :
  heap_get l h = Some d -> heap_set l d h = h.
Proof.
  unfold heap_get. revert l.
  induction h as [|d0 h IH]; intros l H; [now destruct l|].
  destruct l as [|l]; cbn [heap_set nth_error] in *.
  - now injection H as ->.
  - now rewrite IH.
Qed.

Lemma dict_map_values_in (f : Tensor -> Tensor) (k : string) (t' : Tensor)
    (d : dict Tensor) :
  In (k, t') (map (fun kv => (fst kv, f (snd kv))) d) ->
  exists t, In (k, t) d /\ t' = f t.
Proof.
  intros H. apply in_map_iff in H. destruct H as ([k0 t] & E & Hin).
  cbn [fst snd] in E. injection E as -> <-. now exists t.
Qed.

Lemma select_batch_twice (t : Tensor) (first then_ : list Z) :
  Forall (fun j => (0 <= j < Z.of_nat (List.length first))%Z) then_ ->
  select_batch (select_batch t first) then_
  = select_batch t (compose_indices first then_).
Proof.
  intros H. unfold select_batch, compose_indices.
  cbn [t_seq t_feat t_rows]. rewrite length_map. f_equal.
  rewrite map_map. apply map_ext_in. intros j Hj.
  rewrite Forall_forall in H. specialize (H _ Hj).
  rewrite (nth_indep _ [] (nth (Z.to_nat 0%Z) (t_rows t) []))
    by (rewrite length_map; lia).
  now rewrite (map_nth (fun i => nth (Z.to_nat i) (t_rows t) [])).
Qed.

(** X9.  Two rearrangements in a row are one: when the indices are not
    negative and each call returns, rearranging by [first] and then by
    [then_] leaves the heap as one call with the indices
    [[first[j] for j in then_]] does. *)
Theorem rearrange_kv_cache_twice (self : OpenVINOInference) (h h1 h2 : Heap)
    (cache : dict Tensor) (first then_ : list Z) :
  heap_get (self_kv_cache self) h = Some cache ->
  NoDup (dict_keys cache) ->
  Forall (fun i => (0 <= i)%Z) first ->
  Forall (fun j => (0 <= j)%Z) then_ ->
  rearrange_kv_cache self first h = Ok h1 ->
  rearrange_kv_cache self then_ h1 = Ok h2 ->
  rearrange_kv_cache self (compose_indices first then_) h = Ok h2.
Proof.
  intros Hget Hnd Hpos1 Hpos2 Hrun1 Hrun2.
  assert (Hvalid1 : forall k t i, In (k, t) cache -> In i first ->
                      (0 <= i < Z.of_nat (t_batch t))%Z).
  { intros k t i Hin Hi.
    assert (Hok : exists h', rearrange_kv_cache self first h = Ok h')
      by now exists h1.
    unfold rearrange_kv_cache in Hok. rewrite Hget in Hok.
    destruct (rearrange_items_accepts first cache cache)
      as [[Hall _]|[_ Hraise]].
    - rewrite Forall_forall in Hall. specialize (Hall _ Hin).
      rewrite Forall_forall in Hall. specialize (Hall _ Hi).
      rewrite Forall_forall in Hpos1. specialize (Hpos1 _ Hi).
      cbn [snd] in Hall. lia.
    - rewrite Hraise in Hok. destruct Hok as [h' Hok]. discriminate Hok. }
  rewrite (@rearrange_kv_cache_map (fun t => select_batch t first)
             _ _ _ _ Hget Hnd) in Hrun1
    by (intros k t Hin; apply tensor_index_valid, Forall_forall;
        intros i Hi; eapply Hvalid1; eassumption).
  injection Hrun1 as <-.
  assert (Hget1 : heap_get (self_kv_cache self)
                    (heap_set (self_kv_cache self)
                       (map (fun kv => (fst kv, select_batch (snd kv) first))
                            cache) h)
                  = Some (map (fun kv => (fst kv, select_batch (snd kv) first))
                              cache)).
  { apply heap_get_set_same. eapply heap_get_bound. eassumption. }
  assert (Hnd1 : NoDup (dict_keys
                          (map (fun kv => (fst kv, select_batch (snd kv) first))
                               cache))).
  { unfold dict_keys in *. now rewrite map_map. }
  destruct cache as [|[k0 t0] cache0] eqn:Ecache.
  { (* an empty cache accepts anything *)
    cbn [map] in *. unfold rearrange_kv_cache in *.
    rewrite Hget1 in Hrun2. rewrite Hget. cbn [rearrange_items bind] in *.
    injection Hrun2 as <-. now rewrite heap_set_set. }
  rewrite <- Ecache in *.
  assert (Hvalid2 : Forall (fun j => (0 <= j < Z.of_nat (List.length first))%Z)
                      then_).
  { assert (Hok : exists h', rearrange_kv_cache self then_
                     (heap_set (self_kv_cache self)
                        (map (fun kv => (fst kv, select_batch (snd kv) first))
                             cache) h) = Ok h')
      by now exists h2.
    unfold rearrange_kv_cache in Hok. rewrite Hget1 in Hok.
    destruct (rearrange_items_accepts then_
                (map (fun kv => (fst kv, select_batch (snd kv) first)) cache)
                (map (fun kv => (fst kv, select_batch (snd kv) first)) cache))
      as [[Hall _]|[_ Hraise]].
    - rewrite Ecache in Hall. cbn [map] in Hall.
      inversion Hall as [|? ? Hfirst _]; subst.
      cbn [snd fst select_batch t_batch] in Hfirst.
      apply Forall_forall. intros j Hj.
      rewrite Forall_forall in Hfirst, Hpos2.
      specialize (Hfirst _ Hj). specialize (Hpos2 _ Hj). lia.
    - rewrite Hraise in Hok. destruct Hok as [h' Hok]. discriminate Hok. }
  rewrite (@rearrange_kv_cache_map (fun t => select_batch t then_)
             _ _ _ _ Hget1 Hnd1) in Hrun2.
  - injection Hrun2 as <-. rewrite heap_set_set.
    rewrite (@rearrange_kv_cache_map
               (fun t => select_batch t (compose_indices first then_))
               _ _ _ _ Hget Hnd).
    + do 2 f_equal. rewrite map_map. apply map_ext. intros [k t].
      cbn [fst snd]. now rewrite select_batch_twice.
    + intros k t Hin. apply tensor_index_valid, Forall_forall.
      intros i Hi. unfold compose_indices in Hi. apply in_map_iff in Hi.
      destruct Hi as (j & <- & Hj).
      rewrite Forall_forall in Hvalid2. specialize (Hvalid2 _ Hj).
      apply (Hvalid1 k t); [exact Hin|]. apply nth_In. lia.
  - intros k t' Hin.
    apply (@dict_map_values_in (fun t => select_batch t first)) in Hin.
    destruct Hin as (t & _ & ->). apply tensor_index_valid.
    cbn [select_batch t_batch]. exact Hvalid2.
Qed.

Lemma rearrange_kv_cache_twice_witness :
  exists h1 h2,
    rearrange_kv_cache ex_inference [2%Z; 2%Z; 0%Z] ex_heap = Ok h1
    /\ rearrange_kv_cache ex_inference [2%Z; 0%Z] h1 = Ok h2
    /\ rearrange_kv_cache ex_inference [0%Z; 2%Z] ex_heap = Ok h2.
Proof.
  assert (Hnd : NoDup (dict_keys ex_cache5)).
  { simpl. repeat constructor; simpl; intuition discriminate. }
  eexists. eexists. split; [reflexivity|]. split; [reflexivity|].
  eapply (@rearrange_kv_cache_twice ex_inference ex_heap _ _ ex_cache5
            [2%Z; 2%Z; 0%Z] [2%Z; 0%Z] eq_refl Hnd).
  - repeat constructor; lia.
  - repeat constructor; lia.
  - reflexivity.
  - reflexivity.
Defined.

Lemma nth_seq_rows (A : Type) (d : A) (rows : list A) :
  map (fun i => nth (Z.to_nat i) rows d) (py_range_nat (List.length rows))
  = rows.
Proof.
  unfold py_range_nat. rewrite map_map.
  induction rows as [|r rows IH]; [reflexivity|].
  cbn [List.length seq map]. f_equal.
  rewrite <- seq_shift, map_map.
  rewrite <- IH at 2. apply map_ext. intros i.
  now rewrite !Nat2Z.id.
Qed.

(** X10.  Rearranging by the indices [0, 1, ..., b-1] changes nothing:
    on a cache whose tensors all have [b] batch entries, the heap after
    the call is the heap before it. *)
Theorem rearrange_kv_cache_identity (self : OpenVINOInference) (h : Heap)
    (cache : dict Tensor) (b : nat) :
  heap_get (self_kv_cache self) h = Some cache ->
  NoDup (dict_keys cache) ->
  (forall k t, In (k, t) cache -> wf_tensor t /\ t_batch t = b) ->
  rearrange_kv_cache self (py_range_nat b) h = Ok h.
Proof.
  intros Hget Hnd Hwf.
  assert (Hsel : forall k t, In (k, t) cache ->
                   select_batch t (py_range_nat b) = t).
  { intros k t Hin. destruct (Hwf _ _ Hin) as [[Hlen _] Hb].
    destruct t as [tb ts tf rows]. cbn [t_rows t_batch] in Hlen, Hb.
    unfold select_batch. cbn [t_rows t_seq t_feat].
    rewrite <- Hb, <- Hlen, nth_seq_rows. unfold py_range_nat.
    now rewrite length_map, length_seq. }
  rewrite (@rearrange_kv_cache_map (fun t => select_batch t (py_range_nat b))
             _ _ _ _ Hget Hnd).
  - f_equal. apply heap_set_same. rewrite Hget. f_equal.
    transitivity (map (fun kv : string * Tensor => kv) cache);
      [symmetry; apply map_id|].
    apply map_ext_in. intros [k t] Hin.
    cbn [fst snd]. now rewrite (Hsel _ _ Hin).
  - intros k t Hin. apply tensor_index_valid, Forall_forall.
    intros i Hi. unfold py_range_nat in Hi. apply in_map_iff in Hi.
    destruct Hi as (n & <- & Hn). apply in_seq in Hn.
    destruct (Hwf _ _ Hin) as [_ Hb]. lia.
Qed.

Lemma rearrange_kv_cache_identity_witness :
  rearrange_kv_cache ex_inference [0%Z; 1%Z; 2%Z; 3%Z; 4%Z] ex_heap
  = Ok ex_heap.
Proof.
  assert (Hnd : NoDup (dict_keys ex_cache5)).
  { simpl. repeat constructor; simpl; intuition discriminate. }
  apply (@rearrange_kv_cache_identity ex_inference ex_heap ex_cache5 5
           eq_refl Hnd).
  intros k t Hin. simpl in Hin.
  destruct Hin as [E|[E|[]]]; injection E as <- <-;
    (split; [|reflexivity]); split; [reflexivity| |reflexivity|];
    repeat constructor.
Defined.


(* ================================================================== *)
(** * The feed dictionary after the first step *)
(* ================================================================== *)

Lemma feed_loop_mem (input_names : list string) (cache : dict Tensor)
    (feed_dict : dict ov_tensor) (name : string) :
  dict_mem name (fold_left (feed_slot input_names) cache feed_dict) = true
  <-> dict_mem name feed_dict = true
      \/ (In name input_names
          /\ exists s, In s (dict_keys cache) /\ name = String.append "in_" s).
Proof.
  revert feed_dict.
  induction cache as [|[s t] cache IH]; intros feed_dict.
  - cbn [fold_left dict_keys map]. split; [now left|].
    intros [H|(_ & s & [] & _)]. exact H.
  - cbn [fold_left]. rewrite IH. unfold feed_slot. cbn [fst snd].
    cbn [dict_keys map fst].
    destruct (str_in (String.append "in_" s) input_names) eqn:E.
    + rewrite dict_mem_set. rewrite orb_true_iff, String.eqb_eq.
      apply str_in_In in E. split.
      * intros [[<-|H]|(Hin & s' & Hs' & ->)].
        -- right. split; [exact E|]. exists s. split; [now left|reflexivity].
        -- now left.
        -- right. split; [exact Hin|]. exists s'. split; [now right|reflexivity].
      * intros [H|(Hin & s' & [<-|Hs'] & ->)].
        -- left. now right.
        -- left. now left.
        -- right. split; [exact Hin|]. now exists s'.
    + split.
      * intros [H|(Hin & s' & Hs' & ->)]; [now left|].
        right. split; [exact Hin|]. exists s'. split; [now right|reflexivity].
      * intros [H|(Hin & s' & [<-|Hs'] & ->)]; [now left| |].
        -- apply str_in_In in Hin. congruence.
        -- right. split; [exact Hin|]. now exists s'.
Qed.

(** X11.  After the first step, on a cache that is not empty, the feed
    dictionary keeps the tokens and the audio features as supplied,
    whatever the keys of the cache are; it has an entry for a further name
    exactly when the model declares that input and the cache has the slot
    for it.  An input the cache has no slot for is left out: no placeholder
    is made for it. *)
Theorem forward_feed_later_step (self : OpenVINOTextDecoder) (x : Tokens)
    (xa : Tensor) (cache : dict Tensor) :
  cache <> [] ->
  exists feed_dict,
    forward_feed self x (Some xa) (Some cache) = Ok feed_dict
    /\ dict_get "tokens" feed_dict = Some (OVTokens x)
    /\ dict_get "audio_features" feed_dict = Some (OVFloat xa)
    /\ (forall name,
          name <> "tokens"%string -> name <> "audio_features"%string ->
          (dict_mem name feed_dict = true
           <-> In name (_input_names self)
               /\ exists s, In s (dict_keys cache)
                            /\ name = String.append "in_" s)).
Proof.
  intros Hne.
  unfold forward_feed, preprocess_kv_cache_inputs. cbn [numpy_of bind].
  destruct cache as [|kv cache]; [congruence|]. cbn [py_not_dict].
  eexists. split; [reflexivity|].
  split; [|split].
  - rewrite feed_loop_other; [reflexivity|]. intros s _. discriminate.
  - rewrite feed_loop_other; [reflexivity|]. intros s _. discriminate.
  - intros name H1 H2. rewrite feed_loop_mem. split.
    + intros [H|H]; [|exact H]. exfalso.
      unfold dict_mem in H. cbn [dict_get] in H.
      destruct (String.eqb name "tokens") eqn:E1;
        [apply String.eqb_eq in E1; congruence|].
      destruct (String.eqb name "audio_features") eqn:E2;
        [apply String.eqb_eq in E2; congruence|].
      discriminate H.
    + intros H. now right.
Qed.

Lemma forward_feed_later_step_witness :
  exists feed_dict,
    forward_feed ex_ov_decoder ex_tokens (Some ex_features)
      (Some [("v_0a"%string, ex_old)]) = Ok feed_dict
    /\ dict_mem "in_v_0a" feed_dict = true
    /\ dict_mem "in_k_0a" feed_dict = false.
Proof.
  destruct (@forward_feed_later_step ex_ov_decoder ex_tokens ex_features
              [("v_0a"%string, ex_old)] ltac:(discriminate))
    as (feed_dict & Hrun & _ & _ & Hdom).
  exists feed_dict. split; [exact Hrun|]. split.
  - apply (Hdom "in_v_0a"%string); [discriminate | discriminate |].
    split; [simpl; tauto|]. exists "v_0a"%string. split; [now left|reflexivity].
  - destruct (dict_mem "in_k_0a" feed_dict) eqn:E; [|reflexivity].
    apply (Hdom "in_k_0a"%string) in E; [|discriminate|discriminate].
    destruct E as (_ & s & [<-|[]] & E). discriminate E.
Defined.

(* ================================================================== *)
(** * What [postprocess_outputs] makes of any outputs *)
(* ================================================================== *)

Lemma demap_loop_logits (outputs : list (OutputPort * Tensor))
    (acc : option Tensor * dict Tensor) :
  fst (fold_left demap_output outputs acc)
  = match filter (fun o => str_in "logits" (get_names (fst o))) (rev outputs) with
    | o :: _ => Some (snd o)
    | [] => fst acc
    end.
Proof.
  revert acc. induction outputs as [|o outputs IH]; intros acc; [reflexivity|].
  cbn [fold_left rev]. rewrite IH, filter_app. cbn [filter].
  unfold demap_output.
  destruct (filter _ (rev outputs)) as [|o' rest]; cbn [app].
  - destruct (str_in "logits" (get_names (fst o))); reflexivity.
  - reflexivity.
Qed.

Lemma demap_loop_mem (outputs : list (OutputPort * Tensor))
    (acc : option Tensor * dict Tensor) (k : string) :
  dict_mem k (snd (fold_left demap_output outputs acc)) = true
  <-> dict_mem k (snd acc) = true
      \/ exists o, In o outputs
                   /\ str_in "logits" (get_names (fst o)) = false
                   /\ k = str_replace "out_" "" (any_name (fst o)).
Proof.
  revert acc. induction outputs as [|o outputs IH]; intros acc.
  - cbn [fold_left]. split; [now left|]. intros [H|(o & [] & _)]. exact H.
  - cbn [fold_left]. rewrite IH. unfold demap_output.
    destruct (str_in "logits" (get_names (fst o))) eqn:E; cbn [snd].
    + split.
      * intros [H|(o' & Hin & Hno & ->)]; [now left|].
        right. exists o'. split; [now right|]. now split.
      * intros [H|(o' & [<-|Hin] & Hno & ->)]; [now left|congruence|].
        right. exists o'. now repeat split.
    + rewrite dict_mem_set, orb_true_iff, String.eqb_eq. split.
      * intros [[<-|H]|(o' & Hin & Hno & ->)].
        -- right. exists o. split; [now left|]. now split.
        -- now left.
        -- right. exists o'. split; [now right|]. now split.
      * intros [H|(o' & [<-|Hin] & Hno & ->)].
        -- left. now right.
        -- left. now left.
        -- right. exists o'. now repeat split.
Qed.

(** X12.  [postprocess_outputs] on any outputs.  The logits are the tensor
    of the last output that carries the name [logits], and [None] when no
    output does; the cache has a key exactly for the other outputs, each
    under its name with every [out_] removed; an output named [logits] is
    never stored in the cache. *)
Theorem postprocess_outputs_any (outputs : list (OutputPort * Tensor)) :
  (fst (postprocess_outputs outputs) = None
   <-> forall o, In o outputs -> str_in "logits" (get_names (fst o)) = false)
  /\ (forall before p t after,
        outputs = before ++ (p, t) :: after ->
        str_in "logits" (get_names p) = true ->
        (forall o, In o after -> str_in "logits" (get_names (fst o)) = false) ->
        fst (postprocess_outputs outputs) = Some t)
  /\ (forall k,
        dict_mem k (snd (postprocess_outputs outputs)) = true
        <-> exists o, In o outputs
                      /\ str_in "logits" (get_names (fst o)) = false
                      /\ k = str_replace "out_" "" (any_name (fst o))).
Proof.
  unfold postprocess_outputs. split; [|split].
  - rewrite demap_loop_logits. cbn [fst].
    destruct (filter _ (rev outputs)) as [|o rest] eqn:E.
    + split; [intros _|reflexivity]. intros o Hin.
      destruct (str_in "logits" (get_names (fst o))) eqn:Eo; [|reflexivity].
      assert (Hf : In o (filter (fun o => str_in "logits" (get_names (fst o)))
                           (rev outputs))).
      { apply filter_In. split; [now apply in_rev in Hin | exact Eo]. }
      rewrite E in Hf. destruct Hf.
    + split; [discriminate|]. intros H. exfalso.
      assert (Hf : In o (filter (fun o => str_in "logits" (get_names (fst o)))
                           (rev outputs))) by (rewrite E; now left).
      apply filter_In in Hf. destruct Hf as [Hin Ho].
      apply in_rev in Hin. rewrite (H _ Hin) in Ho. discriminate Ho.
  - intros before p t after -> Hp Hafter.
    rewrite demap_loop_logits. rewrite rev_app_distr. cbn [rev].
    rewrite <- app_assoc, !filter_app. cbn [filter app fst]. rewrite Hp.
    assert (E : filter (fun o => str_in "logits" (get_names (fst o)))
                  (rev after) = []).
    { induction (rev after) as [|o l IHl] eqn:El; [reflexivity|].
      clear IHl. cbn [filter].
      assert (Ho : In o after) by (apply in_rev; rewrite El; now left).
      rewrite (Hafter _ Ho).
      assert (Hl : forall o', In o' l -> In o' after).
      { intros o' Ho'. apply in_rev. rewrite El. now right. }
      clear El. induction l as [|o' l IHl]; [reflexivity|].
      cbn [filter]. rewrite (Hafter o') by (apply Hl; now left).
      apply IHl. intros o'' Ho''. apply Hl. now right. }
    rewrite E. reflexivity.
  - intros k. rewrite demap_loop_mem. cbn [snd dict_mem dict_get].
    split; [intros [H|H]; [discriminate H | exact H] | intros H; now right].
Qed.


(* ================================================================== *)
(** * [format_timestamp] *)
(* ================================================================== *)

Lemma str_length_append (a b : string) :
  String.length (String.append a b) = String.length a + String.length b.
Proof.
  induction a as [|c a IH]; [reflexivity|].
  cbn [String.append String.length]. now rewrite IH.
Qed.

(** A decidable property of the integers below a bound holds of each of
    them when it holds of the whole list. *)
Lemma below_bound_all (P : Z -> bool) (bound : nat) :
  forallb (fun n => P (Z.of_nat n)) (seq 0 bound) = true ->
  forall z, (0 <= z < Z.of_nat bound)%Z -> P z = true.
Proof.
  intros H z Hz. rewrite forallb_forall in H.
  specialize (H (Z.to_nat z)). rewrite Z2Nat.id in H by lia.
  apply H. apply in_seq. lia.
Qed.

Lemma fmt_0d_2_length (z : Z) :
  (0 <= z < 100)%Z -> String.length (fmt_0d 2 z) = 2.
Proof.
  intros Hz. apply Nat.eqb_eq.
  apply (below_bound_all (fun z => String.length (fmt_0d 2 z) =? 2) 100);
    [vm_compute; reflexivity | exact Hz].
Qed.

Lemma fmt_0d_3_length (z : Z) :
  (0 <= z < 1000)%Z -> String.length (fmt_0d 3 z) = 3.
Proof.
  intros Hz. apply Nat.eqb_eq.
  apply (below_bound_all (fun z => String.length (fmt_0d 3 z) =? 3) 1000);
    [vm_compute; reflexivity | exact Hz].
Qed.

Lemma str_of_Z_digit_length (z : Z) :
  (0 <= z < 10)%Z -> String.length (str_of_Z z) = 1.
Proof.
  intros Hz. apply Nat.eqb_eq.
  apply (below_bound_all (fun z => String.length (str_of_Z z) =? 1) 10);
    [vm_compute; reflexivity | exact Hz].
Qed.

(** The four fields of a count of milliseconds. *)
Lemma timestamp_fields (ms : Z) :
  let h := (ms / 3600000)%Z in
  let r1 := (ms - h * 3600000)%Z in
  let m := (r1 / 60000)%Z in
  let r2 := (r1 - m * 60000)%Z in
  let s := (r2 / 1000)%Z in
  let r := (r2 - s * 1000)%Z in
  (ms = h * 3600000 + m * 60000 + s * 1000 + r)%Z
  /\ (0 <= m < 60)%Z /\ (0 <= s < 60)%Z /\ (0 <= r < 1000)%Z
  /\ ((0 <= ms)%Z -> (0 <= h)%Z).
Proof.
  intros h r1 m r2 s r.
  pose proof (Z.div_mod ms 3600000 ltac:(lia)) as E1.
  pose proof (Z.mod_pos_bound ms 3600000 ltac:(lia)) as B1.
  pose proof (Z.div_mod r1 60000 ltac:(lia)) as E2.
  pose proof (Z.mod_pos_bound r1 60000 ltac:(lia)) as B2.
  pose proof (Z.div_mod r2 1000 ltac:(lia)) as E3.
  pose proof (Z.mod_pos_bound r2 1000 ltac:(lia)) as B3.
  fold h in E1. fold m in E2. fold s in E3.
  assert (Hh : (0 <= ms)%Z -> (0 <= h)%Z).
  { intros Hms. unfold h. apply Z.div_pos; lia. }
  unfold r, r2, r1 in *. lia.
Qed.

(** X14.  A timestamp that [format_timestamp] returns is built from the
    number of milliseconds nearest to the seconds given: that number is
    hours, minutes, seconds and milliseconds with the last three below 60,
    60 and 1000; minutes and seconds are printed with two digits and the
    milliseconds with three, so the text after the hours always has the
    ten characters [:MM:SS,mmm]; the hours are [00] below one hour and the
    bare number from one hour on, so that the timestamp has 12 characters
    below one hour and only 11 from one to nine hours. *)
Theorem format_timestamp_fields (seconds : float) (stamp : string) :
  format_timestamp seconds = Ok stamp ->
  exists ms h m s r : Z,
    py_round (seconds * 1000)%float = Ok ms
    /\ (ms = h * 3600000 + m * 60000 + s * 1000 + r)%Z
    /\ (0 <= m < 60)%Z /\ (0 <= s < 60)%Z /\ (0 <= r < 1000)%Z
    /\ stamp
       = String.append
           (if (0 <? h)%Z then String.append (str_of_Z h) ":" else "00:"%string)
           (String.append (fmt_0d 2 m)
              (String.append ":"
                 (String.append (fmt_0d 2 s)
                    (String.append "," (fmt_0d 3 r)))))
    /\ String.length (fmt_0d 2 m) = 2
    /\ String.length (fmt_0d 2 s) = 2
    /\ String.length (fmt_0d 3 r) = 3
    /\ ((h <= 0)%Z -> String.length stamp = 12)
    /\ ((1 <= h <= 9)%Z -> String.length stamp = 11).
Proof.
  unfold format_timestamp. intros H.
  destruct (negb (0 <=? seconds)%float); [discriminate H|].
  destruct (py_round (seconds * 1000)%float) as [ms|e]; cbn [bind] in H;
    [|discriminate H].
  injection H as <-.
  destruct (timestamp_fields ms) as (Hsum & Hm & Hs & Hr & _).
  cbv zeta in Hsum, Hm, Hs, Hr.
  set (h := (ms / 3600000)%Z) in *.
  set (m := ((ms - h * 3600000) / 60000)%Z) in *.
  set (s := ((ms - h * 3600000 - m * 60000) / 1000)%Z) in *.
  set (r := (ms - h * 3600000 - m * 60000 - s * 1000)%Z) in *.
  exists ms, h, m, s, r.
  pose proof (@fmt_0d_2_length m ltac:(lia)) as Lm.
  pose proof (@fmt_0d_2_length s ltac:(lia)) as Ls.
  pose proof (@fmt_0d_3_length r Hr) as Lr.
  repeat split; try assumption; try lia.
  - intros Hh. assert (E : (0 <? h)%Z = false) by (apply Z.ltb_ge; lia).
    rewrite E.
    repeat (rewrite str_length_append || cbn [String.append String.length]).
    rewrite Lm, Ls, Lr. reflexivity.
  - intros Hh. assert (E : (0 <? h)%Z = true) by (apply Z.ltb_lt; lia).
    rewrite E.
    repeat (rewrite str_length_append || cbn [String.append String.length]).
    rewrite Lm, Ls, Lr. rewrite str_of_Z_digit_length by lia. reflexivity.
Qed.

Lemma format_timestamp_fields_witness :
  exists stamp,
    format_timestamp 3661.5%float = Ok stamp /\ String.length stamp = 11.
Proof.
  destruct (format_timestamp 3661.5%float) as [stamp|e] eqn:E;
    [|discriminate E].
  exists stamp. split; [reflexivity|].
  destruct (format_timestamp_fields _ E)
    as (ms & h & m & s & r & Hms & Hsum & Hm & Hs & Hr & _ & _ & _ & _ & _
        & Hlen).
  vm_compute in Hms. injection Hms as <-. apply Hlen. lia.
Defined.


(* ================================================================== *)
(** * [prepare_srt] *)
(* ================================================================== *)

Lemma prepare_srt_loop_app (segments : list Segment) :
  forall segment_lines,
    prepare_srt_loop segments segment_lines
    = lines <- prepare_srt_loop segments [] ;; Ok (segment_lines ++ lines).
Proof.
  induction segments as [|seg rest IH]; intros acc.
  - cbn [prepare_srt_loop bind]. now rewrite app_nil_r.
  - cbn [prepare_srt_loop].
    destruct (format_timestamp (seg_start seg)) as [a|e]; cbn [bind];
      [|reflexivity].
    destruct (format_timestamp (seg_end seg)) as [b|e]; cbn [bind];
      [|reflexivity].
    rewrite IH. symmetry. rewrite IH. symmetry.
    destruct (prepare_srt_loop rest []) as [lines|e]; cbn [bind];
      [|reflexivity].
    cbn [app]. now rewrite <- !app_assoc.
Qed.

Lemma prepare_srt_cons (seg : Segment) (rest : list Segment) :
  prepare_srt (seg :: rest)
  = time_start <- format_timestamp (seg_start seg) ;;
    time_end <- format_timestamp (seg_end seg) ;;
    lines <- prepare_srt rest ;;
    Ok (String.append (str_of_Z (seg_id seg + 1)) nl
          :: String.append time_start
               (String.append " --> " (String.append time_end nl))
          :: String.append (seg_text seg) (String.append nl nl)
          :: lines).
Proof.
  unfold prepare_srt. cbn [prepare_srt_loop].
  destruct (format_timestamp (seg_start seg)) as [a|e]; cbn [bind];
    [|reflexivity].
  destruct (format_timestamp (seg_end seg)) as [b|e]; cbn [bind];
    [|reflexivity].
  rewrite prepare_srt_loop_app.
  destruct (prepare_srt_loop rest []) as [lines|e]; reflexivity.
Qed.

(** X15.  [prepare_srt] returns exactly when [format_timestamp] accepts
    the start and the end of every segment.  It then gives three lines per
    segment, in the order of the segments: the number of the segment,
    which is its [id] plus one, the two timestamps around an arrow, and
    the text followed by an empty line. *)
Theorem prepare_srt_lines (segments : list Segment) :
  ((exists lines, prepare_srt segments = Ok lines)
   <-> Forall (fun seg =>
                 (exists a, format_timestamp (seg_start seg) = Ok a)
                 /\ (exists b, format_timestamp (seg_end seg) = Ok b))
         segments)
  /\ (forall lines,
        prepare_srt segments = Ok lines ->
        List.length lines = 3 * List.length segments
        /\ forall i seg,
             nth_error segments i = Some seg ->
             nth_error lines (3 * i)
             = Some (String.append (str_of_Z (seg_id seg + 1)) nl)
             /\ (exists a b,
                    format_timestamp (seg_start seg) = Ok a
                    /\ format_timestamp (seg_end seg) = Ok b
                    /\ nth_error lines (3 * i + 1)
                       = Some (String.append a
                                 (String.append " --> " (String.append b nl))))
             /\ nth_error lines (3 * i + 2)
                = Some (String.append (seg_text seg) (String.append nl nl))).
Proof.
  induction segments as [|seg rest [IHret IHlines]].
  - split.
    + split; [constructor | now exists []].
    + intros lines [= <-]. split; [reflexivity|].
      intros [|i] seg H; discriminate H.
  - rewrite prepare_srt_cons. split.
    + split.
      * intros [lines H].
        destruct (format_timestamp (seg_start seg)) as [a|e] eqn:Ea;
          cbn [bind] in H; [|discriminate H].
        destruct (format_timestamp (seg_end seg)) as [b|e] eqn:Eb;
          cbn [bind] in H; [|discriminate H].
        destruct (prepare_srt rest) as [lines'|e]; cbn [bind] in H;
          [|discriminate H].
        constructor; [split; eexists; eassumption|].
        apply IHret. now exists lines'.
      * intros H. inversion H as [|? ? [[a Ha] [b Hb]] Hrest]; subst.
        apply IHret in Hrest. destruct Hrest as [lines' Hrest].
        rewrite Ha, Hb, Hrest. cbn [bind]. now eexists.
    + intros lines H.
      destruct (format_timestamp (seg_start seg)) as [a|e] eqn:Ea;
        cbn [bind] in H; [|discriminate H].
      destruct (format_timestamp (seg_end seg)) as [b|e] eqn:Eb;
        cbn [bind] in H; [|discriminate H].
      destruct (prepare_srt rest) as [lines'|e]; cbn [bind] in H;
        [|discriminate H].
      injection H as <-.
      destruct (IHlines lines' eq_refl) as [Hlen Hnth].
      split; [cbn [List.length]; lia|].
      intros [|i] seg' Hseg.
      * injection Hseg as <-. cbn [Nat.mul Nat.add nth_error].
        split; [reflexivity|]. split; [|reflexivity].
        exists a, b. now repeat split.
      * cbn [nth_error] in Hseg.
        destruct (Hnth i seg' Hseg) as (H1 & (a' & b' & Ha' & Hb' & H2) & H3).
        replace (3 * S i) with (S (S (S (3 * i)))) by lia.
        replace (S (S (S (3 * i))) + 1) with (S (S (S (3 * i + 1)))) by lia.
        replace (S (S (S (3 * i))) + 2) with (S (S (S (3 * i + 2)))) by lia.
        cbn [nth_error]. split; [exact H1|]. split; [|exact H3].
        exists a', b'. now repeat split.
Qed.


(* ================================================================== *)
(** * The segments [split_video] cuts *)
(* ================================================================== *)

(** Against the integer part [n] of a float that is at least 1: the float
    is not below an integer up to [n], and is below every larger one. *)
Lemma float_lt_int_trunc (f : float) (n z : Z) :
  py_int f = Ok n -> (1 <= n)%Z ->
  float_lt_int f z = (n <? z)%Z.
Proof.
  unfold py_int, float_lt_int. intros H Hn.
  destruct (Prim2SF f) as [s|s| |s m e]; try discriminate H.
  - injection H as <-. lia.
  - pose proof (Pos2Z.is_pos m) as Hm.
    remember (Z.pos m) as p eqn:Ep.
    destruct (0 <=? e)%Z eqn:Ee.
    + apply Z.leb_le in Ee.
      assert (Hp : (0 < 2 ^ e)%Z) by (apply Z.pow_pos_nonneg; lia).
      destruct s; injection H as <-; [nia|reflexivity].
    + apply Z.leb_gt in Ee.
      assert (Hp : (0 < 2 ^ (- e))%Z) by (apply Z.pow_pos_nonneg; lia).
      pose proof (Z.div_mod p (2 ^ (- e)) ltac:(lia)) as Hdm.
      pose proof (Z.mod_pos_bound p (2 ^ (- e)) Hp) as Hb.
      assert (Hq : (0 <= p / 2 ^ (- e))%Z) by (apply Z.div_pos; lia).
      destruct s; injection H as <-; [lia|].
      destruct (Z.ltb_spec (p / 2 ^ (- e)) z) as [Hz|Hz].
      * apply Z.ltb_lt. nia.
      * apply Z.ltb_ge. nia.
Qed.

Lemma ceil_div_bounds (n d : Z) :
  (0 < d)%Z ->
  let c := ((n + d - 1) / d)%Z in
  ((c - 1) * d < n <= c * d)%Z /\ ((n mod d = 0)%Z <-> (c * d = n)%Z).
Proof.
  intros Hd c.
  pose proof (Z.div_mod (n + d - 1) d ltac:(lia)) as Hdm.
  pose proof (Z.mod_pos_bound (n + d - 1) d Hd) as Hb.
  fold c in Hdm. split; [nia|]. split.
  - intros Hmod.
    pose proof (Z.div_mod n d ltac:(lia)) as Hn. rewrite Hmod in Hn.
    set (q := (n / d)%Z) in *. set (r := ((n + d - 1) mod d)%Z) in *.
    assert (H1 : (0 < q + 1 - c)%Z) by nia.
    assert (H2 : (q + 1 - c < 2)%Z) by nia.
    assert (H3 : (q = c)%Z) by lia.
    rewrite <- H3. lia.
  - intros E. rewrite <- E. apply Z.mod_mul. lia.
Qed.

Lemma py_range_ok (stop step : Z) :
  (0 < step)%Z ->
  py_range stop step
  = Ok (map (fun k => (Z.of_nat k * step)%Z)
            (seq 0 (Z.to_nat ((stop + step - 1) / step)))).
Proof.
  intros H. unfold py_range.
  assert (E0 : (step =? 0)%Z = false) by (apply Z.eqb_neq; lia).
  assert (E1 : (0 <? step)%Z = true) by (apply Z.ltb_lt; lia).
  now rewrite E0, E1.
Qed.

(** X16.  The segments [split_video] cuts from a video of at least one
    second, with a positive segment length: there are as many as the
    segment length goes into the whole seconds of the video, rounded up;
    segment [k] starts at [k * duration]; every segment but the last ends
    where the next one starts; and the last one ends at the end of the
    video, except when the whole seconds are a multiple of the segment
    length: then it ends at the last whole second, and what the video has
    beyond it is in no segment. *)
Theorem split_video_times_cover (total_duration : float) (duration n : Z) :
  py_int total_duration = Ok n -> (1 <= n)%Z -> (0 < duration)%Z ->
  exists segments,
    split_video_times total_duration duration = Ok segments
    /\ List.length segments = Z.to_nat ((n + duration - 1) / duration)
    /\ segments <> []
    /\ forall k start_time end_time,
         nth_error segments k = Some (start_time, end_time) ->
         start_time = (Z.of_nat k * duration)%Z
         /\ (S k < List.length segments ->
             end_time = PyInt (start_time + duration))
         /\ (S k = List.length segments ->
             end_time = if (n mod duration =? 0)%Z then PyInt n
                        else PyFloat total_duration).
Proof.
  intros Hint Hn Hd. unfold split_video_times. rewrite Hint. cbn [bind].
  rewrite (@py_range_ok _ _ Hd). cbn [bind].
  destruct (ceil_div_bounds n Hd) as [Hc Hmod]. cbv zeta in Hc, Hmod.
  set (c := ((n + duration - 1) / duration)%Z) in *.
  assert (Hcpos : (1 <= c)%Z) by nia.
  eexists. split; [reflexivity|].
  rewrite !length_map, length_seq.
  split; [reflexivity|]. split.
  - intros Hnil. apply (f_equal (@List.length _)) in Hnil.
    rewrite !length_map, length_seq in Hnil. cbn [List.length] in Hnil. lia.
  - intros k start_time end_time Hk. rewrite map_map in Hk.
    rewrite nth_error_map in Hk.
    assert (Hlt : k < Z.to_nat c).
    { destruct (Nat.lt_ge_cases k (Z.to_nat c)) as [Hlt|Hge]; [exact Hlt|].
      rewrite (proj2 (nth_error_None _ _)) in Hk
        by (now rewrite length_seq).
      discriminate Hk. }
    rewrite nth_error_seq in Hk.
    destruct (Nat.ltb_spec k (Z.to_nat c)); [|lia].
    cbn [option_map Nat.add] in Hk. injection Hk as <- <-.
    split; [reflexivity|]. unfold py_min.
    rewrite (@float_lt_int_trunc _ _ _ Hint Hn). split.
    + intros Hnext.
      assert (E : (n <? Z.of_nat k * duration + duration)%Z = false).
      { apply Z.ltb_ge. nia. }
      now rewrite E.
    + intros Hlast.
      assert (Ek : (Z.of_nat k * duration + duration = c * duration)%Z) by nia.
      rewrite Ek.
      destruct (Z.eqb_spec (n mod duration) 0) as [Hz|Hz].
      * apply Hmod in Hz. rewrite Hz, Z.ltb_irrefl. reflexivity.
      * assert (E : (n <? c * duration)%Z = true).
        { apply Z.ltb_lt. destruct (Z.eq_dec (c * duration) n) as [E|E];
            [now apply Hmod in E | lia]. }
        now rewrite E.
Qed.

Lemma split_video_times_cover_witness :
  py_int 600.5%float = Ok 600%Z
  /\ split_video_times 600.5%float 300
     = Ok [(0%Z, PyInt 300); (300%Z, PyInt 600)].
Proof.
  split; [vm_compute; reflexivity|].
  destruct (@split_video_times_cover 600.5%float 300 600)
    as (segments & Hrun & Hlen & _ & Hseg);
    [vm_compute; reflexivity | lia | lia |].
  rewrite Hrun. f_equal.
  change (Z.to_nat ((600 + 300 - 1) / 300)) with 2 in Hlen.
  destruct segments as [|[s0 e0] [|[s1 e1] [|? ?]]]; try discriminate Hlen.
  destruct (Hseg 0 s0 e0 eq_refl) as (-> & He0 & _).
  destruct (Hseg 1 s1 e1 eq_refl) as (-> & _ & He1).
  rewrite (He0 ltac:(cbn; lia)), (He1 eq_refl). reflexivity.
Defined.

(** X17.  The calls of [split_video] that cut nothing.  A segment length
    of zero is refused by [range] with [ValueError]; a video shorter than
    one second yields no segment at all, whatever the positive segment
    length; and so does a negative segment length on any video. *)
Theorem split_video_times_nothing (total_duration : float) (duration n : Z) :
  py_int total_duration = Ok n ->
  (duration = 0%Z ->
   split_video_times total_duration duration = Raise ValueError)
  /\ ((0 < duration)%Z -> (n <= 0)%Z ->
      split_video_times total_duration duration = Ok [])
  /\ ((duration < 0)%Z -> (0 <= n)%Z ->
      split_video_times total_duration duration = Ok []).
Proof.
  intros Hint. unfold split_video_times. rewrite Hint. cbn [bind].
  split; [|split].
  - intros ->. reflexivity.
  - intros Hd Hn. rewrite (@py_range_ok _ _ Hd). cbn [bind].
    assert (E : ((n + duration - 1) / duration <= 0)%Z).
    { apply Z.lt_succ_r. apply Z.div_lt_upper_bound; lia. }
    destruct ((n + duration - 1) / duration)%Z as [|p|p] eqn:Eq;
      try reflexivity. lia.
  - intros Hd Hn. unfold py_range.
    assert (E0 : (duration =? 0)%Z = false) by (apply Z.eqb_neq; lia).
    assert (E1 : (0 <? duration)%Z = false) by (apply Z.ltb_ge; lia).
    rewrite E0, E1. cbn [bind].
    assert (E : ((- n - duration - 1) / - duration <= 0)%Z).
    { apply Z.lt_succ_r. apply Z.div_lt_upper_bound; lia. }
    destruct ((- n - duration - 1) / - duration)%Z as [|p|p] eqn:Eq;
      try reflexivity. lia.
Qed.

Lemma split_video_times_nothing_witness :
  split_video_times 0.75%float 300 = Ok []
  /\ split_video_times 10.5%float 0 = Raise ValueError.
Proof.
  split.
  - apply (proj1 (proj2 (@split_video_times_nothing 0.75%float 300 0
                           ltac:(vm_compute; reflexivity))));
      lia.
  - apply (proj1 (@split_video_times_nothing 10.5%float 0 10
                    ltac:(vm_compute; reflexivity))).
    reflexivity.
Defined.
